(** * mod_installer.py: license-gated install and uninstall of mod assets

    A shallow embedding of [src/mod_installer.py] and the properties of its
    specification.

    - Python [str] values are [string]s, one character per code point in
      the Latin-1 range (U+0000 to U+00FF); [strip], [lower], [split] and
      [in] are written out for that range.
    - The file system is a finite map from paths to file records (size and
      attributes).  [os.remove], [os.rename], [os.chmod] and
      [os.path.getsize] raise as the operating system makes them raise: on
      a missing file, on a change the system refuses, on Windows for a
      read-only file or an existing destination.  [os.system] never raises.
    - The answers of the remote service, the outcome of the blob transfer,
      the UUID drawn for a new key and the refusals of the operating system
      are inputs, gathered in [Env]; the platform is in [Host].
    - Every call on the presentation layer (labels, progress bars, message
      boxes), on the log, on the network and every call that can change the
      file system is recorded, in order, as an [event].  Calls on the
      presentation layer and on the log return normally.
    - A function of the program is a function from the files to a [Run]:
      its result or the exception it raises, the files it leaves, the
      events it emitted.  A started thread is an event of its starter; the
      traces of a request are the interleavings of the caller's events with
      those of the threads it started. *)

From Stdlib Require Import ZArith NArith List Ascii String Bool Lia.
From stdpp Require Import base option gmap strings pretty.
Import ListNotations.

Set Warnings "-register-all".

Local Open Scope string_scope.
Local Open Scope Z_scope.

(** ** Python string operations used by the program *)

Module Py.

(** [str.isspace] on one code point below U+0100: TAB..CR, FS..US, SPACE,
    NEL and NBSP. *)
Definition isspace (c : ascii) : bool :=
  let n := N_of_ascii c in
  (((9 <=? n) && (n <=? 13)) || ((28 <=? n) && (n <=? 32))
   || (n =? 133) || (n =? 160))%N.

Fixpoint lstrip (s : string) : string :=
  match s with
  | EmptyString => EmptyString
  | String c s' => if isspace c then lstrip s' else s
  end.

Fixpoint rstrip (s : string) : string :=
  match s with
  | EmptyString => EmptyString
  | String c s' =>
      match rstrip s' with
      | EmptyString => if isspace c then EmptyString else String c EmptyString
      | r => String c r
      end
  end.

(** [s.strip()] *)
Definition strip (s : string) : string := rstrip (lstrip s).

(** [str.lower] on one code point below U+0100: A..Z and the Latin-1
    capitals U+00C0..U+00DE (the sign U+00D7 apart) move up by 32. *)
Definition lower_char (c : ascii) : ascii :=
  let n := N_of_ascii c in
  if (((65 <=? n) && (n <=? 90))
      || ((192 <=? n) && (n <=? 222) && negb (n =? 215)))%N
  then ascii_of_N (n + 32) else c.

Fixpoint lower (s : string) : string :=
  match s with
  | EmptyString => EmptyString
  | String c s' => String (lower_char c) (lower s')
  end.

(** [str.upper] restricted to ASCII; the program applies it to the text of a
    UUID only (hexadecimal digits and dashes). *)
Definition upper_char (c : ascii) : ascii :=
  let n := N_of_ascii c in
  if ((97 <=? n) && (n <=? 122))%N then ascii_of_N (n - 32) else c.

Fixpoint upper (s : string) : string :=
  match s with
  | EmptyString => EmptyString
  | String c s' => String (upper_char c) (upper s')
  end.

(** Truth value of a string: non-empty. *)
Definition truthy (s : string) : bool :=
  match s with EmptyString => false | _ => true end.

Fixpoint startswith (p s : string) : bool :=
  match p, s with
  | EmptyString, _ => true
  | String a p', String b s' => if Ascii.eqb a b then startswith p' s' else false
  | String _ _, EmptyString => false
  end.

(** [sub in s] *)
Fixpoint contains (sub s : string) : bool :=
  startswith sub s ||
  match s with
  | EmptyString => false
  | String _ s' => contains sub s'
  end.

Fixpoint rev_string (acc s : string) : string :=
  match s with
  | EmptyString => acc
  | String c s' => rev_string (String c acc) s'
  end.

(** [s.split(sep)] for a non-empty [sep]: a left-to-right scan that cuts at
    each occurrence of [sep] and resumes after it.  [skip] counts the
    characters of a separator still to be passed over, [cur] is the current
    piece, reversed. *)
Fixpoint split_go (sep : string) (skip : nat) (cur : string) (s : string)
  : list string :=
  match s with
  | EmptyString => [rev_string EmptyString cur]
  | String c s' =>
      match skip with
      | S k => split_go sep k cur s'
      | O =>
          if startswith sep s
          then rev_string EmptyString cur
               :: split_go sep (Nat.pred (String.length sep)) EmptyString s'
          else split_go sep O (String c cur) s'
      end
  end.

Definition split (sep s : string) : list string :=
  split_go sep O EmptyString s.

(** [s.replace(old, "")] for a one-character [old]. *)
Fixpoint remove_char (old : ascii) (s : string) : string :=
  match s with
  | EmptyString => EmptyString
  | String c s' =>
      if Ascii.eqb c old then remove_char old s' else String c (remove_char old s')
  end.

(** [s[:n]] *)
Fixpoint take (n : nat) (s : string) : string :=
  match n, s with
  | S k, String c s' => String c (take k s')
  | _, _ => EmptyString
  end.

(** [os.path.basename] on a POSIX path: what follows the last slash. *)
Fixpoint basename_go (cur s : string) : string :=
  match s with
  | EmptyString => rev_string EmptyString cur
  | String c s' =>
      if Ascii.eqb c "/" then basename_go EmptyString s'
      else basename_go (String c cur) s'
  end.

Definition basename (p : string) : string := basename_go EmptyString p.

End Py.

(** ** Predicates on strings *)

(** Every character of [s] passes the test [p]. *)
Fixpoint all_chars (p : ascii -> bool) (s : string) : bool :=
  match s with
  | EmptyString => true
  | String c s' => p c && all_chars p s'
  end.

(** No occurrence of [sep] in [prefix ++ tail] starts inside [prefix]: in
    [prefix ++ sep ++ ..], the first occurrence of [sep] is the one
    written. *)
Fixpoint starts_later (sep prefix tail : string) : bool :=
  match prefix with
  | EmptyString => true
  | String _ p =>
      negb (Py.startswith sep (prefix ++ tail)) && starts_later sep p tail
  end.

(** The character [c] does not occur in [s]. *)
Definition free_of (c : ascii) (s : string) : bool :=
  all_chars (fun x => negb (Ascii.eqb x c)) s.

(** ** Data model *)

(** One record of the catalog, with the four keys the program reads:
    ["Mod Name"], ["Mod Internal Name"], ["Google Drive Link"] and
    ["Serial Key"]. *)
Record ModDescriptor := {
  Mod_Name : string;
  Mod_Internal_Name : string;
  Google_Drive_Link : string;
  Serial_Key : string
}.

(** A JSON value as [r.json()] returns it. *)
Inductive json :=
| JNull
| JBool (b : bool)
| JNum (n : Z)
| JStr (s : string)
| JArr (items : list json)
| JObj (fields : list (string * json)).

(** What [requests.get] / [requests.post] gives back: an exception, or a
    response with its status code, its text and the value of [r.json()]
    ([None] when the body does not parse and [r.json()] raises). *)
Inductive http (A : Type) :=
| Unreachable (msg : string)
| Reply (status : Z) (text : string) (body : option A).
Arguments Unreachable {A} msg.
Arguments Reply {A} status text body.

(** What [gdown.download(url, output, quiet=True)] does: it returns with
    [bytes] bytes at [output], returns without an output file, or raises. *)
Inductive transfer_outcome :=
| Fetched (bytes : Z)
| NoOutput
| Broken (msg : string).

(** A file of the installation directory: its size and the attributes the
    program sets and clears. *)
Record File := {
  size : Z;
  hidden : bool;       (* attrib +h, chflags hidden *)
  system_attr : bool;  (* attrib +s *)
  readonly : bool;     (* attrib +r *)
  mode : Z             (* os.chmod *)
}.

Definition new_file (bytes : Z) : File :=
  {| size := bytes; hidden := false; system_attr := false;
     readonly := false; mode := 420 |}.

(** The calls that can change the file system. *)
Inductive mutation :=
| Fetch (url output : string)     (* gdown.download *)
| Shell (command : string)        (* os.system *)
| Chmod (path : string) (mode : Z)
| Remove (path : string)
| Rename (src dst : string).

(** The two thread bodies the program starts with [threading.Thread]. *)
Inductive task :=
| Download (url destination internal_name : string)
| UpdateKey (internal_name : string).

(** Observable calls, in the order they are made. *)
Inductive event :=
| Label (text : string)              (* progress_label.configure(text=..) *)
| Bar (percent : Z)                  (* progress_bar.set(percent / 100) *)
| ShowError (title message : string) (* messagebox.showerror *)
| ShowInfo (title message : string)  (* messagebox.showinfo *)
| LogInfo (message : string)
| LogError (message : string)
| HttpGet (url : string)
| HttpPost (url mod_internal_name new_serial_key : string)
| Sleep
| Mutate (m : mutation)
| ThreadStart (t : task)
| Refresh.                           (* load_mod_list(current_user_email) *)

Inductive exn :=
| FileNotFoundError (path : string)
| PermissionError (path : string)
| FileExistsError (path : string)
| TypeError (what : string)
| AttributeError (what : string)
| KeyError (key : string)
| JSONDecodeError
| RequestException (msg : string)
| TransferError (msg : string).

(** [str(e)], as far as the program prints it. *)
Definition str (e : exn) : string :=
  match e with
  | FileNotFoundError p => "No such file or directory: " ++ p
  | PermissionError p => "Permission denied: " ++ p
  | FileExistsError p => "File exists: " ++ p
  | TypeError w => w
  | AttributeError w => w
  | KeyError k => k
  | JSONDecodeError => "Expecting value"
  | RequestException m => m
  | TransferError m => m
  end.

Inductive System := Windows | Darwin | OtherOS.

(** The machine: [platform.system()], the mod folder found at start-up on
    Windows and macOS, and the host's [os.path.join] and
    [os.path.basename]. *)
Record Host := {
  system : System;
  mod_dir : string;
  path_join : string -> string -> string;
  path_basename : string -> string
}.

(** The environment of one run: the remote service's answers, the UUID
    drawn for the new key, the outcome of the transfer, and the changes
    the operating system refuses (permissions, locks). *)
Record Env := {
  catalog : http (list ModDescriptor);   (* GET get_available_mods *)
  user_mods : http json;                 (* GET get_user_mods *)
  key_update : http unit;                (* POST update_serial_key *)
  uuid4 : string;                        (* str(uuid.uuid4()) *)
  transfer : transfer_outcome;
  refused : mutation -> bool
}.

Definition API_URL : string := "http://lynx96.pythonanywhere.com/".

(** [None] on an unsupported system. *)
Definition MOD_INSTALL_PATH (h : Host) : option string :=
  match system h with
  | Windows | Darwin => Some (mod_dir h)
  | OtherOS => None
  end.

(** ** Effects: file-system state, emitted events, exceptions *)

Inductive result (A : Type) :=
| Ok (a : A)
| Raise (e : exn).
Arguments Ok {A} a.
Arguments Raise {A} e.

Record Run (A : Type) := MkRun {
  res : result A;
  files : gmap string File;
  events : list event
}.
Arguments MkRun {A} res files events.
Arguments res {A} r.
Arguments files {A} r.
Arguments events {A} r.

Definition M (A : Type) : Type := gmap string File -> Run A.

Definition ret {A} (a : A) : M A := fun fs => MkRun (Ok a) fs [].

Definition raise {A} (e : exn) : M A := fun fs => MkRun (Raise e) fs [].

Definition bind {A B} (m : M A) (k : A -> M B) : M B := fun fs =>
  match m fs with
  | MkRun (Ok a) fs1 ev1 =>
      match k a fs1 with
      | MkRun r fs2 ev2 => MkRun r fs2 (ev1 ++ ev2)
      end
  | MkRun (Raise e) fs1 ev1 => MkRun (Raise e) fs1 ev1
  end.

(** [try: m  except Exception as e: handler e] *)
Definition try_except {A} (m : M A) (handler : exn -> M A) : M A := fun fs =>
  match m fs with
  | MkRun (Ok a) fs1 ev1 => MkRun (Ok a) fs1 ev1
  | MkRun (Raise e) fs1 ev1 =>
      match handler e fs1 with
      | MkRun r fs2 ev2 => MkRun r fs2 (ev1 ++ ev2)
      end
  end.

Definition emit (e : event) : M unit := fun fs => MkRun (Ok tt) fs [e].

Notation "'do' x <- m ; k" := (bind m (fun x => k))
  (at level 10, x name, m at level 100, k at level 200).
Notation "'run' m ; k" := (bind m (fun _ => k))
  (at level 10, m at level 100, k at level 200).

Fixpoint for_each {A} (l : list A) (body : A -> M unit) : M unit :=
  match l with
  | [] => ret tt
  | x :: l' => run body x; for_each l' body
  end.

(** [range(start, stop, step)] for a positive step. *)
Definition range (start stop step : Z) : list Z :=
  map (fun k => start + Z.of_nat k * step)
      (seq 0 (Z.to_nat ((stop - start + step - 1) / step))).

(** ** Operating-system and library calls *)

Definition dquote : string := String (ascii_of_nat 34) EmptyString.

(** [f'"{path}"'] *)
Definition quoted (path : string) : string := dquote ++ path ++ dquote.

Definition set_flags (h s r : bool) (f : File) : File :=
  {| size := size f; hidden := h; system_attr := s; readonly := r;
     mode := mode f |}.

Definition set_hidden (h : bool) (f : File) : File :=
  {| size := size f; hidden := h; system_attr := system_attr f;
     readonly := readonly f; mode := mode f |}.

Definition set_mode (m : Z) (f : File) : File :=
  {| size := size f; hidden := hidden f; system_attr := system_attr f;
     readonly := readonly f; mode := m |}.

Definition is_windows (h : Host) : bool :=
  match system h with Windows => true | _ => false end.

Section Calls.

Variable host : Host.
Variable env : Env.

(** [os.path.exists]: never raises. *)
Definition os_path_exists (p : string) : M bool := fun fs =>
  MkRun (Ok (match fs !! p with Some _ => true | None => false end)) fs [].

Definition os_path_getsize (p : string) : M Z := fun fs =>
  match fs !! p with
  | Some f => MkRun (Ok (size f)) fs []
  | None => MkRun (Raise (FileNotFoundError p)) fs []
  end.

(** [os.remove]: the file must exist; Windows does not delete a read-only
    file. *)
Definition os_remove (p : string) : M unit := fun fs =>
  let ev := [Mutate (Remove p)] in
  match fs !! p with
  | None => MkRun (Raise (FileNotFoundError p)) fs ev
  | Some f =>
      if refused env (Remove p) || (is_windows host && readonly f)
      then MkRun (Raise (PermissionError p)) fs ev
      else MkRun (Ok tt) (delete p fs) ev
  end.

(** [os.rename]: the source must exist; Windows does not replace an
    existing destination, POSIX does. *)
Definition os_rename (src dst : string) : M unit := fun fs =>
  let ev := [Mutate (Rename src dst)] in
  match fs !! src with
  | None => MkRun (Raise (FileNotFoundError src)) fs ev
  | Some f =>
      if refused env (Rename src dst)
      then MkRun (Raise (PermissionError dst)) fs ev
      else if is_windows host
                && match fs !! dst with Some _ => true | None => false end
      then MkRun (Raise (FileExistsError dst)) fs ev
      else MkRun (Ok tt) (<[dst := f]> (delete src fs)) ev
  end.

Definition os_chmod (p : string) (m : Z) : M unit := fun fs =>
  let ev := [Mutate (Chmod p m)] in
  match fs !! p with
  | None => MkRun (Raise (FileNotFoundError p)) fs ev
  | Some f =>
      if refused env (Chmod p m)
      then MkRun (Raise (PermissionError p)) fs ev
      else MkRun (Ok tt) (<[p := set_mode m f]> fs) ev
  end.

(** [os.system(command)]: the exit status is dropped and nothing is raised.
    [target] and [change] give the effect of the command on the file it
    names (a path free of characters special to the shell); a command that
    fails changes nothing. *)
Definition os_system (command target : string) (change : File -> File)
  : M unit := fun fs =>
  MkRun (Ok tt)
        (if refused env (Shell command) then fs else alter change target fs)
        [Mutate (Shell command)].

Definition gdown_download (url output : string) : M unit := fun fs =>
  let ev := [Mutate (Fetch url output)] in
  match transfer env with
  | Fetched n => MkRun (Ok tt) (<[output := new_file n]> fs) ev
  | NoOutput => MkRun (Ok tt) fs ev
  | Broken msg => MkRun (Raise (TransferError msg)) fs ev
  end.

(** [requests.get(url, ...)]; the response is the environment's. *)
Definition requests_get {A} (url : string) (answer : http A)
  : M (Z * string * option A) :=
  run emit (HttpGet url);
  match answer with
  | Unreachable msg => raise (RequestException msg)
  | Reply status text body => ret (status, text, body)
  end.

Definition requests_post {A} (url mod_internal_name new_serial_key : string)
    (answer : http A) : M (Z * string * option A) :=
  run emit (HttpPost url mod_internal_name new_serial_key);
  match answer with
  | Unreachable msg => raise (RequestException msg)
  | Reply status text body => ret (status, text, body)
  end.

(** [r.json()] *)
Definition r_json {A} (body : option A) : M A :=
  match body with
  | Some v => ret v
  | None => raise JSONDecodeError
  end.

(** [os.path.join(MOD_INSTALL_PATH, name)]: a [TypeError] where
    [MOD_INSTALL_PATH] is [None]. *)
Definition join_install_path (name : string) : M string :=
  match MOD_INSTALL_PATH host with
  | Some d => ret (path_join host d name)
  | None => raise (TypeError "expected str, bytes or os.PathLike object, not NoneType")
  end.

(** *** OS-specific helper functions *)

Definition set_file_attributes (file_path : string) : M unit :=
  match system host with
  | Windows =>
      os_system ("attrib +h +s +r " ++ quoted file_path) file_path
                (set_flags true true true)
  | Darwin =>
      run os_system ("chflags hidden " ++ quoted file_path) file_path
                    (set_hidden true);
      os_chmod file_path 292
  | OtherOS => os_chmod file_path 292
  end.

Definition remove_file_attributes (file_path : string) : M unit :=
  match system host with
  | Windows =>
      os_system ("attrib -h -s -r " ++ quoted file_path) file_path
                (set_flags false false false)
  | Darwin =>
      run os_system ("chflags nohidden " ++ quoted file_path) file_path
                    (set_hidden false);
      os_chmod file_path 438
  | OtherOS => os_chmod file_path 438
  end.

End Calls.

(** ** The program *)

(** [drive_link.split(sep)[1].split(stop)[0]]; [nth] and [hd] never fall
    back on their default here ([split_has_second], [split_nonempty]). *)
Definition between (sep stop drive_link : string) : string :=
  hd "" (Py.split stop (nth 1 (Py.split sep drive_link) "")).

Definition extract_drive_file_id (drive_link : string) : option string :=
  if Py.contains "/file/d/" drive_link
  then Some (between "/file/d/" "/" drive_link)
  else if Py.contains "id=" drive_link
  then Some (between "id=" "&" drive_link)
  else None.

(** ["User Mods" in first]: key of a dict, substring of a string, element
    of a list; a [TypeError] on anything else. *)
Definition has_user_mods (first : json) : M bool :=
  match first with
  | JObj fields =>
      ret (existsb (fun kv => String.eqb (fst kv) "User Mods") fields)
  | JStr s => ret (Py.contains "User Mods" s)
  | JArr items =>
      ret (existsb (fun j => match j with
                             | JStr s => String.eqb s "User Mods"
                             | _ => false
                             end) items)
  | _ => raise (TypeError "argument is not iterable")
  end.

(** [first["User Mods"]] *)
Definition user_mods_field (first : json) : M json :=
  match first with
  | JObj fields =>
      match find (fun kv => String.eqb (fst kv) "User Mods") fields with
      | Some kv => ret (snd kv)
      | None => raise (KeyError "User Mods")
      end
  | _ => raise (TypeError "indices must be integers")
  end.

(** [user_mods_str.split(",")] *)
Definition split_commas (user_mods_str : json) : M (list string) :=
  match user_mods_str with
  | JStr s => ret (Py.split "," s)
  | _ => raise (AttributeError "object has no attribute 'split'")
  end.

(** [[mod.strip().lower() for mod in pieces if mod.strip()]] *)
Definition normalise (pieces : list string) : list string :=
  map (fun m => Py.lower (Py.strip m))
      (List.filter (fun m => Py.truthy (Py.strip m)) pieces).

Section Program.

Variable host : Host.
Variable env : Env.

(** *** API communication functions *)

Definition get_user_purchased_mods : M (list string) :=
  try_except
    (do r <- requests_get (API_URL ++ "get_user_mods") (user_mods env);
     let '(status_code, _, body) := r in
     if status_code =? 200 then
       do data <- r_json body;
       match data with
       | JArr (first :: _) =>
           do present <- has_user_mods first;
           if present then
             do user_mods_str <- user_mods_field first;
             do pieces <- split_commas user_mods_str;
             ret (normalise pieces)
           else ret []
       | _ => ret []
       end
     else ret [])
    (fun e =>
       run emit (ShowError "Error" ("Error fetching user mods: " ++ str e));
       ret []).

Definition fetch_mod_list : M (list ModDescriptor) :=
  try_except
    (do r <- requests_get (API_URL ++ "get_available_mods") (catalog env);
     let '(status_code, text, body) := r in
     if status_code =? 200 then r_json body
     else
       run emit (ShowError "Error" ("Error fetching mod list: " ++ text));
       ret [])
    (fun e =>
       run emit (ShowError "Error" ("Error fetching mod list: " ++ str e));
       ret []).

Definition post_update_serial_key (mod_internal_name : string)
  : M (option string) :=
  let new_serial_key :=
    Py.upper (Py.take 14 (Py.remove_char "-" (uuid4 env))) in
  try_except
    (do r <- requests_post (API_URL ++ "update_serial_key")
                           mod_internal_name new_serial_key (key_update env);
     let '(status_code, text, _) := r in
     if status_code =? 200 then
       run emit (LogInfo ("Serial key updated for " ++ mod_internal_name));
       ret (Some new_serial_key)
     else
       run emit (ShowError "Error" ("Failed to update serial key: " ++ text));
       ret None)
    (fun e =>
       run emit (ShowError "Error" ("Error updating serial key: " ++ str e));
       ret None).

(** [load_mod_list(current_user_email)] as [download] and [uninstall_mod]
    call it when they have succeeded: the call is recorded as the one event
    [Refresh].  Both are reached only once [MOD_INSTALL_PATH] has been
    joined to a name, and there the list load returns normally, changes no
    file and starts no thread; its two requests and their boxes are not
    repeated among the caller's events.  The list load itself, with its
    requests, its boxes and its exception, is [load_mod_list_rows]. *)
Definition load_mod_list : M unit := emit Refresh.

(** *** Mod download and install functions *)

(** The body of the download thread. *)
Definition download (url destination : string) : M bool :=
  try_except
    (run emit (Label "Initializing Download...");
     run emit (Bar 0);
     let temp_file := destination ++ ".tmp" in
     run gdown_download env url temp_file;
     run for_each (range 1 101 10) (fun i =>
           run emit (Bar i);
           run emit (Label ("Downloading: " ++ pretty i ++ "%"));
           emit Sleep);
     do staged <- os_path_exists temp_file;
     do failed <- (if negb staged then ret true
                   else do n <- os_path_getsize temp_file; ret (n <? 500000));
     if (failed : bool) then
       do staged' <- os_path_exists temp_file;
       run (if (staged' : bool) then os_remove host env temp_file else ret tt);
       run emit (ShowError "Error" "Download failed! Try again.");
       run emit (Label "Download Failed");
       run emit (Bar 0);
       ret false
     else
       run os_rename host env temp_file destination;
       run set_file_attributes host env destination;
       run emit (Label "Mod Installed!");
       run emit (Bar 100);
       run emit (ShowInfo "Success"
                   (path_basename host destination ++ " installed successfully!"));
       run load_mod_list;
       ret true)
    (fun e =>
       run emit (LogError ("Download failed: " ++ str e));
       run emit (ShowError "Error" ("Failed to download mod: " ++ str e));
       run emit (Label "Download Failed");
       ret false).

(** Starts the download thread and returns at once. *)
Definition download_with_gdown (file_id destination internal_name : string)
  : M unit :=
  let url := "https://drive.google.com/uc?id=" ++ file_id in
  emit (ThreadStart (Download url destination internal_name)).

(** The body of the key-update thread. *)
Definition update_key (internal_name : string) : M unit :=
  do new_key <- post_update_serial_key internal_name;
  match new_key with
  | Some k =>
      if Py.truthy k
      then emit (LogInfo ("Serial key updated for " ++ internal_name))
      else ret tt
  | None => ret tt
  end.

(** [if not file_id] *)
Definition usable (file_id : option string) : option string :=
  match file_id with
  | Some id => if Py.truthy id then Some id else None
  | None => None
  end.

(** The body of the [if] inside the loop of [install_mod], up to its
    [return]. *)
Definition install_matched (mod_name internal_name drive_link : string)
  : M unit :=
  run emit (Label ("Preparing " ++ mod_name ++ "..."));
  run emit (Bar 0);
  match usable (extract_drive_file_id drive_link) with
  | None => emit (ShowError "Error" "Invalid Google Drive link!")
  | Some file_id =>
      do mod_path <- join_install_path host (internal_name ++ ".scs");
      do installed <- os_path_exists mod_path;
      run (if (installed : bool) then
             run remove_file_attributes host env mod_path;
             os_remove host env mod_path
           else ret tt);
      run download_with_gdown file_id mod_path internal_name;
      emit (ThreadStart (UpdateKey internal_name))
  end.

(** The test of that [if]: the record's name and serial key match. *)
Definition record_matches (mod_name serial_key_input : string)
    (md : ModDescriptor) : bool :=
  String.eqb (Mod_Name md) mod_name
  && String.eqb (Py.strip (Serial_Key md)) (Py.strip serial_key_input).

(** The loop of [install_mod] over the fetched catalog; the code after the
    loop is the [[]] case. *)
Fixpoint install_scan (mod_list : list ModDescriptor)
    (mod_name internal_name drive_link serial_key_input : string) : M unit :=
  match mod_list with
  | [] =>
      run emit (ShowError "Error" "Invalid serial key!");
      emit (Label "Invalid Key")
  | md :: rest =>
      if record_matches mod_name serial_key_input md
      then install_matched mod_name internal_name drive_link
      else install_scan rest mod_name internal_name drive_link serial_key_input
  end.

Definition install_mod
    (mod_name internal_name drive_link serial_key_input : string) : M unit :=
  do mod_list <- fetch_mod_list;
  install_scan mod_list mod_name internal_name drive_link serial_key_input.

Definition uninstall_mod (internal_name : string) : M unit :=
  do mod_path <- join_install_path host (internal_name ++ ".scs");
  do present <- os_path_exists mod_path;
  do removed_any <-
    (if (present : bool) then
       run remove_file_attributes host env mod_path;
       run os_remove host env mod_path;
       ret true
     else ret false);
  if (removed_any : bool) then
    run emit (Label (internal_name ++ " uninstalled"));
    run emit (ShowInfo "Success" (internal_name ++ " uninstalled!"));
    load_mod_list
  else emit (ShowError "Error" "Mod not found.").

(** *** Threads *)

Definition run_task (t : task) : M unit :=
  match t with
  | Download url destination _ => do _ <- download url destination; ret tt
  | UpdateKey internal_name => update_key internal_name
  end.

End Program.

(** ** Executions of one install request

    The caller's events come in program order.  A thread's events come
    after the event that starts it, interleaved with whatever the caller and
    the threads started later do.  Only the download thread touches files
    once it runs, so its events are those of its body run from the files
    the caller leaves. *)

Inductive merge {A : Type} : list A -> list A -> list A -> Prop :=
| merge_nil : merge [] [] []
| merge_left x l r t : merge l r t -> merge (x :: l) r (x :: t)
| merge_right y l r t : merge l r t -> merge l (y :: r) (y :: t).

Definition started (evs : list event) : list task :=
  omap (fun e => match e with ThreadStart t => Some t | _ => None end) evs.

Section Executions.

Variable host : Host.
Variable env : Env.

Fixpoint interleavings (fs : gmap string File) (caller : list event)
  : list event -> Prop :=
  match caller with
  | [] => fun t => t = []
  | ThreadStart tk :: rest => fun t =>
      exists r t', interleavings fs rest r
                   /\ merge (events (run_task host env tk fs)) r t'
                   /\ t = ThreadStart tk :: t'
  | e :: rest => fun t =>
      exists t', interleavings fs rest t' /\ t = e :: t'
  end.

(** The traces one call of [install_mod] can produce, threads included. *)
Definition install_trace (fs : gmap string File)
    (mod_name internal_name drive_link serial_key_input : string)
    (t : list event) : Prop :=
  let caller :=
    install_mod host env mod_name internal_name drive_link serial_key_input fs in
  interleavings (files caller) (events caller) t.

(** The files once the caller and the threads it started have finished. *)
Definition install_files (fs : gmap string File)
    (mod_name internal_name drive_link serial_key_input : string)
  : gmap string File :=
  let caller :=
    install_mod host env mod_name internal_name drive_link serial_key_input fs in
  fold_left (fun fs' tk => files (run_task host env tk fs'))
            (started (events caller)) (files caller).

End Executions.

(** ** Observations on a trace *)

Definition is_mutation (e : event) : bool :=
  match e with Mutate _ => true | _ => false end.

Definition is_thread_start (e : event) : bool :=
  match e with ThreadStart _ => true | _ => false end.

(** The request went past the serial-key check: the caller announced
    ["Preparing <mod_name>..."]. *)
Definition passed_validation (mod_name : string) (evs : list event) : Prop :=
  In (Label ("Preparing " ++ mod_name ++ "...")) evs.

Definition invalid_key_report : list event :=
  [ShowError "Error" "Invalid serial key!"; Label "Invalid Key"].

(** [e1] occurs in [t], and no [e2] occurs before its first occurrence. *)
Definition precedes_all (e1 : event) (is_e2 : event -> bool) (t : list event)
  : Prop :=
  exists before after,
    t = (before ++ e1 :: after)%list /\ forallb (fun e => negb (is_e2 e)) before = true.

(** ** A macOS host and a well-behaved environment, for examples *)

Definition posix_join (a b : string) : string :=
  if Py.startswith "/" b then b
  else match Py.rev_string "" a with
       | EmptyString => b
       | String c _ => if Ascii.eqb c "/" then a ++ b else a ++ "/" ++ b
       end.

Definition mac : Host :=
  {| system := Darwin;
     mod_dir := "/Users/u/Library/Application Support/Euro Truck Simulator 2/mod";
     path_join := posix_join;
     path_basename := Py.basename |}.

Definition premium_truck : ModDescriptor :=
  {| Mod_Name := "premium truck";
     Mod_Internal_Name := "premium_truck";
     Google_Drive_Link := "https://drive.google.com/file/d/1AbCdEf/view?usp=sharing";
     Serial_Key := "ABCD1234XYZ999" |}.

Definition calm (mods : list ModDescriptor) (t : transfer_outcome) : Env :=
  {| catalog := Reply 200 "" (Some mods);
     user_mods := Reply 200 ""
                    (Some (JArr [JObj [("User Mods", JStr "Premium Truck, bus pack")]]));
     key_update := Reply 200 "" (Some tt);
     uuid4 := "3f2b8c1e-9d47-4a6b-8e21-5c7d9f0a1b2c";
     transfer := t;
     refused := fun _ => false |}.

Definition premium_truck_path : string :=
  "/Users/u/Library/Application Support/Euro Truck Simulator 2/mod/premium_truck.scs".


(** ** Notions used to state the properties *)

(** What [fetch_mod_list] returns and emits; neither depends on the files
    ([fetch_mod_list_run]). *)
Definition fetched (env : Env) : list ModDescriptor :=
  match res (fetch_mod_list env ∅) with
  | Ok mods => mods
  | Raise _ => []
  end.

Definition fetch_events (env : Env) : list event :=
  events (fetch_mod_list env ∅).

(** A resource reference has the shape [.. marker ..]. *)
Definition has_shape (marker link : string) : Prop :=
  exists a b, link = a ++ marker ++ b.

(** The environment with another catalog response. *)
Definition with_catalog (c : http (list ModDescriptor)) (env : Env) : Env :=
  {| catalog := c; user_mods := user_mods env; key_update := key_update env;
     uuid4 := uuid4 env; transfer := transfer env; refused := refused env |}.

(** The fields of a record that the serial-key check reads. *)
Definition key_view (md : ModDescriptor) : string * string :=
  (Mod_Name md, Serial_Key md).

(** Two records with the display name of [premium_truck] and different
    serial keys. *)
Definition premium_truck_old : ModDescriptor :=
  {| Mod_Name := "premium truck";
     Mod_Internal_Name := "premium_truck_v1";
     Google_Drive_Link := "https://drive.google.com/file/d/0ZyXwV/view";
     Serial_Key := "AAAA1111BBBB22" |}.

Definition twin_catalog : list ModDescriptor :=
  [premium_truck_old; premium_truck].

(** [premium_truck] with another link and another internal name. *)
Definition premium_truck_moved : ModDescriptor :=
  {| Mod_Name := "premium truck";
     Mod_Internal_Name := "../../elsewhere";
     Google_Drive_Link := "https://drive.google.com/open?id=OTHER";
     Serial_Key := "ABCD1234XYZ999" |}.

(** An operating system that refuses every change of permission bits. *)
Definition chmod_refused : Env :=
  {| catalog := Reply 200 "" (Some [premium_truck]);
     user_mods := Reply 200 "" (Some (JArr []));
     key_update := Reply 200 "" (Some tt);
     uuid4 := "3f2b8c1e-9d47-4a6b-8e21-5c7d9f0a1b2c";
     transfer := Fetched 600000;
     refused := fun m => match m with Chmod _ _ => true | _ => false end |}.

(** [premium_truck] installed. *)
Definition truck_installed : gmap string File :=
  {[ premium_truck_path :=
       {| size := 600000; hidden := true; system_attr := false;
          readonly := false; mode := 292 |} ]}.

(** The events of the simulated progress loop of [download]. *)
Definition progress_events : list event :=
  events (for_each (range 1 101 10) (fun i =>
            run emit (Bar i);
            run emit (Label ("Downloading: " ++ pretty i ++ "%"));
            emit Sleep) ∅).

(** An operating system that refuses every rename. *)
Definition rename_refused : Env :=
  {| catalog := Reply 200 "" (Some [premium_truck]);
     user_mods := Reply 200 "" (Some (JArr []));
     key_update := Reply 200 "" (Some tt);
     uuid4 := "3f2b8c1e-9d47-4a6b-8e21-5c7d9f0a1b2c";
     transfer := Fetched 600000;
     refused := fun m => match m with Rename _ _ => true | _ => false end |}.


Definition truck_url : string := "https://drive.google.com/uc?id=1AbCdEf".

Definition key_update_url : string :=
  "http://lynx96.pythonanywhere.com/update_serial_key".

(** *** The entitlement query, in the words of its description

    The comma-separated field of the first returned record, if the response
    is OK and has one; the pieces of the field, the texts between its
    commas; and its names: the pieces that are not blank, each without the
    white space at its two ends and with its capital letters made small.
    These definitions follow the description of the operation and use none
    of the string operations of the program; the refinement theorem of the
    entitlement query compares them with [get_user_purchased_mods]. *)
Definition spec_entitlement_field (response : http json) : option string :=
  match response with
  | Reply status _ (Some (JArr (JObj fields :: _))) =>
      if status =? 200 then
        match find (fun kv => String.eqb (fst kv) "User Mods") fields with
        | Some (_, JStr s) => Some s
        | _ => None
        end
      else None
  | _ => None
  end.

(** White space below U+0100, by code point: TAB, LF, VT, FF, CR, FS, GS,
    RS, US, SPACE, NEL and NBSP. *)
Definition white (c : ascii) : bool :=
  existsb (N.eqb (N_of_ascii c))
          [9; 10; 11; 12; 13; 28; 29; 30; 31; 32; 133; 160]%N.

(** The capital letters below U+0100: A to Z, and the accented capitals
    U+00C0 to U+00D6 and U+00D8 to U+00DE. *)
Definition capital (c : ascii) : bool :=
  let n := N_of_ascii c in
  (((65 <=? n) && (n <=? 90)) || ((192 <=? n) && (n <=? 214))
   || ((216 <=? n) && (n <=? 222)))%N.

(** [d] is [c] made small: 32 code points up for a capital letter, [c]
    itself for any other character. *)
Definition small_of (c d : ascii) : Prop :=
  if capital c then N_of_ascii d = (N_of_ascii c + 32)%N else d = c.

(** [t] is [s] with its capital letters made small. *)
Inductive lowered : string -> string -> Prop :=
| lowered_nil : lowered EmptyString EmptyString
| lowered_cons (c d : ascii) (s t : string) :
    small_of c d -> lowered s t -> lowered (String c s) (String d t).

(** A string that does not start, or does not end, with white space. *)
Definition starts_clean (s : string) : Prop :=
  match s with
  | EmptyString => True
  | String c _ => white c = false
  end.

Fixpoint ends_clean (s : string) : Prop :=
  match s with
  | EmptyString => True
  | String c s' =>
      match s' with
      | EmptyString => white c = false
      | String _ _ => ends_clean s'
      end
  end.

(** [core] is [piece] without the white space at its two ends. *)
Definition trimmed (piece core : string) : Prop :=
  exists l t,
    piece = l ++ core ++ t
    /\ all_chars white l = true /\ all_chars white t = true
    /\ starts_clean core /\ ends_clean core.

(** The names of a list of pieces: a blank piece gives none, any other
    piece gives its trimmed text in small letters; the order is kept. *)
Inductive names_of : list string -> list string -> Prop :=
| names_nil : names_of [] []
| names_blank (piece : string) (pieces names : list string) :
    all_chars white piece = true ->
    names_of pieces names -> names_of (piece :: pieces) names
| names_cons (piece core name : string) (pieces names : list string) :
    trimmed piece core -> core <> EmptyString -> lowered core name ->
    names_of pieces names -> names_of (piece :: pieces) (name :: names).

(** The pieces written one after the other with a comma between two of
    them. *)
Fixpoint comma_joined (pieces : list string) : string :=
  match pieces with
  | [] => EmptyString
  | piece :: rest =>
      match rest with
      | [] => piece
      | _ :: _ => piece ++ "," ++ comma_joined rest
      end
  end.

(** [names] are the names of the comma-separated [field]. *)
Definition names_of_field (field : string) (names : list string) : Prop :=
  exists pieces,
    field = comma_joined pieces
    /\ Forall (fun piece => free_of "," piece = true) pieces
    /\ names_of pieces names.

(** A name as the description promises it: not empty, no white space at
    either end, no capital letter. *)
Definition normal_name (name : string) : Prop :=
  name <> EmptyString /\ starts_clean name /\ ends_clean name
  /\ all_chars (fun c => negb (capital c)) name = true.

(** ** Device identity, login and the list of mods

    The rest of the program: [get_mac_address], [authenticate_user],
    [on_login] and the decisions [load_mod_list] takes for each record of
    the catalog. *)

(** [n.to_bytes(length, 'big')], the bytes from the least significant one
    first; [to_bytes_big] puts them in order and is [None] where Python
    raises [OverflowError]. *)
Fixpoint le_bytes (length : nat) (n : N) : list N :=
  match length with
  | O => []
  | S k => (n mod 256)%N :: le_bytes k (n / 256)%N
  end.

Definition to_bytes_big (length : nat) (n : N) : option (list N) :=
  if (n <? 256 ^ N.of_nat length)%N then Some (rev (le_bytes length n))
  else None.

Definition hex_digit (d : N) : ascii :=
  if (d <? 10)%N then ascii_of_N (48 + d) else ascii_of_N (87 + d).

(** [format(x, '02x')] for a byte. *)
Definition format_02x (x : N) : string :=
  String (hex_digit (x / 16)) (String (hex_digit (x mod 16)) EmptyString).

(** [sep.join(pieces)] *)
Fixpoint join (sep : string) (pieces : list string) : string :=
  match pieces with
  | [] => EmptyString
  | [x] => x
  | x :: rest => x ++ sep ++ join sep rest
  end.

(** [get_mac_address()], as a function of [uuid.getnode()]. *)
Definition get_mac_address (node : N) : option string :=
  match to_bytes_big 6 node with
  | Some bytes => Some (join ":" (map format_02x bytes))
  | None => None
  end.

Section Login.

Variable host : Host.
Variable env : Env.

(** [authenticate_user(email, password)]: the same endpoint as
    [get_user_purchased_mods], so the same answer of the environment.  The
    query parameters (the result of [get_mac_address()] among them) are
    built before the [try]. *)
Definition authenticate_user : M bool :=
  try_except
    (do r <- requests_get (API_URL ++ "get_user_mods") (user_mods env);
     let '(status_code, _, _) := r in
     if status_code =? 200 then ret true else ret false)
    (fun e =>
       run emit (ShowError "Error" ("Authentication error: " ++ str e));
       ret false).


(** One frame of the list: the record whose fields the Install button
    passes to [install_mod], and whether an Uninstall button is packed. *)
Record Row := {
  row_mod : ModDescriptor;
  uninstall_button : bool
}.

(** The loop of [load_mod_list] over the catalog. *)
Fixpoint list_rows (purchased_mods : list string)
    (mod_list : list ModDescriptor) : M (list Row) :=
  match mod_list with
  | [] => ret []
  | md :: rest =>
      let mod_name_norm := Py.lower (Py.strip (Mod_Name md)) in
      if existsb (String.eqb mod_name_norm) purchased_mods then
        do decoy_path <- join_install_path host (Mod_Internal_Name md ++ ".scs");
        do installed <- os_path_exists decoy_path;
        do rows <- list_rows purchased_mods rest;
        ret ({| row_mod := md; uninstall_button := installed |} :: rows)
      else list_rows purchased_mods rest
  end.

(** What [load_mod_list] puts on screen. *)
Definition load_mod_list_rows : M (list Row) :=
  do purchased_mods <- get_user_purchased_mods env;
  do mod_list <- fetch_mod_list env;
  list_rows purchased_mods mod_list.



End Login.

(** The node of a MAC address text, two hexadecimal digits at a time. *)
Definition hex_value (c : ascii) : N :=
  let n := N_of_ascii c in
  if (n <? 58)%N then (n - 48)%N else (n - 87)%N.

Definition is_lower_hex (c : ascii) : bool :=
  let n := N_of_ascii c in
  (((48 <=? n) && (n <=? 57)) || ((97 <=? n) && (n <=? 102)))%N.

Definition is_upper_hex (c : ascii) : bool :=
  let n := N_of_ascii c in
  (((48 <=? n) && (n <=? 57)) || ((65 <=? n) && (n <=? 70)))%N.

(** What [get_user_purchased_mods] returns; it does not depend on the files
    ([get_user_purchased_mods_run]). *)
Definition purchased (env : Env) : list string :=
  match res (get_user_purchased_mods env ∅) with
  | Ok names => names
  | Raise _ => []
  end.

(** The test of [load_mod_list] on one record. *)
Definition entitled (purchased_mods : list string) (md : ModDescriptor) : bool :=
  existsb (String.eqb (Py.lower (Py.strip (Mod_Name md)))) purchased_mods.

(** A transfer that raises at once. *)
Definition no_route : Env := calm [premium_truck] (Broken "no route to host").

(** The caller's events of a re-install of [premium_truck], then those of
    its key-update thread, then those of its download thread. *)
Definition reinstall_trace : list event :=
  (events (install_mod mac no_route "premium truck" "premium_truck"
             (Google_Drive_Link premium_truck) "ABCD1234XYZ999" truck_installed)
   ++ events (run_task mac no_route (UpdateKey "premium_truck") ∅)
   ++ events (run_task mac no_route
                (Download truck_url premium_truck_path "premium_truck") ∅))%list.

(** A host whose system is neither Windows nor macOS. *)
Definition linux : Host :=
  {| system := OtherOS; mod_dir := ""; path_join := posix_join;
     path_basename := Py.basename |}.

(** ** Examples of the string and list operations *)

Example strip_example : Py.strip "  ABCD1234XYZ999 " = "ABCD1234XYZ999".
Proof. reflexivity. Qed.

Example split_example :
  Py.split "," "a, B ,,c" = ["a"; " B "; ""; "c"].
Proof. reflexivity. Qed.

Example split_long_separator :
  Py.split "id=" "u?id=abcid=5&x" = ["u?"; "abc"; "5&x"].
Proof. reflexivity. Qed.

Example split_trailing : Py.split "," "a," = ["a"; ""].
Proof. reflexivity. Qed.

Example range_1_101_10 :
  range 1 101 10 = [1; 11; 21; 31; 41; 51; 61; 71; 81; 91].
Proof. reflexivity. Qed.

(** ** Examples of runs *)

Example install_with_padded_key :
  events (install_mod mac (calm [premium_truck] (Fetched 600000))
            "premium truck" "premium_truck" (Google_Drive_Link premium_truck)
            "  ABCD1234XYZ999 " ∅)
  = [HttpGet "http://lynx96.pythonanywhere.com/get_available_mods";
     Label "Preparing premium truck..."; Bar 0;
     ThreadStart (Download truck_url premium_truck_path "premium_truck");
     ThreadStart (UpdateKey "premium_truck")].
Proof. reflexivity. Qed.

Example reinstall_removes_the_old_file_first :
  events (install_mod mac (calm [premium_truck] (Fetched 600000))
            "premium truck" "premium_truck" (Google_Drive_Link premium_truck)
            "ABCD1234XYZ999" truck_installed)
  = [HttpGet "http://lynx96.pythonanywhere.com/get_available_mods";
     Label "Preparing premium truck..."; Bar 0;
     Mutate (Shell ("chflags nohidden " ++ quoted premium_truck_path));
     Mutate (Chmod premium_truck_path 438);
     Mutate (Remove premium_truck_path);
     ThreadStart (Download truck_url premium_truck_path "premium_truck");
     ThreadStart (UpdateKey "premium_truck")]
  /\ files (install_mod mac (calm [premium_truck] (Fetched 600000))
              "premium truck" "premium_truck" (Google_Drive_Link premium_truck)
              "ABCD1234XYZ999" truck_installed) = ∅.
Proof. split; reflexivity. Qed.

Example download_places_and_protects :
  files (download mac (calm [premium_truck] (Fetched 600000))
           truck_url premium_truck_path ∅)
  = truck_installed
  /\ res (download mac (calm [premium_truck] (Fetched 600000))
            truck_url premium_truck_path ∅) = Ok true.
Proof. split; reflexivity. Qed.

Example update_key_posts_a_fresh_key :
  events (update_key (calm [premium_truck] (Fetched 600000)) "premium_truck" ∅)
  = [HttpPost key_update_url "premium_truck" "3F2B8C1E9D474A";
     LogInfo "Serial key updated for premium_truck";
     LogInfo "Serial key updated for premium_truck"].
Proof. reflexivity. Qed.

Example uninstall_removes :
  uninstall_mod mac (calm [premium_truck] NoOutput) "premium_truck"
                truck_installed
  = MkRun (Ok tt) ∅
      [Mutate (Shell ("chflags nohidden " ++ quoted premium_truck_path));
       Mutate (Chmod premium_truck_path 438);
       Mutate (Remove premium_truck_path);
       Label "premium_truck uninstalled";
       ShowInfo "Success" "premium_truck uninstalled!"; Refresh].
Proof. reflexivity. Qed.

Example entitled_names :
  res (get_user_purchased_mods (calm [premium_truck] NoOutput) ∅)
  = Ok ["premium truck"; "bus pack"].
Proof. reflexivity. Qed.

Example extract_examples :
  extract_drive_file_id "https://drive.google.com/file/d/1AbCdEf/view?usp=sharing"
  = Some "1AbCdEf"
  /\ extract_drive_file_id "https://drive.google.com/open?id=XYZ&x=1" = Some "XYZ"
  /\ extract_drive_file_id "https://example.org/mod.zip" = None.
Proof. repeat split; reflexivity. Qed.

(** ** Facts about the string operations *)

Lemma startswith_spec (p s : string) :
  Py.startswith p s = true <-> exists b, s = p ++ b.
Proof.
  revert s. induction p as [|a p IH]; intros s; simpl.
  - split; [intros _; exists s; reflexivity | reflexivity].
  - destruct s as [|c s].
    + split; [discriminate | intros [b Hb]; discriminate].
    + destruct (Ascii.eqb a c) eqn:E.
      * apply Ascii.eqb_eq in E. subst c. rewrite IH. split.
        -- intros [b ->]. exists b. reflexivity.
        -- intros [b Hb]. injection Hb as ->. exists b. reflexivity.
      * apply Ascii.eqb_neq in E. split; [discriminate |].
        intros [b Hb]. injection Hb as -> _. contradiction.
Qed.

(** [sub in s] holds exactly when [s] is some text, then [sub], then some
    text. *)
Lemma contains_spec (sub s : string) :
  Py.contains sub s = true <-> exists a b, s = a ++ sub ++ b.
Proof.
  induction s as [|c s IH].
  - simpl. rewrite orb_false_r, startswith_spec. split.
    + intros [b Hb]. exists "", b. exact Hb.
    + intros [a [b Hab]]. destruct a; [|discriminate]. exists b. exact Hab.
  - change (Py.contains sub (String c s))
      with (Py.startswith sub (String c s) || Py.contains sub s).
    rewrite orb_true_iff, startswith_spec, IH. split.
    + intros [[b Hb] | [a [b Hab]]].
      * exists "", b. exact Hb.
      * exists (String c a), b. simpl. rewrite Hab. reflexivity.
    + intros [a [b Hab]]. destruct a as [|c' a].
      * left. exists b. exact Hab.
      * right. injection Hab as -> ->. exists a, b. reflexivity.
Qed.

Lemma contains_false (sub s : string) :
  (~ exists a b, s = a ++ sub ++ b) -> Py.contains sub s = false.
Proof.
  intros H. destruct (Py.contains sub s) eqn:E; [|reflexivity].
  apply contains_spec in E. contradiction.
Qed.

Lemma length_append (a b : string) :
  String.length (a ++ b) = (String.length a + String.length b)%nat.
Proof. induction a as [|c a IH]; simpl; [reflexivity | rewrite IH; reflexivity]. Qed.

(** The staging path is never the final path. *)
Lemma staging_differs (p : string) : p ++ ".tmp" <> p.
Proof.
  intros H. apply (f_equal String.length) in H.
  rewrite length_append in H. simpl in H. lia.
Qed.

Lemma append_cons (c : ascii) (s t : string) :
  String c s ++ t = String c (s ++ t).
Proof. reflexivity. Qed.

Lemma append_nil_r (s : string) : s ++ "" = s.
Proof.
  induction s as [|c s IH]; [reflexivity |].
  rewrite append_cons, IH. reflexivity.
Qed.

Lemma append_assoc (a b c : string) : (a ++ b) ++ c = a ++ b ++ c.
Proof.
  induction a as [|x a IH]; [reflexivity |].
  rewrite !append_cons, IH. reflexivity.
Qed.

Lemma rev_string_app (acc s : string) :
  Py.rev_string acc s = Py.rev_string "" s ++ acc.
Proof.
  revert acc. induction s as [|c s IH]; intros acc; simpl; [reflexivity |].
  rewrite (IH (String c acc)), (IH (String c "")), append_assoc. reflexivity.
Qed.

Lemma rev_string_involutive (s : string) :
  Py.rev_string "" (Py.rev_string "" s) = s.
Proof.
  assert (H : forall acc, Py.rev_string "" (Py.rev_string acc s)
                          = Py.rev_string "" acc ++ s).
  { induction s as [|c s IH]; intros acc; simpl.
    - rewrite append_nil_r. reflexivity.
    - rewrite IH. simpl. rewrite (rev_string_app (String c "")), append_assoc.
      reflexivity. }
  apply (H "").
Qed.

Lemma split_go_skip (sep s1 cur rest : string) :
  Py.split_go sep (String.length s1) cur (s1 ++ rest)
  = Py.split_go sep O cur rest.
Proof.
  induction s1 as [|c s1 IH]; simpl; [destruct rest; reflexivity | exact IH].
Qed.

Lemma split_go_pass (sep prefix tail cur : string) :
  starts_later sep prefix tail = true ->
  Py.split_go sep O cur (prefix ++ tail)
  = Py.split_go sep O (Py.rev_string cur prefix) tail.
Proof.
  revert cur. induction prefix as [|c p IH]; intros cur H; [reflexivity |].
  cbn [starts_later] in H. apply andb_true_iff in H as [H1 H2].
  apply negb_true_iff in H1.
  change (String c p ++ tail) with (String c (p ++ tail)) in *.
  cbn [Py.split_go]. rewrite H1. apply (IH _ H2).
Qed.

Lemma startswith_self (sep rest : string) : Py.startswith sep (sep ++ rest) = true.
Proof. apply startswith_spec. eauto. Qed.

Lemma split_go_cut (a : ascii) (sep' cur rest : string) :
  Py.split_go (String a sep') O cur (String a sep' ++ rest)
  = Py.rev_string "" cur :: Py.split_go (String a sep') O "" rest.
Proof.
  change (String a sep' ++ rest) with (String a (sep' ++ rest)).
  cbn [Py.split_go].
  change (String a (sep' ++ rest)) with (String a sep' ++ rest).
  rewrite startswith_self. cbn [String.length Nat.pred].
  rewrite split_go_skip. reflexivity.
Qed.

Lemma split_go_head (sep cur s : string) :
  hd "" (Py.split_go sep O cur s)
  = Py.rev_string "" cur ++ hd "" (Py.split_go sep O "" s).
Proof.
  revert cur. induction s as [|c s IH]; intros cur.
  - simpl. rewrite append_nil_r. reflexivity.
  - cbn [Py.split_go]. destruct (Py.startswith sep (String c s)).
    + simpl. rewrite append_nil_r. reflexivity.
    + rewrite (IH (String c cur)), (IH (String c "")).
      simpl. rewrite (rev_string_app (String c "")), append_assoc. reflexivity.
Qed.

Lemma free_of_starts_later (c : ascii) (s tail : string) :
  free_of c s = true -> starts_later (String c "") s tail = true.
Proof.
  unfold free_of. induction s as [|x s IH]; [reflexivity |].
  cbn [all_chars starts_later]. intros H.
  apply andb_true_iff in H as [Hx Hs]. rewrite (IH Hs), andb_true_r.
  change (String x s ++ tail) with (String x (s ++ tail)).
  cbn [Py.startswith]. rewrite Ascii.eqb_sym.
  apply negb_true_iff in Hx. rewrite Hx. reflexivity.
Qed.

Lemma all_chars_append (p : ascii -> bool) (a b : string) :
  all_chars p (a ++ b) = all_chars p a && all_chars p b.
Proof.
  induction a as [|c a IH]; [reflexivity |].
  rewrite append_cons. cbn [all_chars]. rewrite IH, andb_assoc. reflexivity.
Qed.

Lemma all_chars_rev (p : ascii -> bool) (s : string) :
  all_chars p (Py.rev_string "" s) = all_chars p s.
Proof.
  induction s as [|c s IH]; [reflexivity |].
  cbn [Py.rev_string]. rewrite rev_string_app, all_chars_append, IH.
  cbn [all_chars]. rewrite andb_true_r, andb_comm. reflexivity.
Qed.

(** ** [split] always has the pieces [extract_drive_file_id] indexes *)

Lemma split_go_nonempty (sep : string) (skip : nat) (cur s : string) :
  Py.split_go sep skip cur s <> [].
Proof.
  revert skip cur. induction s as [|c s IH]; intros skip cur; simpl.
  - discriminate.
  - destruct skip as [|k]; [| apply IH].
    destruct (Py.startswith sep (String c s)); [discriminate | apply IH].
Qed.

Lemma split_nonempty (sep s : string) : Py.split sep s <> [].
Proof. apply split_go_nonempty. Qed.

Lemma split_go_has_second (sep cur s : string) :
  sep <> "" -> Py.contains sep s = true ->
  (2 <= length (Py.split_go sep O cur s))%nat.
Proof.
  intros Hsep. revert cur. induction s as [|c s IH]; intros cur H.
  - simpl in H. rewrite orb_false_r in H.
    destruct sep; [contradiction | discriminate].
  - change (Py.contains sep (String c s))
      with (Py.startswith sep (String c s) || Py.contains sep s) in H.
    cbn [Py.split_go].
    destruct (Py.startswith sep (String c s)) eqn:E.
    + pose proof (split_go_nonempty sep (Nat.pred (String.length sep)) "" s) as Hn.
      destruct (Py.split_go sep (Nat.pred (String.length sep)) "" s);
        [contradiction | simpl; lia].
    + apply IH. exact H.
Qed.

(** Where the link contains the marker, [split(marker)[1]] exists. *)
Lemma split_has_second (sep s : string) :
  sep <> "" -> Py.contains sep s = true ->
  exists piece, nth_error (Py.split sep s) 1 = Some piece
                /\ nth 1 (Py.split sep s) "" = piece.
Proof.
  intros Hsep H. pose proof (split_go_has_second sep "" s Hsep H) as Hl.
  unfold Py.split. destruct (Py.split_go sep 0 "" s) as [|a [|b l]];
    simpl in Hl; try lia.
  exists b. split; reflexivity.
Qed.

(** ** Running the effects *)

Lemma run_emit {A} (e : event) (k : M A) (fs : gmap string File) :
  (run emit e; k) fs =
  MkRun (res (k fs)) (files (k fs)) (e :: events (k fs)).
Proof. unfold bind, emit. destruct (k fs). reflexivity. Qed.

Lemma fetch_mod_list_run (env : Env) (fs : gmap string File) :
  fetch_mod_list env fs = MkRun (Ok (fetched env)) fs (fetch_events env).
Proof.
  unfold fetched, fetch_events, fetch_mod_list, try_except, bind, requests_get.
  destruct (catalog env) as [msg | status text [mods|]]; simpl;
    try reflexivity; destruct (status =? 200); reflexivity.
Qed.

Lemma fetched_reply (env : Env) (text : string) (mods : list ModDescriptor) :
  catalog env = Reply 200 text (Some mods) -> fetched env = mods.
Proof.
  intros H. unfold fetched, fetch_mod_list, try_except, bind, requests_get.
  rewrite H. reflexivity.
Qed.

Lemma fetch_events_quiet (env : Env) (e : event) :
  In e (fetch_events env) ->
  is_mutation e = false /\ is_thread_start e = false
  /\ forall text, e <> Label text.
Proof.
  unfold fetch_events, fetch_mod_list, try_except, bind, requests_get.
  destruct (catalog env) as [msg | status text [mods|]]; simpl;
    try destruct (status =? 200); simpl; intros H;
    repeat (destruct H as [<- | H]; [repeat split; intros; discriminate |]);
    contradiction.
Qed.

Lemma install_mod_run (host : Host) (env : Env)
    (mod_name internal_name drive_link key : string) (fs : gmap string File) :
  let r := install_scan host env (fetched env) mod_name internal_name
                        drive_link key fs in
  install_mod host env mod_name internal_name drive_link key fs =
  MkRun (res r) (files r) (fetch_events env ++ events r)%list.
Proof.
  unfold install_mod, bind. rewrite fetch_mod_list_run.
  destruct (install_scan _ _ _ _ _ _ _ _). reflexivity.
Qed.

(** *** The scan of the catalog *)

Lemma install_scan_reject (host : Host) (env : Env)
    (mods : list ModDescriptor)
    (mod_name internal_name drive_link key : string) (fs : gmap string File) :
  existsb (record_matches mod_name key) mods = false ->
  install_scan host env mods mod_name internal_name drive_link key fs =
  MkRun (Ok tt) fs invalid_key_report.
Proof.
  induction mods as [|md mods IH]; simpl; intros H.
  - reflexivity.
  - apply orb_false_iff in H as [H1 H2]. rewrite H1. apply IH, H2.
Qed.

Lemma install_scan_accept (host : Host) (env : Env)
    (mods : list ModDescriptor)
    (mod_name internal_name drive_link key : string) (fs : gmap string File) :
  existsb (record_matches mod_name key) mods = true ->
  install_scan host env mods mod_name internal_name drive_link key fs =
  install_matched host env mod_name internal_name drive_link fs.
Proof.
  induction mods as [|md mods IH]; simpl; intros H.
  - discriminate.
  - destruct (record_matches mod_name key md); [reflexivity | apply IH, H].
Qed.

Lemma install_matched_events (host : Host) (env : Env)
    (mod_name internal_name drive_link : string) (fs : gmap string File) :
  exists rest,
    events (install_matched host env mod_name internal_name drive_link fs)
    = Label ("Preparing " ++ mod_name ++ "...") :: Bar 0 :: rest.
Proof.
  unfold install_matched. rewrite !run_emit. simpl. eauto.
Qed.

Lemma record_matches_spec (mod_name key : string) (md : ModDescriptor) :
  record_matches mod_name key md = true <->
  Mod_Name md = mod_name /\ Py.strip (Serial_Key md) = Py.strip key.
Proof.
  unfold record_matches. rewrite andb_true_iff, !String.eqb_eq. reflexivity.
Qed.

Lemma some_record_matches (mods : list ModDescriptor) (mod_name key : string) :
  existsb (record_matches mod_name key) mods = true <->
  exists md, In md mods /\ Mod_Name md = mod_name
             /\ Py.strip (Serial_Key md) = Py.strip key.
Proof.
  rewrite existsb_exists. split; intros [md [H1 H2]]; exists md;
    (split; [exact H1 |]); apply record_matches_spec; exact H2.
Qed.

(** Going past the serial-key check is the same as some record of the
    fetched catalog matching the name and the trimmed key. *)
Lemma passed_iff_some_record (host : Host) (env : Env)
    (mod_name internal_name drive_link key : string) (fs : gmap string File) :
  passed_validation mod_name
    (events (install_mod host env mod_name internal_name drive_link key fs))
  <-> existsb (record_matches mod_name key) (fetched env) = true.
Proof.
  rewrite install_mod_run. cbn [events]. unfold passed_validation.
  destruct (existsb (record_matches mod_name key) (fetched env)) eqn:E.
  - rewrite (install_scan_accept _ _ _ _ _ _ _ _ E).
    destruct (install_matched_events host env mod_name internal_name
                drive_link fs) as [rest ->].
    split; [reflexivity | intros _]. apply in_or_app. right. left. reflexivity.
  - rewrite (install_scan_reject _ _ _ _ _ _ _ _ E). split; [|discriminate].
    intros H. apply in_app_or in H as [H | H].
    + apply fetch_events_quiet in H as (_ & _ & H). exfalso. eapply H. eauto.
    + simpl in H. destruct H as [H | [H | []]]; discriminate.
Qed.

(** ** Serial-key validation *)

(** C1, as the code has it: a request goes past the serial-key check
    exactly when some record of the freshly fetched catalog has the
    requested display name and the same serial key after trimming
    (so, when the records of that name agree on their key, exactly when the
    supplied key matches that key); otherwise the call ends with the
    invalid-key report, the files untouched, no mutating call made and no
    thread started. *)
Theorem install_validation (host : Host) (env : Env)
    (mod_name internal_name drive_link key : string) (fs : gmap string File) :
  let r := install_mod host env mod_name internal_name drive_link key fs in
  (passed_validation mod_name (events r) <->
     exists md, In md (fetched env) /\ Mod_Name md = mod_name
                /\ Py.strip (Serial_Key md) = Py.strip key)
  /\ (forall md, In md (fetched env) -> Mod_Name md = mod_name ->
        (forall md', In md' (fetched env) -> Mod_Name md' = mod_name ->
                     Serial_Key md' = Serial_Key md) ->
        (passed_validation mod_name (events r) <->
           Py.strip key = Py.strip (Serial_Key md)))
  /\ (~ passed_validation mod_name (events r) ->
        res r = Ok tt /\ files r = fs
        /\ events r = (fetch_events env ++ invalid_key_report)%list
        /\ forallb (fun e => negb (is_mutation e) && negb (is_thread_start e))
                   (events r) = true).
Proof.
  intros r.
  assert (Hpass : passed_validation mod_name (events r) <->
                  exists md, In md (fetched env) /\ Mod_Name md = mod_name
                             /\ Py.strip (Serial_Key md) = Py.strip key).
  { subst r. rewrite passed_iff_some_record. apply some_record_matches. }
  split; [exact Hpass |]. split.
  - intros md Hin Hname Hsame. rewrite Hpass. split.
    + intros (md' & Hin' & Hname' & Hkey').
      rewrite <- (Hsame md' Hin' Hname'). symmetry. exact Hkey'.
    + intros Hkey. exists md. repeat split; auto.
  - intros Hno. subst r.
    rewrite passed_iff_some_record in Hno.
    apply not_true_is_false in Hno.
    rewrite install_mod_run. rewrite (install_scan_reject _ _ _ _ _ _ _ _ Hno).
    cbn [res files events]. repeat split.
    rewrite forallb_app. apply andb_true_iff. split; [|reflexivity].
    apply forallb_forall. intros e He.
    apply fetch_events_quiet in He as (-> & -> & _). reflexivity.
Qed.

(** C1 as stated fails where two records share a display name: with the
    second record's key the request is accepted although the key differs
    from the first record's. *)
Lemma install_validation_twin_records :
  ~ (forall md,
       In md (fetched (calm twin_catalog (Fetched 600000))) ->
       Mod_Name md = "premium truck" ->
       (passed_validation "premium truck"
          (events (install_mod mac (calm twin_catalog (Fetched 600000))
                     "premium truck" "premium_truck"
                     (Google_Drive_Link premium_truck) "ABCD1234XYZ999" ∅))
        <-> Py.strip "ABCD1234XYZ999" = Py.strip (Serial_Key md))).
Proof.
  intros H.
  assert (Hin : In premium_truck_old
                   (fetched (calm twin_catalog (Fetched 600000))))
    by (left; reflexivity).
  destruct (H premium_truck_old Hin eq_refl) as [Hk _].
  assert (Hp : passed_validation "premium truck"
                 (events (install_mod mac (calm twin_catalog (Fetched 600000))
                            "premium truck" "premium_truck"
                            (Google_Drive_Link premium_truck)
                            "ABCD1234XYZ999" ∅))).
  { apply passed_iff_some_record. reflexivity. }
  specialize (Hk Hp). vm_compute in Hk. discriminate.
Qed.

(** C5, as the code has it: against the record "premium truck" with key
    "ABCD1234XYZ999", a request goes past the serial-key check exactly when
    the supplied key, trimmed, is "ABCD1234XYZ999" itself; the comparison
    trims white space and is sensitive to case. *)
Theorem scenario_A_key_check (host : Host) (t : transfer_outcome)
    (internal_name drive_link key : string) (fs : gmap string File) :
  passed_validation "premium truck"
    (events (install_mod host (calm [premium_truck] t) "premium truck"
               internal_name drive_link key fs))
  <-> Py.strip key = "ABCD1234XYZ999".
Proof.
  rewrite passed_iff_some_record.
  change (fetched (calm [premium_truck] t)) with [premium_truck].
  cbn [existsb]. rewrite orb_false_r, record_matches_spec.
  change (Py.strip (Serial_Key premium_truck)) with "ABCD1234XYZ999".
  split; [intros [_ H]; symmetry; exact H | intros H; split; [reflexivity | symmetry; exact H]].
Qed.

(** C5 as stated fails: the lower-case key is rejected with the invalid-key
    report. *)
Lemma scenario_A_lower_case_key_rejected :
  ~ passed_validation "premium truck"
      (events (install_mod mac (calm [premium_truck] (Fetched 600000))
                 "premium truck" "premium_truck"
                 (Google_Drive_Link premium_truck) "abcd1234xyz999" ∅))
  /\ events (install_mod mac (calm [premium_truck] (Fetched 600000))
               "premium truck" "premium_truck"
               (Google_Drive_Link premium_truck) "abcd1234xyz999" ∅)
     = [HttpGet "http://lynx96.pythonanywhere.com/get_available_mods";
        ShowError "Error" "Invalid serial key!"; Label "Invalid Key"].
Proof.
  split; [|reflexivity].
  rewrite passed_iff_some_record. vm_compute. discriminate.
Qed.

(** ** The resource reference *)

Lemma extract_none (drive_link : string) :
  ~ has_shape "/file/d/" drive_link -> ~ has_shape "id=" drive_link ->
  extract_drive_file_id drive_link = None.
Proof.
  intros H1 H2. unfold extract_drive_file_id.
  rewrite (contains_false _ _ H1), (contains_false _ _ H2). reflexivity.
Qed.

Lemma extract_some (drive_link : string) :
  has_shape "/file/d/" drive_link \/ has_shape "id=" drive_link ->
  exists file_id, extract_drive_file_id drive_link = Some file_id.
Proof.
  unfold extract_drive_file_id. intros [H | H]; apply contains_spec in H.
  - rewrite H. eauto.
  - rewrite H. destruct (Py.contains "/file/d/" drive_link); eauto.
Qed.

Lemma no_shape (marker link : string) :
  Py.contains marker link = false -> ~ has_shape marker link.
Proof.
  intros H Hs. apply contains_spec in Hs. congruence.
Qed.

(** C6, as the code has it: for a resource reference with neither "/file/d/"
    nor "id=" in it, the call returns without touching a file, making a
    mutating call or starting a thread; once the serial-key check has
    passed it reports the invalid link, and when the check fails it reports
    the invalid key instead. *)
Theorem invalid_link_reported (host : Host) (env : Env)
    (mod_name internal_name drive_link key : string) (fs : gmap string File) :
  ~ has_shape "/file/d/" drive_link ->
  ~ has_shape "id=" drive_link ->
  let r := install_mod host env mod_name internal_name drive_link key fs in
  res r = Ok tt /\ files r = fs
  /\ forallb (fun e => negb (is_mutation e) && negb (is_thread_start e))
             (events r) = true
  /\ (passed_validation mod_name (events r) ->
      events r = (fetch_events env
                  ++ [Label ("Preparing " ++ mod_name ++ "..."); Bar 0;
                      ShowError "Error" "Invalid Google Drive link!"])%list)
  /\ (~ passed_validation mod_name (events r) ->
      events r = (fetch_events env ++ invalid_key_report)%list).
Proof.
  intros H1 H2 r.
  assert (Hq : forallb (fun e => negb (is_mutation e) && negb (is_thread_start e))
                       (fetch_events env) = true).
  { apply forallb_forall. intros e He.
    apply fetch_events_quiet in He as (-> & -> & _). reflexivity. }
  pose proof (passed_iff_some_record host env mod_name internal_name
                drive_link key fs) as Hp.
  fold r in Hp. subst r. rewrite install_mod_run in *.
  destruct (existsb (record_matches mod_name key) (fetched env)) eqn:E.
  - rewrite (install_scan_accept _ _ _ _ _ _ _ _ E) in *.
    unfold install_matched in *. rewrite (extract_none _ H1 H2) in *.
    cbn [usable res files events] in *. rewrite !run_emit in *.
    cbn [res files events emit] in *.
    repeat split.
    + rewrite forallb_app, Hq. reflexivity.
    + intros Hno. exfalso. apply Hno. apply Hp. reflexivity.
  - rewrite (install_scan_reject _ _ _ _ _ _ _ _ E) in *.
    cbn [res files events] in *. repeat split.
    + rewrite forallb_app, Hq. reflexivity.
    + intros Hyes. apply Hp in Hyes. discriminate.
Qed.

Lemma invalid_link_reported_witness :
  events (install_mod mac (calm [premium_truck] (Fetched 600000))
            "premium truck" "premium_truck" "not a link" "ABCD1234XYZ999" ∅)
  = [HttpGet "http://lynx96.pythonanywhere.com/get_available_mods";
     Label "Preparing premium truck..."; Bar 0;
     ShowError "Error" "Invalid Google Drive link!"].
Proof.
  apply (invalid_link_reported mac (calm [premium_truck] (Fetched 600000))
           "premium truck" "premium_truck" "not a link" "ABCD1234XYZ999" ∅).
  - apply no_shape. reflexivity.
  - apply no_shape. reflexivity.
  - apply passed_iff_some_record. reflexivity.
Defined.

(** C6 as stated fails when the key is wrong as well: the invalid-key
    report is made and the link is never looked at. *)
Lemma invalid_link_behind_invalid_key :
  ~ has_shape "/file/d/" "not a link" /\ ~ has_shape "id=" "not a link"
  /\ ~ In (ShowError "Error" "Invalid Google Drive link!")
          (events (install_mod mac (calm [premium_truck] (Fetched 600000))
                     "premium truck" "premium_truck" "not a link"
                     "WRONGKEY" ∅)).
Proof.
  split; [apply no_shape; reflexivity |].
  split; [apply no_shape; reflexivity |].
  vm_compute. intros [H | [H | [H | []]]]; discriminate.
Qed.

(** ** Attribute changes *)

Lemma alter_twice (g : File -> File) (p : string) (fs : gmap string File) :
  (forall x, g (g x) = g x) -> alter g p (alter g p fs) = alter g p fs.
Proof.
  intros Hg. apply map_eq. intros i. destruct (decide (p = i)) as [<- | Hne].
  - rewrite !lookup_alter_eq. destruct (fs !! p); simpl; [rewrite Hg |]; reflexivity.
  - rewrite !lookup_alter_ne by exact Hne. reflexivity.
Qed.

Lemma alter_insert_same (g : File -> File) (p : string) (f : File)
    (fs : gmap string File) :
  alter g p (<[p := f]> fs) = <[p := g f]> fs.
Proof.
  apply map_eq. intros i. destruct (decide (p = i)) as [<- | Hne].
  - rewrite lookup_alter_eq, !lookup_insert_eq. reflexivity.
  - rewrite lookup_alter_ne, !lookup_insert_ne by exact Hne. reflexivity.
Qed.

Lemma insert_alter_same (g : File -> File) (p : string) (f : File)
    (fs : gmap string File) :
  <[p := f]> (alter g p fs) = <[p := f]> fs.
Proof.
  apply map_eq. intros i. destruct (decide (p = i)) as [<- | Hne].
  - rewrite !lookup_insert_eq. reflexivity.
  - rewrite !lookup_insert_ne, lookup_alter_ne by exact Hne. reflexivity.
Qed.

Lemma os_system_twice (env : Env) (cmd p : string) (g : File -> File)
    (fs : gmap string File) :
  (forall x, g (g x) = g x) ->
  let op := os_system env cmd p g in
  res ((run op; op) fs) = res (op fs) /\ files ((run op; op) fs) = files (op fs).
Proof.
  intros Hg. unfold bind, os_system. cbn [res files events].
  destruct (refused env (Shell cmd)); split; try reflexivity.
  apply alter_twice, Hg.
Qed.

Lemma os_chmod_twice (env : Env) (p : string) (m : Z) (fs : gmap string File) :
  let op := os_chmod env p m in
  res ((run op; op) fs) = res (op fs) /\ files ((run op; op) fs) = files (op fs).
Proof.
  unfold bind, os_chmod. cbn [res files events].
  destruct (fs !! p) as [f|] eqn:E; cbn [res files events]; [|split; reflexivity].
  destruct (refused env (Chmod p m)) eqn:R; cbn [res files events]; [split; reflexivity|].
  rewrite lookup_insert_eq. cbn [res files events]. split; [reflexivity|].
  rewrite insert_insert_eq. reflexivity.
Qed.

Lemma shell_chmod_twice (env : Env) (cmd p : string) (g : File -> File)
    (m : Z) (fs : gmap string File) :
  (forall x, g (g x) = g x) ->
  (forall x, g (set_mode m x) = set_mode m (g x)) ->
  let op := (run os_system env cmd p g; os_chmod env p m) in
  res ((run op; op) fs) = res (op fs) /\ files ((run op; op) fs) = files (op fs).
Proof.
  intros Hg Hgm. unfold bind, os_system, os_chmod. cbn [res files events].
  destruct (refused env (Shell cmd)) eqn:Rs.
  - destruct (fs !! p) as [f|] eqn:E; cbn [res files events]; [|split; reflexivity].
    destruct (refused env (Chmod p m)) eqn:R; cbn [res files events]; [split; reflexivity|].
    rewrite lookup_insert_eq. cbn [res files events]. split; [reflexivity|].
    rewrite insert_insert_eq. reflexivity.
  - rewrite lookup_alter_eq.
    destruct (fs !! p) as [f|] eqn:E; cbn [res files events fmap option_fmap option_map]; [|split; reflexivity].
    destruct (refused env (Chmod p m)) eqn:R; cbn [res files events]; [split; reflexivity|].
    rewrite alter_insert_same, lookup_insert_eq. cbn [res files events]. split; [reflexivity|].
    rewrite insert_insert_eq.
    rewrite Hgm, Hg. destruct f; reflexivity.
Qed.

(** C8, as the code has it: protect and unprotect are idempotent (doing
    them twice gives the result and the files of doing them once); on
    Windows they never raise, whatever the attribute command does; on macOS
    and elsewhere a failing [chflags] is ignored, but they raise, to their
    caller, exactly when [os.chmod] fails (no such file, or the change is
    refused). *)
Theorem attribute_changes (host : Host) (env : Env) (p : string)
    (fs : gmap string File) :
  let protect := set_file_attributes host env p in
  let unprotect := remove_file_attributes host env p in
  (res ((run protect; protect) fs) = res (protect fs)
   /\ files ((run protect; protect) fs) = files (protect fs))
  /\ (res ((run unprotect; unprotect) fs) = res (unprotect fs)
      /\ files ((run unprotect; unprotect) fs) = files (unprotect fs))
  /\ (system host = Windows ->
      res (protect fs) = Ok tt /\ res (unprotect fs) = Ok tt)
  /\ (system host <> Windows ->
      (res (protect fs) = Ok tt <->
         is_Some (fs !! p) /\ refused env (Chmod p 292) = false)
      /\ (res (unprotect fs) = Ok tt <->
            is_Some (fs !! p) /\ refused env (Chmod p 438) = false)).
Proof.
  intros protect unprotect. subst protect unprotect.
  unfold set_file_attributes, remove_file_attributes.
  destruct (system host) eqn:Hs.
  - split; [apply os_system_twice; intros []; reflexivity |].
    split; [apply os_system_twice; intros []; reflexivity |].
    split; [intros _; split; reflexivity | intros H; contradiction].
  - split; [apply shell_chmod_twice; intros []; reflexivity |].
    split; [apply shell_chmod_twice; intros []; reflexivity |].
    split; [discriminate | intros _].
    unfold bind, os_system, os_chmod. cbn [res files events].
    split.
    + destruct (refused env (Shell ("chflags hidden " ++ quoted p)));
        rewrite ?lookup_alter_eq; destruct (fs !! p) as [f|];
        cbn [res fmap option_fmap option_map];
        destruct (refused env (Chmod p 292)); cbn [res];
        split; try (intros [[? ?] ?]); try discriminate; eauto.
    + destruct (refused env (Shell ("chflags nohidden " ++ quoted p)));
        rewrite ?lookup_alter_eq; destruct (fs !! p) as [f|];
        cbn [res fmap option_fmap option_map];
        destruct (refused env (Chmod p 438)); cbn [res];
        split; try (intros [[? ?] ?]); try discriminate; eauto.
  - split; [apply os_chmod_twice |].
    split; [apply os_chmod_twice |].
    split; [discriminate | intros _].
    unfold os_chmod. split.
    + destruct (fs !! p) as [f|]; cbn [res];
        destruct (refused env (Chmod p 292)); cbn [res];
        split; try (intros [[? ?] ?]); try discriminate; eauto.
    + destruct (fs !! p) as [f|]; cbn [res];
        destruct (refused env (Chmod p 438)); cbn [res];
        split; try (intros [[? ?] ?]); try discriminate; eauto.
Qed.

(** C8 as stated fails on macOS: when the operating system refuses the
    change of permission bits, protect and unprotect raise, and the
    uninstall that called unprotect ends with that exception, the file
    still in place. *)
Lemma attribute_failure_propagates :
  res (set_file_attributes mac chmod_refused premium_truck_path truck_installed)
  = Raise (PermissionError premium_truck_path)
  /\ res (remove_file_attributes mac chmod_refused premium_truck_path
            truck_installed)
     = Raise (PermissionError premium_truck_path)
  /\ res (uninstall_mod mac chmod_refused "premium_truck" truck_installed)
     = Raise (PermissionError premium_truck_path)
  /\ is_Some (files (uninstall_mod mac chmod_refused "premium_truck"
                       truck_installed) !! premium_truck_path).
Proof.
  repeat split; try reflexivity. vm_compute. eauto.
Qed.

(** ** Uninstall *)

Ltac split_cases env p :=
  repeat match goal with
         | |- context [refused env ?m] => destruct (refused env m) eqn:?
         | |- context [?m !! p] => destruct (m !! p) eqn:?
         end.

Lemma unprotect_events (host : Host) (env : Env) (p : string)
    (fs : gmap string File) :
  events (remove_file_attributes host env p fs) <> []
  /\ forall e, In e (events (remove_file_attributes host env p fs)) ->
               (exists cmd, e = Mutate (Shell cmd))
               \/ (exists m, e = Mutate (Chmod p m)).
Proof.
  unfold remove_file_attributes, bind, os_system, os_chmod.
  destruct (system host); cbn [res files events]; split_cases env p;
    cbn [res files events app];
    (split; [discriminate | intros e H; simpl in H];
     repeat (destruct H as [<- | H]; [eauto |]); contradiction).
Qed.


Lemma uninstall_mod_run (host : Host) (env : Env)
    (internal_name dir : string) (fs : gmap string File) :
  MOD_INSTALL_PATH host = Some dir ->
  let mod_path := path_join host dir (internal_name ++ ".scs") in
  uninstall_mod host env internal_name fs =
  match fs !! mod_path with
  | None => MkRun (Ok tt) fs [ShowError "Error" "Mod not found."]
  | Some _ =>
      let u := remove_file_attributes host env mod_path fs in
      match res u with
      | Raise e => MkRun (Raise e) (files u) (events u)
      | Ok _ =>
          let d := os_remove host env mod_path (files u) in
          match res d with
          | Raise e => MkRun (Raise e) (files d) (events u ++ events d)%list
          | Ok _ =>
              MkRun (Ok tt) (files d)
                    (events u ++ events d
                     ++ [Label (internal_name ++ " uninstalled");
                         ShowInfo "Success" (internal_name ++ " uninstalled!");
                         Refresh])%list
          end
      end
  end.
Proof.
  intros Hdir mod_path.
  unfold uninstall_mod, join_install_path. rewrite Hdir. fold mod_path.
  cbv [bind os_path_exists ret emit load_mod_list res files events].
  destruct (fs !! mod_path) as [f|]; [|reflexivity].
  destruct (remove_file_attributes host env mod_path fs) as [[[]|e] fs1 ev1];
    [|rewrite ?app_nil_r; reflexivity].
  destruct (os_remove host env mod_path fs1) as [[[]|e] fs2 ev2].
  - cbn [app]. rewrite ?app_nil_r, <- ?app_assoc. reflexivity.
  - rewrite ?app_nil_r. reflexivity.
Qed.

Lemma delete_alter_same (g : File -> File) (p : string) (fs : gmap string File) :
  delete p (alter g p fs) = delete p fs.
Proof.
  apply map_eq. intros i. destruct (decide (p = i)) as [<- | Hne].
  - rewrite !lookup_delete_eq. reflexivity.
  - rewrite !lookup_delete_ne, lookup_alter_ne by exact Hne. reflexivity.
Qed.

Lemma unprotect_quiet (host : Host) (env : Env) (p : string) (f : File)
    (fs : gmap string File) :
  (forall m, refused env m = false) -> fs !! p = Some f ->
  exists f',
    res (remove_file_attributes host env p fs) = Ok tt
    /\ files (remove_file_attributes host env p fs) !! p = Some f'
    /\ delete p (files (remove_file_attributes host env p fs)) = delete p fs
    /\ (is_windows host = true -> readonly f' = false).
Proof.
  intros Hq Hf. unfold remove_file_attributes, is_windows.
  destruct (system host); cbv [bind os_system os_chmod res files events];
    rewrite ?Hq, ?lookup_alter_eq, ?Hf; cbn [fmap option_fmap option_map];
    rewrite ?Hq; cbn [res files].
  - eexists. rewrite delete_alter_same. repeat split; reflexivity.
  - rewrite lookup_insert_eq, delete_insert_eq, delete_alter_same.
    eexists. repeat split; try reflexivity. discriminate.
  - rewrite lookup_insert_eq, delete_insert_eq.
    eexists. repeat split; try reflexivity. discriminate.
Qed.

(** C7: with no file at the canonical path, [uninstall_mod] returns
    normally with the single report "Mod not found.", the files as they
    were and no other call made; with a file there, the unprotect calls
    come first and the deletion, if it is reached, after them, and when the
    operating system refuses nothing the file is gone and the report is the
    "uninstalled" one. *)
Theorem uninstall_absent_or_unprotect_first (host : Host) (env : Env)
    (internal_name dir : string) (fs : gmap string File) :
  MOD_INSTALL_PATH host = Some dir ->
  let mod_path := path_join host dir (internal_name ++ ".scs") in
  let r := uninstall_mod host env internal_name fs in
  (fs !! mod_path = None ->
     r = MkRun (Ok tt) fs [ShowError "Error" "Mod not found."])
  /\ (is_Some (fs !! mod_path) ->
      exists rest,
        events r = (events (remove_file_attributes host env mod_path fs)
                    ++ rest)%list
        /\ events (remove_file_attributes host env mod_path fs) <> []
        /\ (forall q, ~ In (Mutate (Remove q))
                         (events (remove_file_attributes host env mod_path fs)))
        /\ (res (remove_file_attributes host env mod_path fs) = Ok tt ->
            exists rest', rest = Mutate (Remove mod_path) :: rest'))
  /\ (is_Some (fs !! mod_path) -> (forall m, refused env m = false) ->
      res r = Ok tt /\ files r = delete mod_path fs
      /\ In (ShowInfo "Success" (internal_name ++ " uninstalled!")) (events r)
      /\ ~ In (ShowError "Error" "Mod not found.") (events r)).
Proof.
  intros Hdir mod_path r. subst r.
  rewrite (uninstall_mod_run host env internal_name dir fs Hdir).
  fold mod_path. cbv zeta.
  split; [| split].
  - intros Hnone. rewrite Hnone. reflexivity.
  - intros [f Hf]. rewrite Hf.
    destruct (unprotect_events host env mod_path fs) as [Hne Hkind].
    assert (Hnorem : forall q, ~ In (Mutate (Remove q))
              (events (remove_file_attributes host env mod_path fs))).
    { intros q H. destruct (Hkind _ H) as [[c E] | [m E]]; discriminate. }
    destruct (res (remove_file_attributes host env mod_path fs)) as [[]|e];
      cbn [events].
    + assert (Hd : exists tl, events (os_remove host env mod_path
                     (files (remove_file_attributes host env mod_path fs)))
                   = Mutate (Remove mod_path) :: tl).
      { unfold os_remove.
        destruct (files (remove_file_attributes host env mod_path fs) !! mod_path)
          as [f1|];
          [destruct (refused env (Remove mod_path)
                     || (is_windows host && readonly f1)) |];
          eexists; reflexivity. }
      destruct Hd as [tl Hd].
      destruct (res (os_remove host env mod_path _)); cbn [events];
        rewrite Hd; eexists; (split; [reflexivity |]);
        repeat split; auto; intros _; eexists; reflexivity.
    + exists []. rewrite app_nil_r. repeat split; auto. discriminate.
  - intros [f Hf] Hq. rewrite Hf.
    destruct (unprotect_quiet host env mod_path f fs Hq Hf)
      as (f' & Hres & Hlook & Hdel & Hro).
    rewrite Hres. unfold os_remove. rewrite Hlook, Hq.
    assert (Hw : is_windows host && readonly f' = false).
    { destruct (is_windows host); [rewrite Hro |]; reflexivity. }
    rewrite Hw. cbn [orb res files events].
    split; [reflexivity |]. split; [exact Hdel |]. split.
    + apply in_or_app. right. simpl. auto.
    + intros H. apply in_app_or in H as [H | H].
      * destruct (unprotect_events host env mod_path fs) as [_ Hkind].
        destruct (Hkind _ H) as [[c E] | [m E]]; discriminate.
      * simpl in H. intuition discriminate.
Qed.

Lemma uninstall_absent_witness :
  uninstall_mod mac (calm [] NoOutput) "premium_truck" ∅
  = MkRun (Ok tt) ∅ [ShowError "Error" "Mod not found."].
Proof.
  apply (uninstall_absent_or_unprotect_first mac (calm [] NoOutput)
           "premium_truck" (mod_dir mac) ∅); reflexivity.
Defined.

(** ** What the accepted request does *)

Lemma install_matched_run (host : Host) (env : Env)
    (mod_name internal_name drive_link : string) (fs : gmap string File) :
  install_matched host env mod_name internal_name drive_link fs =
  match usable (extract_drive_file_id drive_link) with
  | None =>
      MkRun (Ok tt) fs
        [Label ("Preparing " ++ mod_name ++ "..."); Bar 0;
         ShowError "Error" "Invalid Google Drive link!"]
  | Some file_id =>
      match join_install_path host (internal_name ++ ".scs") fs with
      | MkRun (Raise e) _ _ =>
          MkRun (Raise e) fs [Label ("Preparing " ++ mod_name ++ "..."); Bar 0]
      | MkRun (Ok mod_path) _ _ =>
          let clear :=
            if fs !! mod_path is Some _
            then (run remove_file_attributes host env mod_path;
                  os_remove host env mod_path) fs
            else MkRun (Ok tt) fs [] in
          match res clear with
          | Raise e =>
              MkRun (Raise e) (files clear)
                ([Label ("Preparing " ++ mod_name ++ "..."); Bar 0]
                 ++ events clear)%list
          | Ok _ =>
              MkRun (Ok tt) (files clear)
                ([Label ("Preparing " ++ mod_name ++ "..."); Bar 0]
                 ++ events clear
                 ++ [ThreadStart
                       (Download ("https://drive.google.com/uc?id=" ++ file_id)
                                 mod_path internal_name);
                     ThreadStart (UpdateKey internal_name)])%list
          end
      end
  end.
Proof.
  unfold install_matched. rewrite !run_emit.
  destruct (usable (extract_drive_file_id drive_link)) as [file_id|];
    [| reflexivity].
  unfold join_install_path.
  destruct (MOD_INSTALL_PATH host) as [dir|]; [| reflexivity].
  cbv [bind ret os_path_exists download_with_gdown emit res files events].
  destruct (fs !! path_join host dir (internal_name ++ ".scs")) as [f|].
  - destruct (remove_file_attributes host env _ fs) as [[[]|e] fs1 ev1];
      [| rewrite ?app_nil_r; reflexivity].
    destruct (os_remove host env _ fs1) as [[[]|e] fs2 ev2];
      cbn [app]; rewrite ?app_nil_r, <- ?app_assoc; reflexivity.
  - reflexivity.
Qed.

Lemma os_remove_events (host : Host) (env : Env) (p : string)
    (fs : gmap string File) :
  events (os_remove host env p fs) = [Mutate (Remove p)].
Proof.
  unfold os_remove. destruct (fs !! p) as [f|]; [| reflexivity].
  destruct (refused env (Remove p) || (is_windows host && readonly f));
    reflexivity.
Qed.

Lemma clear_events_mutations (host : Host) (env : Env) (p : string)
    (fs : gmap string File) (e : event) :
  In e (events ((run remove_file_attributes host env p;
                 os_remove host env p) fs)) ->
  is_mutation e = true.
Proof.
  unfold bind.
  destruct (unprotect_events host env p fs) as [_ Hkind].
  destruct (remove_file_attributes host env p fs) as [[[]|x] fs1 ev1];
    cbn [events] in *.
  - pose proof (os_remove_events host env p fs1) as Hr.
    destruct (os_remove host env p fs1) as [r fs2 ev2]. cbn [events] in *.
    subst ev2. intros H. apply in_app_or in H as [H | [<- | []]]; [| reflexivity].
    destruct (Hkind _ H) as [[c ->] | [m ->]]; reflexivity.
  - intros H. destruct (Hkind _ H) as [[c ->] | [m ->]]; reflexivity.
Qed.

(** The download thread's URL and destination come from the arguments of
    the call: the file id found in [drive_link] and the install folder
    joined with [internal_name]. *)
Lemma download_thread_arguments (host : Host) (env : Env)
    (mod_name internal_name drive_link key : string) (fs : gmap string File)
    (url destination name : string) :
  In (ThreadStart (Download url destination name))
     (events (install_mod host env mod_name internal_name drive_link key fs)) ->
  exists file_id dir,
    usable (extract_drive_file_id drive_link) = Some file_id
    /\ MOD_INSTALL_PATH host = Some dir
    /\ url = "https://drive.google.com/uc?id=" ++ file_id
    /\ destination = path_join host dir (internal_name ++ ".scs")
    /\ name = internal_name.
Proof.
  rewrite install_mod_run. cbn [events]. intros H.
  apply in_app_or in H as [H | H].
  { apply fetch_events_quiet in H as (_ & H & _). discriminate. }
  destruct (existsb (record_matches mod_name key) (fetched env)) eqn:E.
  2: { rewrite (install_scan_reject _ _ _ _ _ _ _ _ E) in H.
       simpl in H. intuition discriminate. }
  rewrite (install_scan_accept _ _ _ _ _ _ _ _ E), install_matched_run in H.
  destruct (usable (extract_drive_file_id drive_link)) as [file_id|];
    [| simpl in H; intuition discriminate].
  unfold join_install_path in H.
  destruct (MOD_INSTALL_PATH host) as [dir|];
    [| simpl in H; intuition discriminate].
  cbv [ret] in H. cbv zeta in H.
  set (p := path_join host dir (internal_name ++ ".scs")) in *.
  set (clear := if fs !! p is Some _
                then (run remove_file_attributes host env p;
                      os_remove host env p) fs
                else MkRun (Ok tt) fs []) in *.
  assert (Hclear : forall x, In x (events clear) -> is_mutation x = true).
  { subst clear. intros x Hx. destruct (fs !! p); [| destruct Hx].
    eapply clear_events_mutations, Hx. }
  exists file_id, dir.
  destruct (res clear); cbn [events] in H;
    destruct H as [H | [H | H]]; try discriminate.
  - cbn [app] in H.
    apply in_app_or in H as [H | H]; [apply Hclear in H; discriminate |].
    destruct H as [H | [H | []]]; [| discriminate].
    injection H as <- <- <-. repeat split; reflexivity.
  - apply Hclear in H. discriminate.
Qed.

(** ** The catalog record's link and internal name are not read *)

Lemma install_matched_with_catalog (host : Host) (env : Env)
    (c : http (list ModDescriptor)) (mod_name internal_name drive_link : string) :
  install_matched host (with_catalog c env) mod_name internal_name drive_link
  = install_matched host env mod_name internal_name drive_link.
Proof. reflexivity. Qed.

Lemma install_scan_key_view (host : Host) (env : Env)
    (c : http (list ModDescriptor)) (mods1 mods2 : list ModDescriptor)
    (mod_name internal_name drive_link key : string) :
  map key_view mods1 = map key_view mods2 ->
  install_scan host (with_catalog c env) mods1 mod_name internal_name drive_link key
  = install_scan host env mods2 mod_name internal_name drive_link key.
Proof.
  revert mods2. induction mods1 as [|m1 mods1 IH]; intros [|m2 mods2] H;
    try discriminate; [reflexivity |].
  simpl in H. injection H as Hname Hkey Hrest. unfold key_view in *.
  simpl. unfold record_matches. rewrite Hname, Hkey.
  rewrite install_matched_with_catalog, (IH _ Hrest). reflexivity.
Qed.

Lemma run_task_with_catalog (host : Host) (env : Env)
    (c : http (list ModDescriptor)) (tk : task) :
  run_task host (with_catalog c env) tk = run_task host env tk.
Proof. destruct tk; reflexivity. Qed.

Lemma interleavings_with_catalog (host : Host) (env : Env)
    (c : http (list ModDescriptor)) (fs : gmap string File)
    (caller t : list event) :
  interleavings host (with_catalog c env) fs caller t
  <-> interleavings host env fs caller t.
Proof.
  revert t. induction caller as [|e caller IH]; intros t; [reflexivity |].
  destruct e; simpl;
    try (split; intros (t' & H & ->); exists t'; (split; [apply IH, H | reflexivity])).
  rewrite run_task_with_catalog.
  split; intros (r & t' & H & Hm & ->); exists r, t';
    (split; [apply IH, H | split; [exact Hm | reflexivity]]).
Qed.

(** C10: two catalogs whose records agree, position by position, on display
    name and serial key (and may differ in every link and internal name)
    give the same call of [install_mod] the same result, the same files,
    the same events (the download thread's URL and destination among them),
    the same possible traces and the same final files; and the URL and the
    destination handed to the download thread are the file id found in the
    [drive_link] argument and the install folder joined with the
    [internal_name] argument. *)
Theorem install_ignores_record_links (host : Host) (env : Env) (text : string)
    (mods1 mods2 : list ModDescriptor)
    (mod_name internal_name drive_link key : string) (fs : gmap string File) :
  map key_view mods1 = map key_view mods2 ->
  let env1 := with_catalog (Reply 200 text (Some mods1)) env in
  let env2 := with_catalog (Reply 200 text (Some mods2)) env in
  install_mod host env1 mod_name internal_name drive_link key fs
  = install_mod host env2 mod_name internal_name drive_link key fs
  /\ (forall t,
        install_trace host env1 fs mod_name internal_name drive_link key t
        <-> install_trace host env2 fs mod_name internal_name drive_link key t)
  /\ install_files host env1 fs mod_name internal_name drive_link key
     = install_files host env2 fs mod_name internal_name drive_link key
  /\ (forall url destination name,
        In (ThreadStart (Download url destination name))
           (events (install_mod host env1 mod_name internal_name drive_link
                                key fs)) ->
        exists file_id dir,
          usable (extract_drive_file_id drive_link) = Some file_id
          /\ MOD_INSTALL_PATH host = Some dir
          /\ url = "https://drive.google.com/uc?id=" ++ file_id
          /\ destination = path_join host dir (internal_name ++ ".scs")
          /\ name = internal_name).
Proof.
  intros Hview env1 env2.
  assert (Hargs : forall url destination name,
            In (ThreadStart (Download url destination name))
               (events (install_mod host env1 mod_name internal_name
                                    drive_link key fs)) ->
            exists file_id dir,
              usable (extract_drive_file_id drive_link) = Some file_id
              /\ MOD_INSTALL_PATH host = Some dir
              /\ url = "https://drive.google.com/uc?id=" ++ file_id
              /\ destination = path_join host dir (internal_name ++ ".scs")
              /\ name = internal_name).
  { intros url destination name. apply download_thread_arguments. }
  assert (Heq : install_mod host env1 mod_name internal_name drive_link key fs
                = install_mod host env2 mod_name internal_name drive_link key fs).
  { rewrite !install_mod_run.
    change (fetched env1) with mods1. change (fetched env2) with mods2.
    change (fetch_events env1) with (fetch_events env2).
    subst env1 env2.
    rewrite (install_scan_key_view host env _ mods1 mods2 _ _ _ _ Hview).
    rewrite (install_scan_key_view host env _ mods2 mods2 _ _ _ _ eq_refl).
    reflexivity. }
  split; [exact Heq |]. split; [| split; [| exact Hargs]].
  - intros t. unfold install_trace. rewrite Heq. subst env1 env2.
    rewrite !interleavings_with_catalog. reflexivity.
  - clear Hargs. unfold install_files. rewrite Heq. subst env1 env2.
    generalize (files (install_mod host
                  (with_catalog (Reply 200 text (Some mods2)) env)
                  mod_name internal_name drive_link key fs)).
    induction (started (events (install_mod host
                  (with_catalog (Reply 200 text (Some mods2)) env)
                  mod_name internal_name drive_link key fs)))
      as [|tk tasks IH]; intros fs0; [reflexivity |].
    simpl. rewrite !run_task_with_catalog. apply IH.
Qed.

Lemma install_ignores_record_links_witness :
  install_mod mac
    (with_catalog (Reply 200 "" (Some [premium_truck]))
                  (calm [] (Fetched 600000)))
    "premium truck" "premium_truck" (Google_Drive_Link premium_truck)
    "ABCD1234XYZ999" ∅
  = install_mod mac
      (with_catalog (Reply 200 "" (Some [premium_truck_moved]))
                    (calm [] (Fetched 600000)))
      "premium truck" "premium_truck" (Google_Drive_Link premium_truck)
      "ABCD1234XYZ999" ∅.
Proof.
  exact (proj1 (install_ignores_record_links mac (calm [] (Fetched 600000)) ""
                  [premium_truck] [premium_truck_moved]
                  "premium truck" "premium_truck"
                  (Google_Drive_Link premium_truck) "ABCD1234XYZ999" ∅
                  eq_refl)).
Defined.

(** ** The download thread *)

Lemma progress_loop_run :
  for_each (range 1 101 10) (fun i =>
     run emit (Bar i);
     run emit (Label ("Downloading: " ++ pretty i ++ "%"));
     emit Sleep)
  = fun fs => MkRun (Ok tt) fs progress_events.
Proof. reflexivity. Qed.


(** What [download] does once the transfer has returned with the staged
    file missing or too small. *)
Lemma download_small_run (host : Host) (env : Env) (url destination : string)
    (fs : gmap string File) :
  let temp_file := destination ++ ".tmp" in
  let fs1 := files (gdown_download env url temp_file fs) in
  res (gdown_download env url temp_file fs) = Ok tt ->
  (forall f, fs1 !! temp_file = Some f -> size f < 500000) ->
  download host env url destination fs =
  match res (if fs1 !! temp_file is Some _
             then os_remove host env temp_file fs1 else MkRun (Ok tt) fs1 [])
  with
  | Ok _ =>
      MkRun (Ok false) (delete temp_file fs1)
        ([Label "Initializing Download..."; Bar 0; Mutate (Fetch url temp_file)]
         ++ progress_events
         ++ (if fs1 !! temp_file is Some _ then [Mutate (Remove temp_file)] else [])
         ++ [ShowError "Error" "Download failed! Try again.";
             Label "Download Failed"; Bar 0])%list
  | Raise e =>
      MkRun (Ok false) fs1
        ([Label "Initializing Download..."; Bar 0; Mutate (Fetch url temp_file)]
         ++ progress_events
         ++ [Mutate (Remove temp_file);
             LogError ("Download failed: " ++ str e);
             ShowError "Error" ("Failed to download mod: " ++ str e);
             Label "Download Failed"])%list
  end.
Proof.
  intros temp_file fs1 Hret Hsmall. subst fs1.
  unfold download. fold temp_file. rewrite progress_loop_run.
  unfold gdown_download in *.
  destruct (transfer env) as [n| |msg]; cbn [res files] in *; [| |discriminate].
  - rewrite lookup_insert_eq in *.
    specialize (Hsmall _ eq_refl). apply Z.ltb_lt in Hsmall.
    cbv [try_except bind emit ret os_path_exists os_path_getsize os_remove negb].
    repeat (rewrite ?lookup_insert_eq, ?Hsmall; cbv beta iota).
    destruct (refused env (Remove temp_file)
              || (is_windows host && readonly (new_file n))); reflexivity.
  - cbv [try_except bind emit ret os_path_exists os_path_getsize os_remove negb].
    destruct (fs !! temp_file) as [f|] eqn:Hl.
    + specialize (Hsmall _ eq_refl). apply Z.ltb_lt in Hsmall.
      repeat (rewrite ?Hl, ?Hsmall; cbv beta iota).
      destruct (refused env (Remove temp_file)
                || (is_windows host && readonly f)); reflexivity.
    + repeat (rewrite ?Hl; cbv beta iota).
      rewrite delete_id by exact Hl. reflexivity.
Qed.

Lemma gdown_download_elsewhere (env : Env) (url output p : string)
    (fs : gmap string File) :
  p <> output -> files (gdown_download env url output fs) !! p = fs !! p.
Proof.
  intros Hne. unfold gdown_download.
  destruct (transfer env); cbn [files]; [|reflexivity..].
  apply lookup_insert_ne. congruence.
Qed.

(** [download] when the transfer raises. *)
Lemma download_broken_run (host : Host) (env : Env) (url destination : string)
    (fs : gmap string File) (e : exn) :
  res (gdown_download env url (destination ++ ".tmp") fs) = Raise e ->
  download host env url destination fs =
  MkRun (Ok false) fs
    [Label "Initializing Download..."; Bar 0;
     Mutate (Fetch url (destination ++ ".tmp"));
     LogError ("Download failed: " ++ str e);
     ShowError "Error" ("Failed to download mod: " ++ str e);
     Label "Download Failed"].
Proof.
  unfold download, gdown_download.
  destruct (transfer env) as [n| |msg]; cbn [res]; try discriminate.
  intros H. injection H as <-.
  cbv [try_except bind emit ret]. reflexivity.
Qed.




(** C3 fails on the code: when [os.rename] raises, the handler reports the
    failure and returns, and the complete staged file stays where it is,
    with no file at the final path. *)
Theorem staging_left_behind :
  let r := download mac rename_refused truck_url premium_truck_path ∅ in
  res r = Ok false
  /\ files r !! (premium_truck_path ++ ".tmp") = Some (new_file 600000)
  /\ files r !! premium_truck_path = None
  /\ In (Mutate (Rename (premium_truck_path ++ ".tmp") premium_truck_path))
        (events r)
  /\ (forall p, ~ In (Mutate (Remove p)) (events r))
  /\ In (Label "Download Failed") (events r).
Proof.
  cbv zeta. split; [reflexivity |]. split; [reflexivity |].
  split; [reflexivity |]. split; [vm_compute; tauto |]. split.
  - intros p H. vm_compute in H. intuition discriminate.
  - vm_compute. tauto.
Qed.

(** ** Threads and traces *)

Lemma merge_nil_right {A} (l : list A) : merge l [] l.
Proof. induction l; constructor; assumption. Qed.

Lemma merge_right_first {A} (l r : list A) : merge l r (r ++ l).
Proof.
  induction r as [|y r IH]; [apply merge_nil_right |].
  simpl. constructor. exact IH.
Qed.

Lemma merge_in {A} (l r t : list A) (x : A) :
  merge l r t -> (In x t <-> In x l \/ In x r).
Proof.
  induction 1; simpl; tauto.
Qed.

(** The events of a trace are the caller's and those of the threads it
    started. *)
Lemma interleavings_in (host : Host) (env : Env) (fs : gmap string File)
    (caller t : list event) (x : event) :
  interleavings host env fs caller t ->
  (In x t <-> In x caller
              \/ exists tk, In (ThreadStart tk) caller
                            /\ In x (events (run_task host env tk fs))).
Proof.
  revert t. induction caller as [|e caller IH]; intros t H.
  - simpl in H. subst t. simpl. split; [tauto |].
    intros [[] | (tk & [] & _)].
  - assert (Hstep : forall t', interleavings host env fs caller t' ->
              (In x (e :: t') <-> In x (e :: caller)
                 \/ exists tk, In (ThreadStart tk) caller
                               /\ In x (events (run_task host env tk fs)))).
    { intros t' Ht'. simpl. rewrite (IH t' Ht'). tauto. }
    destruct e; simpl in H;
      try (destruct H as (t' & Ht' & ->); rewrite (Hstep t' Ht'); simpl;
           split; [intros [H | (tk & H1 & H2)]; [tauto | right; exists tk; tauto]
                  | intros [H | (tk & [H1 | H1] & H2)];
                    [tauto | discriminate | right; exists tk; tauto]]).
    destruct H as (r & t' & Hr & Hm & ->).
    simpl. rewrite (merge_in _ _ _ x Hm), (IH r Hr). split.
    + intros [H | [H | [H | (tk & H1 & H2)]]]; try tauto.
      * right. exists t0. split; [left; reflexivity | exact H].
      * right. exists tk. tauto.
    + intros [[H | H] | (tk & [H1 | H1] & H2)]; try tauto.
      * injection H1 as ->. tauto.
      * right. right. right. exists tk. tauto.
Qed.

(** C2 fails on the code: [install_mod] starts the key-update thread right
    after starting the download thread, without waiting for it.  With a
    transfer of 400,000 bytes the download fails and nothing is committed,
    yet every trace has the key-update request; with a transfer of 600,000
    bytes there is a trace in which the request comes before every change
    of the file system, the commit included. *)
Theorem rotation_not_tied_to_commit :
  (forall t,
     install_trace mac (calm [premium_truck] (Fetched 400000)) ∅
       "premium truck" "premium_truck" (Google_Drive_Link premium_truck)
       "ABCD1234XYZ999" t ->
     In (HttpPost key_update_url "premium_truck" "3F2B8C1E9D474A") t
     /\ forall src dst, ~ In (Mutate (Rename src dst)) t)
  /\ install_files mac (calm [premium_truck] (Fetched 400000)) ∅
       "premium truck" "premium_truck" (Google_Drive_Link premium_truck)
       "ABCD1234XYZ999" !! premium_truck_path = None
  /\ (exists t,
        install_trace mac (calm [premium_truck] (Fetched 600000)) ∅
          "premium truck" "premium_truck" (Google_Drive_Link premium_truck)
          "ABCD1234XYZ999" t
        /\ precedes_all (HttpPost key_update_url "premium_truck" "3F2B8C1E9D474A")
                        is_mutation t
        /\ In (Mutate (Rename (premium_truck_path ++ ".tmp") premium_truck_path)) t).
Proof.
  split; [| split].
  - intros t Ht. unfold install_trace in Ht. cbv zeta in Ht. split.
    + apply (interleavings_in _ _ _ _ _ _ Ht). right.
      exists (UpdateKey "premium_truck"). split; vm_compute; tauto.
    + intros src dst H. apply (interleavings_in _ _ _ _ _ _ Ht) in H.
      destruct H as [H | (tk & H1 & H2)].
      * vm_compute in H. intuition discriminate.
      * vm_compute in H1.
        destruct H1 as [H1 | [H1 | [H1 | [H1 | [H1 | []]]]]]; try discriminate;
          injection H1 as <-; vm_compute in H2; intuition discriminate.
  - reflexivity.
  - eexists. split; [| split].
    + unfold install_trace. cbv zeta.
      change (events (install_mod mac (calm [premium_truck] (Fetched 600000))
                "premium truck" "premium_truck"
                (Google_Drive_Link premium_truck) "ABCD1234XYZ999" ∅))
        with [HttpGet "http://lynx96.pythonanywhere.com/get_available_mods";
              Label "Preparing premium truck..."; Bar 0;
              ThreadStart (Download truck_url premium_truck_path "premium_truck");
              ThreadStart (UpdateKey "premium_truck")].
      cbn [interleavings].
      eexists. split; [| reflexivity].
      eexists. split; [| reflexivity].
      eexists. split; [| reflexivity].
      eexists. eexists. split; [| split; [| reflexivity]].
      * eexists. eexists. split; [reflexivity |].
        split; [apply merge_nil_right | reflexivity].
      * apply merge_right_first.
    + unfold precedes_all.
      exists [HttpGet "http://lynx96.pythonanywhere.com/get_available_mods";
              Label "Preparing premium truck..."; Bar 0;
              ThreadStart (Download truck_url premium_truck_path "premium_truck");
              ThreadStart (UpdateKey "premium_truck")].
      eexists. split; [vm_compute; reflexivity | reflexivity].
    + vm_compute. tauto.
Qed.

(** ** Validation comes before every change of the file system *)

Lemma interleavings_prefix (host : Host) (env : Env) (fs : gmap string File)
    (pre caller t : list event) :
  forallb (fun e => negb (is_thread_start e)) pre = true ->
  interleavings host env fs (pre ++ caller) t ->
  exists t', t = (pre ++ t')%list /\ interleavings host env fs caller t'.
Proof.
  revert t. induction pre as [|e pre IH]; intros t Hpre H.
  - exists t. split; [reflexivity | exact H].
  - simpl in Hpre. apply andb_true_iff in Hpre as [He Hpre].
    destruct e; try discriminate; simpl in H;
      destruct H as (t1 & H1 & ->);
      destruct (IH t1 Hpre H1) as (t' & -> & Ht');
      exists t'; (split; [reflexivity | exact Ht']).
Qed.

Lemma interleavings_no_thread (host : Host) (env : Env)
    (fs : gmap string File) (caller t : list event) :
  forallb (fun e => negb (is_thread_start e)) caller = true ->
  interleavings host env fs caller t -> t = caller.
Proof.
  intros Hc H. rewrite <- (app_nil_r caller) in H.
  destruct (interleavings_prefix host env fs caller [] t Hc H) as (t' & -> & Ht').
  simpl in Ht'. subst t'. apply app_nil_r.
Qed.

Lemma found_after {A} (l1 l2 before after : list A) (x e : A) :
  (l1 ++ x :: l2 = before ++ e :: after)%list ->
  ~ In e l1 -> e <> x -> In x before.
Proof.
  revert before. induction l1 as [|a l1 IH]; intros before H Hnot Hne.
  - destruct before as [|b before]; simpl in H; injection H as H1 H2.
    + congruence.
    + left. congruence.
  - destruct before as [|b before]; simpl in H; injection H as H1 H2.
    + exfalso. apply Hnot. left. exact H1.
    + right. apply (IH before H2); [| exact Hne].
      intros Hin. apply Hnot. right. exact Hin.
Qed.

(** X21: in every trace of an install request, whatever the schedule of the
    threads, each call that can change the file system comes after the
    announcement that the serial-key check has passed. *)
Lemma mutations_follow_validation (host : Host) (env : Env)
    (mod_name internal_name drive_link key : string) (fs : gmap string File)
    (t before after : list event) (e : event) :
  install_trace host env fs mod_name internal_name drive_link key t ->
  t = (before ++ e :: after)%list ->
  is_mutation e = true ->
  In (Label ("Preparing " ++ mod_name ++ "...")) before.
Proof.
  unfold install_trace. cbv zeta. rewrite install_mod_run. cbn [files events].
  intros Ht Hsplit He.
  assert (Hq : forallb (fun e => negb (is_thread_start e)) (fetch_events env) = true).
  { apply forallb_forall. intros x Hx.
    apply fetch_events_quiet in Hx as (_ & -> & _). reflexivity. }
  assert (Hnot : ~ In e (fetch_events env)).
  { intros Hin. apply fetch_events_quiet in Hin as (Hm & _). congruence. }
  destruct (existsb (record_matches mod_name key) (fetched env)) eqn:E.
  - rewrite (install_scan_accept _ _ _ _ _ _ _ _ E) in Ht.
    destruct (install_matched_events host env mod_name internal_name drive_link fs)
      as [rest Hrest].
    rewrite Hrest in Ht.
    destruct (interleavings_prefix _ _ _ _ _ _ Hq Ht) as (t' & -> & Ht').
    simpl in Ht'. destruct Ht' as (t'' & _ & ->).
    apply (found_after _ _ _ _ _ _ Hsplit Hnot).
    intros ->. discriminate.
  - rewrite (install_scan_reject _ _ _ _ _ _ _ _ E) in Ht.
    cbn [files events] in Ht.
    apply interleavings_no_thread in Ht.
    + subst t. exfalso.
      assert (Hin : In e (fetch_events env ++ invalid_key_report)).
      { rewrite Hsplit. apply in_or_app. right. left. reflexivity. }
      apply in_app_or in Hin as [Hin | Hin]; [exact (Hnot Hin) |].
      simpl in Hin. destruct Hin as [<- | [<- | []]]; discriminate.
    + rewrite forallb_app, Hq. reflexivity.
Qed.

(** ** The entitlement query *)

Lemma existsb_find {A} (p : A -> bool) (l : list A) :
  existsb p l = match find p l with Some _ => true | None => false end.
Proof.
  induction l as [|x l IH]; simpl; [reflexivity |].
  destruct (p x); [reflexivity | exact IH].
Qed.

(** *** The program's string operations against the description's words *)

Lemma isspace_white (c : ascii) : Py.isspace c = white c.
Proof. destruct c as [[] [] [] [] [] [] [] []]; reflexivity. Qed.

Lemma small_of_lower_char (c d : ascii) :
  small_of c d <-> d = Py.lower_char c.
Proof.
  unfold small_of, Py.lower_char. split.
  - destruct c as [[] [] [] [] [] [] [] []]; cbv beta iota zeta delta -[N_of_ascii ascii_of_N];
      intros H; try exact H;
      rewrite <- (ascii_N_embedding d), H; reflexivity.
  - intros ->. destruct c as [[] [] [] [] [] [] [] []]; reflexivity.
Qed.

Lemma lowered_lower (s t : string) : lowered s t <-> t = Py.lower s.
Proof.
  split.
  - induction 1 as [|c d s t Hc _ IH]; [reflexivity |].
    apply small_of_lower_char in Hc. subst. reflexivity.
  - intros ->. induction s as [|c s IH]; [constructor |].
    cbn [Py.lower]. constructor; [apply small_of_lower_char; reflexivity | exact IH].
Qed.

Lemma lstrip_white (s : string) : all_chars white s = true -> Py.lstrip s = "".
Proof.
  induction s as [|c s IH]; [reflexivity |].
  cbn [all_chars Py.lstrip]. intros H. apply andb_true_iff in H as [Hc Hs].
  rewrite isspace_white, Hc. exact (IH Hs).
Qed.

Lemma lstrip_white_app (l s : string) :
  all_chars white l = true -> Py.lstrip (l ++ s) = Py.lstrip s.
Proof.
  induction l as [|c l IH]; [reflexivity |].
  rewrite append_cons. cbn [all_chars Py.lstrip]. intros H.
  apply andb_true_iff in H as [Hc Hl]. rewrite isspace_white, Hc. exact (IH Hl).
Qed.

Lemma lstrip_of_clean (s : string) : starts_clean s -> Py.lstrip s = s.
Proof.
  destruct s as [|c s]; [reflexivity |]. cbn [starts_clean Py.lstrip].
  intros Hc. rewrite isspace_white, Hc. reflexivity.
Qed.

Lemma lstrip_split (s : string) :
  exists l, s = l ++ Py.lstrip s /\ all_chars white l = true.
Proof.
  induction s as [|c s (l & Hs & Hl)]; [exists ""; split; reflexivity |].
  cbn [Py.lstrip]. destruct (Py.isspace c) eqn:Ec.
  - exists (String c l). rewrite append_cons, <- Hs. split; [reflexivity |].
    cbn [all_chars]. rewrite <- isspace_white, Ec. exact Hl.
  - exists "". split; reflexivity.
Qed.

Lemma lstrip_clean (s : string) : starts_clean (Py.lstrip s).
Proof.
  induction s as [|c s IH]; [exact I |]. cbn [Py.lstrip].
  destruct (Py.isspace c) eqn:E; [exact IH |].
  cbn [starts_clean]. rewrite <- isspace_white. exact E.
Qed.

Lemma rstrip_cons (c : ascii) (s : string) :
  Py.rstrip (String c s)
  = match Py.rstrip s with
    | EmptyString => if Py.isspace c then EmptyString else String c EmptyString
    | String d r => String c (String d r)
    end.
Proof. reflexivity. Qed.

Lemma rstrip_white (s : string) : all_chars white s = true -> Py.rstrip s = "".
Proof.
  induction s as [|c s IH]; [reflexivity |].
  cbn [all_chars]. intros H. apply andb_true_iff in H as [Hc Hs].
  rewrite rstrip_cons, (IH Hs), isspace_white, Hc. reflexivity.
Qed.

Lemma rstrip_app_white (core t : string) :
  all_chars white t = true -> ends_clean core -> Py.rstrip (core ++ t) = core.
Proof.
  intros Ht. induction core as [|c core IH]; [intros _; exact (rstrip_white t Ht) |].
  rewrite append_cons, rstrip_cons. destruct core as [|d core].
  - cbn [ends_clean]. intros Hc.
    change ("" ++ t) with t. rewrite (rstrip_white t Ht), isspace_white, Hc.
    reflexivity.
  - intros H. change (ends_clean (String c (String d core)))
      with (ends_clean (String d core)) in H.
    rewrite (IH H). reflexivity.
Qed.

Lemma rstrip_split (s : string) :
  exists t, s = Py.rstrip s ++ t /\ all_chars white t = true.
Proof.
  induction s as [|c s (t & Hs & Ht)]; [exists ""; split; reflexivity |].
  rewrite rstrip_cons. destruct (Py.rstrip s) as [|d r].
  - change ("" ++ t) with t in Hs. subst t.
    destruct (Py.isspace c) eqn:Ec.
    + exists (String c s). split; [reflexivity |].
      cbn [all_chars]. rewrite <- isspace_white, Ec. exact Ht.
    + exists s. split; [reflexivity | exact Ht].
  - exists t. rewrite append_cons, <- Hs. split; [reflexivity | exact Ht].
Qed.

Lemma rstrip_ends_clean (s : string) : ends_clean (Py.rstrip s).
Proof.
  induction s as [|c s IH]; [exact I |].
  rewrite rstrip_cons. destruct (Py.rstrip s) as [|d r].
  - destruct (Py.isspace c) eqn:Ec; [exact I |].
    cbn [ends_clean]. rewrite <- isspace_white. exact Ec.
  - exact IH.
Qed.

Lemma rstrip_clean (s : string) : starts_clean s -> starts_clean (Py.rstrip s).
Proof.
  destruct s as [|c s]; [trivial |]. cbn [starts_clean]. intros Hc.
  rewrite rstrip_cons. destruct (Py.rstrip s).
  - rewrite isspace_white, Hc. exact Hc.
  - exact Hc.
Qed.

(** [strip] gives the trimmed text, and nothing else is the trimmed text. *)
Lemma strip_trimmed (piece core : string) :
  trimmed piece core <-> core = Py.strip piece.
Proof.
  unfold trimmed, Py.strip. split.
  - intros (l & t & -> & Hl & Ht & Hs & He).
    rewrite (lstrip_white_app l _ Hl). destruct core as [|c core].
    + change ("" ++ t) with t. rewrite (lstrip_white t Ht). reflexivity.
    + rewrite append_cons, lstrip_of_clean by exact Hs.
      rewrite <- append_cons. symmetry. apply rstrip_app_white; assumption.
  - intros ->. destruct (lstrip_split piece) as (l & Hp & Hl).
    destruct (rstrip_split (Py.lstrip piece)) as (t & Hq & Ht).
    exists l, t. split; [rewrite <- Hq; exact Hp |].
    split; [exact Hl |]. split; [exact Ht |].
    split; [apply rstrip_clean, lstrip_clean | apply rstrip_ends_clean].
Qed.

Lemma strip_white (piece : string) :
  all_chars white piece = true <-> Py.strip piece = "".
Proof.
  unfold Py.strip. split.
  - intros H. rewrite (lstrip_white piece H). reflexivity.
  - intros H. destruct (lstrip_split piece) as (l & Hp & Hl).
    destruct (rstrip_split (Py.lstrip piece)) as (t & Hq & Ht).
    rewrite H in Hq. change ("" ++ t) with t in Hq.
    rewrite Hp, Hq, all_chars_append, Hl, Ht. reflexivity.
Qed.

(** The comprehension of [get_user_purchased_mods] gives the names of the
    pieces, and nothing else is the names of the pieces. *)
Lemma normalise_names_of (pieces names : list string) :
  names_of pieces names <-> names = normalise pieces.
Proof.
  unfold normalise. split.
  - induction 1 as [|piece pieces names Hw _ IH
                    |piece core name pieces names Ht Hne Hl _ IH].
    + reflexivity.
    + cbn [List.filter]. apply strip_white in Hw. rewrite Hw. exact IH.
    + cbn [List.filter]. apply strip_trimmed in Ht. apply lowered_lower in Hl.
      subst core. destruct (Py.strip piece) eqn:E; [contradiction |].
      cbn [Py.truthy map]. rewrite E, <- Hl, IH. reflexivity.
  - intros ->. induction pieces as [|piece pieces IH]; [constructor |].
    cbn [List.filter]. destruct (Py.strip piece) as [|c core] eqn:E.
    + cbn [Py.truthy]. apply names_blank; [apply strip_white; exact E | exact IH].
    + cbn [Py.truthy map]. rewrite E.
      apply (names_cons piece (String c core)).
      * apply strip_trimmed. symmetry. exact E.
      * discriminate.
      * apply lowered_lower. reflexivity.
      * exact IH.
Qed.

Lemma comma_joined_cons (piece : string) (rest : list string) :
  rest <> [] -> comma_joined (piece :: rest) = piece ++ "," ++ comma_joined rest.
Proof. destruct rest; [contradiction | reflexivity]. Qed.

(** [split(",")] cuts a text into comma-free pieces that give the text back
    when joined with commas. *)
Lemma split_go_comma (cur s : string) :
  free_of "," cur = true ->
  comma_joined (Py.split_go "," O cur s) = Py.rev_string "" cur ++ s
  /\ Forall (fun piece => free_of "," piece = true) (Py.split_go "," O cur s).
Proof.
  unfold free_of. revert cur. induction s as [|c s IH]; intros cur Hcur.
  - cbn [Py.split_go comma_joined]. split; [rewrite append_nil_r; reflexivity |].
    constructor; [rewrite all_chars_rev; exact Hcur | constructor].
  - cbn [Py.split_go Py.startswith]. destruct (Ascii.eqb "," c) eqn:E.
    + apply Ascii.eqb_eq in E. subst c. cbn [String.length Nat.pred].
      destruct (IH "" eq_refl) as [Hj Hf]. split.
      * rewrite comma_joined_cons by apply split_go_nonempty.
        rewrite Hj. reflexivity.
      * constructor; [rewrite all_chars_rev; exact Hcur | exact Hf].
    + assert (Hc : all_chars (fun x => negb (Ascii.eqb x ",")) (String c cur) = true).
      { cbn [all_chars]. rewrite Ascii.eqb_sym, E. exact Hcur. }
      destruct (IH _ Hc) as [Hj Hf]. split; [| exact Hf].
      rewrite Hj. cbn [Py.rev_string].
      rewrite (rev_string_app (String c "")), append_assoc. reflexivity.
Qed.

(** Comma-free pieces joined with commas are what [split(",")] gives back. *)
Lemma split_comma_joined (pieces : list string) :
  pieces <> [] -> Forall (fun piece => free_of "," piece = true) pieces ->
  Py.split "," (comma_joined pieces) = pieces.
Proof.
  unfold Py.split. induction pieces as [|piece rest IH]; [contradiction |].
  intros _ Hf. inversion Hf as [|? ? Hp Hrest]; subst.
  destruct rest as [|q rest].
  - cbn [comma_joined]. rewrite <- (append_nil_r piece) at 1.
    rewrite (split_go_pass _ _ _ _ (free_of_starts_later "," piece "" Hp)).
    cbn [Py.split_go]. rewrite rev_string_involutive. reflexivity.
  - rewrite comma_joined_cons by discriminate.
    rewrite (split_go_pass _ _ _ _ (free_of_starts_later "," piece _ Hp)).
    rewrite split_go_cut, rev_string_involutive, IH; [reflexivity | discriminate | exact Hrest].
Qed.

(** The names of a field, as the program computes them, are the only names
    of the field. *)
Lemma names_of_field_computed (field : string) (names : list string) :
  names_of_field field names <-> names = normalise (Py.split "," field).
Proof.
  unfold names_of_field. split.
  - intros (pieces & -> & Hf & Hn). apply normalise_names_of in Hn. subst names.
    destruct pieces as [|piece rest]; [reflexivity |].
    rewrite split_comma_joined; [reflexivity | discriminate | exact Hf].
  - intros ->. exists (Py.split "," field).
    destruct (split_go_comma "" field eq_refl) as [Hj Hf].
    split; [symmetry; exact Hj |]. split; [exact Hf |].
    apply normalise_names_of. reflexivity.
Qed.

Example names_of_field_example :
  names_of_field " Premium Truck ,, BUS pack " ["premium truck"; "bus pack"].
Proof. apply names_of_field_computed. reflexivity. Qed.

Lemma small_of_white (c d : ascii) : small_of c d -> white d = white c.
Proof.
  intros H. apply small_of_lower_char in H. subst d.
  destruct c as [[] [] [] [] [] [] [] []]; reflexivity.
Qed.

Lemma small_of_not_capital (c d : ascii) : small_of c d -> capital d = false.
Proof.
  intros H. apply small_of_lower_char in H. subst d.
  destruct c as [[] [] [] [] [] [] [] []]; reflexivity.
Qed.

Lemma lowered_starts_clean (s t : string) :
  lowered s t -> starts_clean s -> starts_clean t.
Proof.
  intros [|c d s' t' Hc _]; [trivial |]. cbn [starts_clean].
  rewrite (small_of_white _ _ Hc). trivial.
Qed.

Lemma lowered_ends_clean (s t : string) :
  lowered s t -> ends_clean s -> ends_clean t.
Proof.
  induction 1 as [|c d s t Hc Hl IH]; [trivial |].
  destruct Hl as [|c' d' s' t' Hc' Hl'].
  - cbn [ends_clean]. rewrite (small_of_white _ _ Hc). trivial.
  - exact IH.
Qed.

Lemma lowered_no_capital (s t : string) :
  lowered s t -> all_chars (fun c => negb (capital c)) t = true.
Proof.
  induction 1 as [|c d s t Hc _ IH]; [reflexivity |].
  cbn [all_chars]. rewrite (small_of_not_capital _ _ Hc), IH. reflexivity.
Qed.

(** Every name of a list of pieces is as the description promises. *)
Lemma names_of_normal (pieces names : list string) :
  names_of pieces names -> Forall normal_name names.
Proof.
  induction 1 as [|piece pieces names _ _ IH
                  |piece core name pieces names Ht Hne Hl _ IH];
    [constructor | exact IH |].
  constructor; [| exact IH].
  destruct Ht as (l & t & _ & _ & _ & Hs & He). unfold normal_name.
  split; [destruct Hl; [contradiction | discriminate] |].
  split; [exact (lowered_starts_clean _ _ Hl Hs) |].
  split; [exact (lowered_ends_clean _ _ Hl He) |].
  exact (lowered_no_capital _ _ Hl).
Qed.

(** What [get_user_purchased_mods] returns, by cases on the answer. *)
Lemma get_user_purchased_mods_result (env : Env) (fs : gmap string File) :
  res (get_user_purchased_mods env fs)
  = Ok (match spec_entitlement_field (user_mods env) with
        | Some field => normalise (Py.split "," field)
        | None => []
        end)
  /\ files (get_user_purchased_mods env fs) = fs
  /\ (forall e, In e (events (get_user_purchased_mods env fs)) ->
        e = HttpGet (API_URL ++ "get_user_mods")
        \/ exists msg, e = ShowError "Error" msg).
Proof.
  split; [| split].
  all: unfold get_user_purchased_mods, spec_entitlement_field.
  all: destruct (user_mods env) as [msg | status text [data|]];
    cbv [try_except bind requests_get emit ret raise r_json app];
    try destruct (status =? 200); cbv beta iota.
  all: try destruct data as [| | | | [|first items] |]; cbv beta iota.
  all: try destruct first as [|b|n|s|elems|fields];
    cbv [has_user_mods user_mods_field split_commas ret raise]; cbv beta iota.
  all: try destruct (Py.contains "User Mods" s); cbv beta iota.
  all: try destruct (existsb _ elems); cbv beta iota.
  all: try rewrite existsb_find;
    try destruct (find _ fields) as [[k v]|]; cbv [snd app]; cbv beta iota.
  all: try destruct v; cbv [split_commas ret raise app]; cbv beta iota.
  all: try reflexivity.
  all: intros e H; simpl in H; intuition (subst; eauto).
Qed.

(** C9: whatever the server answers, [get_user_purchased_mods] returns a
    list of names (it never raises) and leaves the files alone.  When the
    response is OK and its first record has the comma-separated field, the
    list returned is the list of names of that field and no other list is:
    the field is cut at its commas, the blank pieces are dropped, and each
    other piece is given without the white space at its two ends and with
    its capital letters made small.  When the response is not OK, does not
    parse, is empty or has no such field, the list is empty.  Every name
    returned is non-empty, has no white space at either end and no capital
    letter. *)
Theorem entitled_mods_refines (env : Env) (fs : gmap string File) :
  (exists names,
     res (get_user_purchased_mods env fs) = Ok names
     /\ Forall normal_name names)
  /\ files (get_user_purchased_mods env fs) = fs
  /\ (forall e, In e (events (get_user_purchased_mods env fs)) ->
        e = HttpGet (API_URL ++ "get_user_mods")
        \/ exists msg, e = ShowError "Error" msg)
  /\ match spec_entitlement_field (user_mods env) with
     | Some field =>
         forall names,
           res (get_user_purchased_mods env fs) = Ok names
           <-> names_of_field field names
     | None => res (get_user_purchased_mods env fs) = Ok []
     end.
Proof.
  destruct (get_user_purchased_mods_result env fs) as (Hres & Hfiles & Hev).
  split; [| split; [exact Hfiles | split; [exact Hev |]]].
  - eexists. split; [exact Hres |].
    destruct (spec_entitlement_field (user_mods env)) as [field|];
      [| constructor].
    apply (names_of_normal (Py.split "," field)).
    apply normalise_names_of. reflexivity.
  - destruct (spec_entitlement_field (user_mods env)) as [field|];
      [| exact Hres].
    intros names. rewrite Hres, names_of_field_computed.
    split; [intros H; injection H as <-; reflexivity | intros ->; reflexivity].
Qed.

(** ** The device identifier *)

Lemma le_bytes_length (len : nat) (n : N) : length (le_bytes len n) = len.
Proof.
  revert n. induction len as [|k IH]; intros n; simpl; [reflexivity |].
  rewrite IH. reflexivity.
Qed.

Lemma le_bytes_small (len : nat) (n b : N) :
  In b (le_bytes len n) -> (b < 256)%N.
Proof.
  revert n. induction len as [|k IH]; intros n; simpl; [intros [] |].
  intros [<- | H]; [apply N.mod_lt; discriminate | eapply IH, H].
Qed.

Lemma le_bytes_injective (len : nat) (n m : N) :
  (n < 256 ^ N.of_nat len)%N -> (m < 256 ^ N.of_nat len)%N ->
  le_bytes len n = le_bytes len m -> n = m.
Proof.
  revert n m. induction len as [|k IH]; intros n m Hn Hm H.
  - simpl in Hn, Hm. lia.
  - simpl in H. injection H as H0 H1.
    rewrite Nat2N.inj_succ, N.pow_succ_r' in Hn, Hm.
    assert (Hq : (n / 256 = m / 256)%N).
    { apply IH; [| | exact H1]; apply N.Div0.div_lt_upper_bound; lia. }
    rewrite (N.div_mod n 256), (N.div_mod m 256) by discriminate.
    rewrite H0, Hq. reflexivity.
Qed.

Lemma hex_value_digit (d : N) : (d < 16)%N -> hex_value (hex_digit d) = d.
Proof.
  intros Hd. unfold hex_value, hex_digit.
  destruct (d <? 10)%N eqn:E.
  - apply N.ltb_lt in E. rewrite N_ascii_embedding by lia.
    replace (48 + d <? 58)%N with true by (symmetry; apply N.ltb_lt; lia). lia.
  - apply N.ltb_ge in E. rewrite N_ascii_embedding by lia.
    replace (87 + d <? 58)%N with false by (symmetry; apply N.ltb_ge; lia). lia.
Qed.

Lemma hex_digit_lower (d : N) : (d < 16)%N -> is_lower_hex (hex_digit d) = true.
Proof.
  intros Hd. unfold is_lower_hex, hex_digit.
  destruct (d <? 10)%N eqn:E.
  - apply N.ltb_lt in E. rewrite N_ascii_embedding by lia.
    apply orb_true_iff. left. apply andb_true_iff.
    split; apply N.leb_le; lia.
  - apply N.ltb_ge in E. rewrite N_ascii_embedding by lia.
    apply orb_true_iff. right. apply andb_true_iff.
    split; apply N.leb_le; lia.
Qed.

Lemma format_02x_injective (x y : N) :
  (x < 256)%N -> (y < 256)%N -> format_02x x = format_02x y -> x = y.
Proof.
  intros Hx Hy H. unfold format_02x in H. injection H as Hhi Hlo.
  apply (f_equal hex_value) in Hhi, Hlo.
  rewrite !hex_value_digit in Hhi, Hlo;
    try (apply N.mod_lt; discriminate);
    try (apply N.Div0.div_lt_upper_bound; lia).
  rewrite (N.div_mod x 16), (N.div_mod y 16) by discriminate.
  rewrite Hhi, Hlo. reflexivity.
Qed.

Lemma join_colon_injective (l1 l2 : list N) :
  length l1 = length l2 ->
  (forall b, In b l1 -> (b < 256)%N) -> (forall b, In b l2 -> (b < 256)%N) ->
  join ":" (map format_02x l1) = join ":" (map format_02x l2) -> l1 = l2.
Proof.
  revert l2. induction l1 as [|a l1 IH]; intros [|b l2] Hlen H1 H2 H;
    try discriminate; [reflexivity |].
  simpl in Hlen. injection Hlen as Hlen.
  assert (Ha : (a < 256)%N) by (apply H1; left; reflexivity).
  assert (Hb : (b < 256)%N) by (apply H2; left; reflexivity).
  destruct l1 as [|a' l1], l2 as [|b' l2]; try discriminate.
  - simpl in H. f_equal. apply format_02x_injective; assumption.
  - change (join ":" (map format_02x (a :: a' :: l1)))
      with (format_02x a ++ ":" ++ join ":" (map format_02x (a' :: l1))) in H.
    change (join ":" (map format_02x (b :: b' :: l2)))
      with (format_02x b ++ ":" ++ join ":" (map format_02x (b' :: l2))) in H.
    unfold format_02x in H at 1 3. simpl in H.
    injection H as Hhi Hlo Hrest.
    f_equal.
    + apply format_02x_injective; [assumption.. |].
      unfold format_02x. rewrite Hhi, Hlo. reflexivity.
    + apply IH; [exact Hlen | | | exact Hrest]; intros x Hx;
        [apply H1 | apply H2]; right; exact Hx.
Qed.

(** X1: [get_mac_address] answers exactly for the 48-bit nodes, and its
    answer is 17 characters long: six pairs of lower-case hexadecimal
    digits with a colon between two pairs (a colon at positions 2, 5, 8, 11
    and 14, a digit at each of the twelve other positions). *)
Theorem mac_address_format (node : N) :
  ((node < 2 ^ 48)%N <-> exists s, get_mac_address node = Some s)
  /\ forall s, get_mac_address node = Some s ->
       String.length s = 17%nat
       /\ all_chars (fun c => is_lower_hex c || Ascii.eqb c ":") s = true
       /\ map (fun i => String.get i s) [2; 5; 8; 11; 14]%nat
          = [Some ":"; Some ":"; Some ":"; Some ":"; Some ":"]%char
       /\ forallb (fun i => match String.get i s with
                            | Some c => is_lower_hex c
                            | None => false
                            end)
                  [0; 1; 3; 4; 6; 7; 9; 10; 12; 13; 15; 16]%nat = true.
Proof.
  unfold get_mac_address, to_bytes_big.
  change (256 ^ N.of_nat 6)%N with (2 ^ 48)%N.
  destruct (node <? 2 ^ 48)%N eqn:E.
  - apply N.ltb_lt in E. split; [split; eauto |].
    intros s Hs. injection Hs as <-.
    cbn [le_bytes rev app map join String.append format_02x].
    split; [reflexivity |]. split; [| split; [reflexivity |]].
    all: unfold format_02x; simpl.
    all: rewrite !hex_digit_lower;
      try (apply N.mod_lt; discriminate);
      try (apply N.Div0.div_lt_upper_bound; [apply N.mod_lt; discriminate]).
    all: reflexivity.
  - apply N.ltb_ge in E. split.
    + split; [lia | intros [s Hs]; discriminate].
    + intros s Hs. discriminate.
Qed.

(** X2: two nodes with the same MAC address text are the same node. *)
Theorem mac_address_injective (node1 node2 : N) (s : string) :
  get_mac_address node1 = Some s -> get_mac_address node2 = Some s ->
  node1 = node2.
Proof.
  unfold get_mac_address, to_bytes_big.
  destruct (node1 <? 256 ^ N.of_nat 6)%N eqn:E1; [| discriminate].
  destruct (node2 <? 256 ^ N.of_nat 6)%N eqn:E2; [| discriminate].
  apply N.ltb_lt in E1, E2.
  intros H1 H2.
  assert (Hj : join ":" (map format_02x (rev (le_bytes 6 node1)))
               = join ":" (map format_02x (rev (le_bytes 6 node2))))
    by congruence.
  clear H1 H2. apply join_colon_injective in Hj.
  - apply (f_equal (@rev N)) in Hj. rewrite !rev_involutive in Hj.
    apply (le_bytes_injective 6); assumption.
  - rewrite !length_rev, !le_bytes_length. reflexivity.
  - intros b Hb. apply in_rev in Hb. eapply le_bytes_small, Hb.
  - intros b Hb. apply in_rev in Hb. eapply le_bytes_small, Hb.
Qed.

Lemma mac_address_injective_witness :
  (2 * 10007999171934)%N = 20015998343868%N.
Proof.
  exact (mac_address_injective (2 * 10007999171934) 20015998343868
           "12:34:56:78:9a:bc" eq_refl eq_refl).
Defined.

(** ** Login *)

Lemma authenticate_user_run (env : Env) (fs : gmap string File) :
  authenticate_user env fs =
  match user_mods env with
  | Unreachable msg =>
      MkRun (Ok false) fs
        [HttpGet (API_URL ++ "get_user_mods");
         ShowError "Error" ("Authentication error: " ++ msg)]
  | Reply status _ _ =>
      MkRun (Ok (status =? 200)) fs [HttpGet (API_URL ++ "get_user_mods")]
  end.
Proof.
  cbv [authenticate_user try_except bind requests_get emit ret raise].
  destruct (user_mods env) as [msg | status text body]; [reflexivity |].
  destruct (status =? 200); reflexivity.
Qed.

Lemma purchased_needs_ok (env : Env) (fs : gmap string File)
    (name : string) (names : list string) :
  res (get_user_purchased_mods env fs) = Ok (name :: names) ->
  exists text body, user_mods env = Reply 200 text body.
Proof.
  cbv [get_user_purchased_mods try_except bind requests_get emit ret raise].
  destruct (user_mods env) as [msg | status text body]; [discriminate |].
  destruct (Z.eqb_spec status 200) as [-> | Hne]; [eauto | discriminate].
Qed.

(** X3: [authenticate_user] never raises and touches no file; it answers
    [True] exactly when the status is 200, whatever the body (it is not
    parsed); so whenever [get_user_purchased_mods] lists a name on the same
    answer, [authenticate_user] is [True]. *)
Theorem authentication_outcome (env : Env) (fs : gmap string File) :
  (exists b, res (authenticate_user env fs) = Ok b)
  /\ files (authenticate_user env fs) = fs
  /\ (res (authenticate_user env fs) = Ok true <->
        exists text body, user_mods env = Reply 200 text body)
  /\ (forall name names,
        res (get_user_purchased_mods env fs) = Ok (name :: names) ->
        res (authenticate_user env fs) = Ok true).
Proof.
  assert (Hiff : res (authenticate_user env fs) = Ok true <->
                 exists text body, user_mods env = Reply 200 text body).
  { rewrite authenticate_user_run.
    destruct (user_mods env) as [msg | status text body]; cbn [res].
    - split; [discriminate | intros (t & b & H); discriminate].
    - destruct (Z.eqb_spec status 200) as [-> | Hne].
      + split; eauto.
      + split; [discriminate | intros (t & b & H); congruence]. }
  split; [| split; [| split; [exact Hiff |]]].
  - rewrite authenticate_user_run. destruct (user_mods env); eauto.
  - rewrite authenticate_user_run. destruct (user_mods env); reflexivity.
  - intros name names H. apply Hiff. eapply purchased_needs_ok, H.
Qed.

(** ** The list of mods *)

Lemma get_user_purchased_mods_run (env : Env) (fs : gmap string File) :
  get_user_purchased_mods env fs =
  MkRun (Ok (purchased env)) fs (events (get_user_purchased_mods env ∅)).
Proof.
  unfold purchased, get_user_purchased_mods.
  destruct (user_mods env) as [msg | status text [data|]];
    cbv [try_except bind requests_get emit ret raise r_json app res events];
    try destruct (status =? 200); cbv beta iota; try reflexivity.
  destruct data as [| | | | [|first items] |]; cbv beta iota; try reflexivity.
  destruct first as [|b|n|s|elems|fields];
    cbv [has_user_mods user_mods_field split_commas ret raise]; cbv beta iota;
    try reflexivity.
  - destruct (Py.contains "User Mods" s); reflexivity.
  - destruct (existsb _ elems); reflexivity.
  - rewrite existsb_find.
    destruct (find _ fields) as [[k v]|]; cbv [snd]; cbv beta iota;
      [| reflexivity].
    destruct v; reflexivity.
Qed.

Lemma purchased_events_quiet (env : Env) (e : event) :
  In e (events (get_user_purchased_mods env ∅)) ->
  is_mutation e = false /\ is_thread_start e = false.
Proof.
  unfold get_user_purchased_mods.
  destruct (user_mods env) as [msg | status text [data|]];
    cbv [try_except bind requests_get emit ret raise r_json app res events];
    try destruct (status =? 200); cbv beta iota.
  all: try destruct data as [| | | | [|first items] |]; cbv beta iota.
  all: try destruct first as [|b|n|s|elems|fields];
    cbv [has_user_mods user_mods_field split_commas ret raise]; cbv beta iota.
  all: try destruct (Py.contains "User Mods" s); cbv beta iota.
  all: try destruct (existsb _ elems); cbv beta iota.
  all: try rewrite existsb_find;
    try destruct (find _ fields) as [[k v]|]; cbv [snd app]; cbv beta iota.
  all: try destruct v; cbv [split_commas ret raise app]; cbv beta iota.
  all: intros H; simpl in H;
    repeat (destruct H as [<- | H]; [split; reflexivity |]); contradiction.
Qed.

(** The loop of [load_mod_list] where the install folder is known: one row
    per entitled record, in catalog order, nothing emitted. *)
Lemma list_rows_run (host : Host) (dir : string) (purchased_mods : list string)
    (mod_list : list ModDescriptor) (fs : gmap string File) :
  MOD_INSTALL_PATH host = Some dir ->
  list_rows host purchased_mods mod_list fs =
  MkRun (Ok (map (fun md =>
                    {| row_mod := md;
                       uninstall_button :=
                         match fs !! path_join host dir
                                       (Mod_Internal_Name md ++ ".scs") with
                         | Some _ => true
                         | None => false
                         end |})
                 (List.filter (entitled purchased_mods) mod_list)))
        fs [].
Proof.
  intros Hdir. induction mod_list as [|md rest IH]; [reflexivity |].
  cbn [list_rows List.filter]. fold (entitled purchased_mods md).
  destruct (entitled purchased_mods md); [| exact IH].
  unfold join_install_path. rewrite Hdir.
  cbv [bind ret os_path_exists]. rewrite IH. reflexivity.
Qed.

(** X5: on a system with an install folder, [load_mod_list] shows exactly
    the catalog records whose display name, trimmed and lower-cased, is
    among the purchased names, in catalog order; it shows an Uninstall
    button exactly for the records whose asset file exists; it returns
    normally, leaves the files alone and makes no call that changes them. *)
Theorem listed_rows (host : Host) (env : Env) (dir : string)
    (fs : gmap string File) :
  MOD_INSTALL_PATH host = Some dir ->
  let r := load_mod_list_rows host env fs in
  exists rows,
    res r = Ok rows /\ files r = fs
    /\ map row_mod rows = List.filter (entitled (purchased env)) (fetched env)
    /\ (forall row, In row rows ->
          In (row_mod row) (fetched env)
          /\ In (Py.lower (Py.strip (Mod_Name (row_mod row)))) (purchased env)
          /\ (uninstall_button row = true <->
                is_Some (fs !! path_join host dir
                               (Mod_Internal_Name (row_mod row) ++ ".scs"))))
    /\ (forall md, In md (fetched env) ->
          In (Py.lower (Py.strip (Mod_Name md))) (purchased env) ->
          In md (map row_mod rows))
    /\ forallb (fun e => negb (is_mutation e) && negb (is_thread_start e))
               (events r) = true.
Proof.
  intros Hdir. cbv zeta. unfold load_mod_list_rows, bind.
  rewrite get_user_purchased_mods_run, fetch_mod_list_run,
    (list_rows_run host dir _ _ fs Hdir).
  eexists. split; [reflexivity |]. split; [reflexivity |].
  assert (Hent : forall md, entitled (purchased env) md = true <->
             In (Py.lower (Py.strip (Mod_Name md))) (purchased env)).
  { intros md. unfold entitled. rewrite existsb_exists. split.
    - intros (x & Hx & E). apply String.eqb_eq in E. subst x. exact Hx.
    - intros H. eexists. split; [exact H | apply String.eqb_refl]. }
  split; [| split; [| split]].
  - rewrite map_map. cbn [row_mod]. apply map_id.
  - intros row Hrow. apply in_map_iff in Hrow as (md & <- & Hmd).
    apply filter_In in Hmd as [Hin He]. cbn [row_mod uninstall_button].
    split; [exact Hin |]. split; [apply Hent, He |].
    destruct (fs !! _); split; eauto; try discriminate.
    intros [x Hx]. discriminate.
  - intros md Hin He. rewrite map_map. cbn [row_mod]. rewrite map_id.
    apply filter_In. split; [exact Hin | apply Hent, He].
  - cbn [events]. rewrite app_nil_r, forallb_app. apply andb_true_iff. split;
      apply forallb_forall; intros e He.
    + apply purchased_events_quiet in He as [-> ->]. reflexivity.
    + apply fetch_events_quiet in He as (-> & -> & _). reflexivity.
Qed.

Lemma listed_rows_witness :
  exists rows,
    res (load_mod_list_rows mac (calm [premium_truck] NoOutput) truck_installed)
    = Ok rows
    /\ map uninstall_button rows = [true].
Proof.
  destruct (listed_rows mac (calm [premium_truck] NoOutput) (mod_dir mac)
              truck_installed eq_refl) as (rows & Hres & _).
  exists rows. split; [exact Hres |].
  assert (H : res (load_mod_list_rows mac (calm [premium_truck] NoOutput)
                     truck_installed)
              = Ok [{| row_mod := premium_truck; uninstall_button := true |}])
    by reflexivity.
  rewrite H in Hres. injection Hres as <-. reflexivity.
Defined.

(** ** Logging in *)







(** ** The rotated key *)

Lemma length_take (n : nat) (s : string) :
  String.length (Py.take n s) = Nat.min n (String.length s).
Proof.
  revert s. induction n as [|k IH]; intros [|c s]; simpl; try reflexivity.
  rewrite IH. reflexivity.
Qed.

Lemma length_upper (s : string) : String.length (Py.upper s) = String.length s.
Proof. induction s as [|c s IH]; simpl; [reflexivity | rewrite IH; reflexivity]. Qed.

Lemma all_chars_take (p : ascii -> bool) (n : nat) (s : string) :
  all_chars p s = true -> all_chars p (Py.take n s) = true.
Proof.
  revert s. induction n as [|k IH]; intros [|c s]; simpl; try reflexivity.
  intros H. apply andb_true_iff in H as [Hc Hs]. rewrite Hc, (IH s Hs).
  reflexivity.
Qed.

Lemma all_chars_remove_dash (p : ascii -> bool) (s : string) :
  all_chars (fun c => p c || Ascii.eqb c "-") s = true ->
  all_chars p (Py.remove_char "-" s) = true.
Proof.
  induction s as [|c s IH]; simpl; [reflexivity |].
  intros H. apply andb_true_iff in H as [Hc Hs].
  destruct (Ascii.eqb c "-") eqn:E; [apply IH, Hs |].
  simpl. rewrite orb_false_r in Hc. rewrite Hc, (IH Hs). reflexivity.
Qed.

Lemma remove_dash_free (s : string) :
  all_chars (fun c => negb (Ascii.eqb c "-")) (Py.remove_char "-" s) = true.
Proof.
  induction s as [|c s IH]; simpl; [reflexivity |].
  destruct (Ascii.eqb c "-") eqn:E; [exact IH |].
  simpl. rewrite E, IH. reflexivity.
Qed.

Lemma upper_char_hex (c : ascii) :
  is_lower_hex c = true -> is_upper_hex (Py.upper_char c) = true.
Proof.
  destruct c as [[] [] [] [] [] [] [] []]; intros H;
    first [reflexivity | vm_compute in H; discriminate].
Qed.

Lemma upper_char_dash (c : ascii) :
  Ascii.eqb (Py.upper_char c) "-" = Ascii.eqb c "-".
Proof. destruct c as [[] [] [] [] [] [] [] []]; reflexivity. Qed.

Lemma all_chars_upper_hex (s : string) :
  all_chars is_lower_hex s = true -> all_chars is_upper_hex (Py.upper s) = true.
Proof.
  induction s as [|c s IH]; simpl; [reflexivity |].
  intros H. apply andb_true_iff in H as [Hc Hs].
  rewrite (upper_char_hex c Hc), (IH Hs). reflexivity.
Qed.

Lemma all_chars_upper_dash (s : string) :
  all_chars (fun c => negb (Ascii.eqb c "-")) s = true ->
  all_chars (fun c => negb (Ascii.eqb c "-")) (Py.upper s) = true.
Proof.
  induction s as [|c s IH]; simpl; [reflexivity |].
  intros H. apply andb_true_iff in H as [Hc Hs].
  rewrite upper_char_dash, Hc, (IH Hs). reflexivity.
Qed.

Lemma post_update_serial_key_run (env : Env) (name : string)
    (fs : gmap string File) :
  let key := Py.upper (Py.take 14 (Py.remove_char "-" (uuid4 env))) in
  post_update_serial_key env name fs =
  match key_update env with
  | Unreachable msg =>
      MkRun (Ok None) fs
        [HttpPost (API_URL ++ "update_serial_key") name key;
         ShowError "Error" ("Error updating serial key: " ++ msg)]
  | Reply status text _ =>
      if status =? 200 then
        MkRun (Ok (Some key)) fs
          [HttpPost (API_URL ++ "update_serial_key") name key;
           LogInfo ("Serial key updated for " ++ name)]
      else
        MkRun (Ok None) fs
          [HttpPost (API_URL ++ "update_serial_key") name key;
           ShowError "Error" ("Failed to update serial key: " ++ text)]
  end.
Proof.
  cbv zeta.
  cbv [post_update_serial_key try_except bind requests_post emit ret raise].
  destruct (key_update env) as [msg | status text body]; [reflexivity |].
  destruct (status =? 200); reflexivity.
Qed.

(** X6: the key that [post_update_serial_key] sends has at most 14
    characters and no dash; when the UUID text is made of lower-case
    hexadecimal digits and dashes, with at least 14 digits, the key is
    exactly 14 upper-case hexadecimal digits. *)
Theorem rotated_key_format (env : Env) (name url n key : string)
    (fs : gmap string File) :
  In (HttpPost url n key) (events (post_update_serial_key env name fs)) ->
  (String.length key <= 14)%nat
  /\ all_chars (fun c => negb (Ascii.eqb c "-")) key = true
  /\ (all_chars (fun c => is_lower_hex c || Ascii.eqb c "-") (uuid4 env) = true ->
      (14 <= String.length (Py.remove_char "-" (uuid4 env)))%nat ->
      String.length key = 14%nat /\ all_chars is_upper_hex key = true).
Proof.
  intros H.
  assert (Hk : key = Py.upper (Py.take 14 (Py.remove_char "-" (uuid4 env)))).
  { rewrite post_update_serial_key_run in H.
    destruct (key_update env) as [msg | status text body];
      [| destruct (status =? 200)]; cbn [events] in H;
      destruct H as [H | [H | []]]; try discriminate;
      injection H as _ _ <-; reflexivity. }
  subst key. rewrite length_upper, length_take. split; [lia |]. split.
  - apply all_chars_upper_dash, all_chars_take, remove_dash_free.
  - intros Hhex Hlen. split; [lia |].
    apply all_chars_upper_hex, all_chars_take, all_chars_remove_dash, Hhex.
Qed.

Lemma rotated_key_format_witness :
  (String.length "3F2B8C1E9D474A" <= 14)%nat.
Proof.
  refine (proj1 (rotated_key_format (calm [] NoOutput) "premium_truck"
                   key_update_url "premium_truck" "3F2B8C1E9D474A" ∅ _)).
  left. reflexivity.
Defined.


(** ** Reading the file id back from a link *)

(** [between] reads back what was written between the separator and the
    stop character. *)
Lemma between_round_trip (a stopc : ascii) (sep' pre id after : string) :
  let sep := String a sep' in
  starts_later sep pre (sep ++ id ++ after) = true ->
  starts_later sep id after = true ->
  free_of stopc id = true ->
  after = "" \/ (exists t, after = String stopc t) ->
  between sep (String stopc "") (pre ++ sep ++ id ++ after) = id.
Proof.
  intros sep H1 H2 H3 Hafter. unfold between, Py.split.
  rewrite (split_go_pass _ _ _ _ H1). subst sep. rewrite split_go_cut.
  set (sep := String a sep') in *.
  replace (nth 1 (Py.rev_string "" (Py.rev_string "" pre)
                  :: Py.split_go sep 0 "" (id ++ after)) "")
    with (hd "" (Py.split_go sep 0 "" (id ++ after)))
    by (destruct (Py.split_go sep 0 "" (id ++ after)); reflexivity).
  rewrite (split_go_pass _ _ _ _ H2).
  rewrite (split_go_head sep (Py.rev_string "" id) after), rev_string_involutive.
  assert (Hh : hd "" (Py.split_go sep 0 "" after) = ""
               \/ exists h, hd "" (Py.split_go sep 0 "" after) = String stopc h).
  { destruct Hafter as [-> | [t ->]]; [left; reflexivity |].
    cbn [Py.split_go]. destruct (Py.startswith sep (String stopc t)).
    - left. reflexivity.
    - right. rewrite (split_go_head sep (String stopc "") t). simpl. eauto. }
  pose proof (free_of_starts_later stopc id) as Hfree.
  destruct Hh as [-> | [h ->]].
  - rewrite (split_go_pass _ _ _ _ (Hfree "" H3)). simpl.
    apply rev_string_involutive.
  - rewrite (split_go_pass _ _ _ _ (Hfree _ H3)).
    cbn [Py.split_go Py.startswith]. rewrite Ascii.eqb_refl. simpl.
    apply rev_string_involutive.
Qed.

Lemma free_of_first_char (a : ascii) (sep' s tail : string) :
  free_of a s = true -> starts_later (String a sep') s tail = true.
Proof.
  unfold free_of. induction s as [|x s IH]; [reflexivity |].
  cbn [all_chars starts_later]. intros H.
  apply andb_true_iff in H as [Hx Hs]. rewrite (IH Hs), andb_true_r.
  rewrite append_cons. cbn [Py.startswith]. rewrite Ascii.eqb_sym.
  apply negb_true_iff in Hx. rewrite Hx. reflexivity.
Qed.

(** X8: a link written as some text, then "/file/d/", then an id without a
    slash, then nothing or a slash and more, gives that id back, provided
    the "/file/d/" written is the first one of the link. *)
Theorem file_link_round_trip (pre id after : string) :
  starts_later "/file/d/" pre ("/file/d/" ++ id ++ after) = true ->
  free_of "/" id = true ->
  after = "" \/ (exists t, after = String "/" t) ->
  extract_drive_file_id (pre ++ "/file/d/" ++ id ++ after) = Some id.
Proof.
  intros H1 H3 Hafter. unfold extract_drive_file_id.
  assert (Hc : Py.contains "/file/d/" (pre ++ "/file/d/" ++ id ++ after) = true)
    by (apply contains_spec; eauto).
  rewrite Hc. f_equal.
  apply (between_round_trip "/" "/" "file/d/" pre id after H1);
    [apply free_of_first_char, H3 | exact H3 | exact Hafter].
Qed.

Lemma file_link_round_trip_witness :
  extract_drive_file_id
    ("https://drive.google.com" ++ "/file/d/" ++ "1AbCdEf" ++ "/view?usp=sharing")
  = Some "1AbCdEf".
Proof.
  refine (file_link_round_trip "https://drive.google.com" "1AbCdEf"
            "/view?usp=sharing" eq_refl eq_refl _).
  right. eexists. reflexivity.
Defined.

(** X9: a link without "/file/d/", written as some text, then "id=", then an
    id with neither "&" nor "id=" in it, then nothing or "&" and more,
    gives that id back, provided the "id=" written is the first one. *)
Theorem id_link_round_trip (pre id after : string) :
  Py.contains "/file/d/" (pre ++ "id=" ++ id ++ after) = false ->
  starts_later "id=" pre ("id=" ++ id ++ after) = true ->
  starts_later "id=" id after = true ->
  free_of "&" id = true ->
  after = "" \/ (exists t, after = String "&" t) ->
  extract_drive_file_id (pre ++ "id=" ++ id ++ after) = Some id.
Proof.
  intros H0 H1 H2 H3 Hafter. unfold extract_drive_file_id. rewrite H0.
  assert (Hc : Py.contains "id=" (pre ++ "id=" ++ id ++ after) = true)
    by (apply contains_spec; eauto).
  rewrite Hc. f_equal.
  exact (between_round_trip "i" "&" "d=" pre id after H1 H2 H3 Hafter).
Qed.

Lemma id_link_round_trip_witness :
  extract_drive_file_id
    ("https://drive.google.com/open?" ++ "id=" ++ "1AbCdEf" ++ "&usp=sharing")
  = Some "1AbCdEf".
Proof.
  refine (id_link_round_trip "https://drive.google.com/open?" "1AbCdEf"
            "&usp=sharing" eq_refl eq_refl eq_refl eq_refl _).
  right. eexists. reflexivity.
Defined.

Lemma split_go_head_free (c : ascii) (cur s : string) :
  free_of c cur = true ->
  free_of c (hd "" (Py.split_go (String c "") O cur s)) = true.
Proof.
  unfold free_of. revert cur. induction s as [|x s IH]; intros cur Hcur.
  - simpl. rewrite all_chars_rev. exact Hcur.
  - cbn [Py.split_go Py.startswith]. destruct (Ascii.eqb c x) eqn:E.
    + simpl. rewrite all_chars_rev. exact Hcur.
    + apply IH. cbn [all_chars]. rewrite Ascii.eqb_sym, E. exact Hcur.
Qed.

(** X10: the file id taken from a link never contains the character that
    ends it: no slash for a "/file/d/" link, no "&" for an "id=" link; and
    an empty id counts as no id for [install_mod]. *)
Theorem extracted_id_is_delimited (drive_link file_id : string) :
  extract_drive_file_id drive_link = Some file_id ->
  (if Py.contains "/file/d/" drive_link
   then free_of "/" file_id else free_of "&" file_id) = true
  /\ (usable (Some file_id) = None <-> file_id = "").
Proof.
  intros H. split.
  - unfold extract_drive_file_id in H.
    destruct (Py.contains "/file/d/" drive_link).
    + injection H as <-. apply split_go_head_free. reflexivity.
    + destruct (Py.contains "id=" drive_link); [| discriminate].
      injection H as <-. apply split_go_head_free. reflexivity.
  - unfold usable. destruct file_id; simpl; split; congruence.
Qed.

Lemma extracted_id_is_delimited_witness :
  free_of "&" "XYZ" = true.
Proof.
  exact (proj1 (extracted_id_is_delimited
                  "https://drive.google.com/open?id=XYZ&x=1" "XYZ" eq_refl)).
Defined.

(** ** Attribute changes keep the files and their sizes *)

Lemma insert_as_alter (g : File -> File) (p : string) (f : File)
    (fs : gmap string File) :
  fs !! p = Some f -> <[p := g f]> fs = alter g p fs.
Proof.
  intros Hf. apply map_eq. intros q. destruct (decide (p = q)) as [<- | Hne].
  - rewrite lookup_insert_eq, lookup_alter_eq, Hf. reflexivity.
  - rewrite lookup_insert_ne, lookup_alter_ne by exact Hne. reflexivity.
Qed.

Lemma alter_nothing (p : string) (fs : gmap string File) :
  fs = alter (fun f => f) p fs.
Proof.
  apply map_eq. intros q. destruct (decide (p = q)) as [<- | Hne].
  - rewrite lookup_alter_eq. destruct (fs !! p); reflexivity.
  - rewrite lookup_alter_ne by exact Hne. reflexivity.
Qed.

Lemma alter_alter (g h : File -> File) (p : string) (fs : gmap string File) :
  alter g p (alter h p fs) = alter (fun f => g (h f)) p fs.
Proof.
  apply map_eq. intros q. destruct (decide (p = q)) as [<- | Hne].
  - rewrite !lookup_alter_eq. destruct (fs !! p); reflexivity.
  - rewrite !lookup_alter_ne by exact Hne. reflexivity.
Qed.

Lemma os_system_alters (env : Env) (cmd p : string) (g : File -> File)
    (fs : gmap string File) :
  (forall f, size (g f) = size f) ->
  exists h, (forall f, size (h f) = size f)
            /\ files (os_system env cmd p g fs) = alter h p fs.
Proof.
  intros Hg. unfold os_system. cbn [files].
  destruct (refused env (Shell cmd)).
  - exists (fun f => f). split; [reflexivity | apply alter_nothing].
  - exists g. split; [exact Hg | reflexivity].
Qed.

Lemma os_chmod_alters (env : Env) (p : string) (m : Z) (fs : gmap string File) :
  exists h, (forall f, size (h f) = size f)
            /\ files (os_chmod env p m fs) = alter h p fs.
Proof.
  unfold os_chmod. destruct (fs !! p) as [f|] eqn:Hf;
    [destruct (refused env (Chmod p m)) |]; cbn [files].
  - exists (fun f => f). split; [reflexivity | apply alter_nothing].
  - exists (set_mode m). split; [reflexivity |].
    apply (insert_as_alter (set_mode m)), Hf.
  - exists (fun f => f). split; [reflexivity | apply alter_nothing].
Qed.

Lemma bind_alters (m k : M unit) (p : string) (fs : gmap string File) :
  (forall fs0, exists h, (forall f, size (h f) = size f)
                         /\ files (m fs0) = alter h p fs0) ->
  (forall fs0, exists h, (forall f, size (h f) = size f)
                         /\ files (k fs0) = alter h p fs0) ->
  exists h, (forall f, size (h f) = size f)
            /\ files ((run m; k) fs) = alter h p fs.
Proof.
  intros Hm Hk. unfold bind. destruct (Hm fs) as (h1 & Hs1 & E1).
  destruct (m fs) as [[[]|e] fs1 ev1]; cbn [files] in *.
  - destruct (Hk fs1) as (h2 & Hs2 & E2).
    destruct (k fs1) as [r2 fs2 ev2]. cbn [files] in *.
    exists (fun f => h2 (h1 f)). split.
    + intros f. rewrite Hs2, Hs1. reflexivity.
    + rewrite E2, E1. apply alter_alter.
  - exists h1. split; assumption.
Qed.

(** What protect and unprotect can do to the files: change attributes of
    the file they are given, if it exists. *)
Lemma attributes_alter (host : Host) (env : Env) (p : string)
    (fs : gmap string File) :
  (exists h, (forall f, size (h f) = size f)
             /\ files (set_file_attributes host env p fs) = alter h p fs)
  /\ (exists h, (forall f, size (h f) = size f)
                /\ files (remove_file_attributes host env p fs) = alter h p fs).
Proof.
  unfold set_file_attributes, remove_file_attributes.
  destruct (system host); split;
    try (apply os_system_alters; intros []; reflexivity);
    try apply os_chmod_alters;
    apply bind_alters; intros fs0;
    try (apply os_system_alters; intros []; reflexivity);
    apply os_chmod_alters.
Qed.

(** ** The download thread, in full *)

Lemma os_rename_events (host : Host) (env : Env) (src dst : string)
    (fs : gmap string File) :
  events (os_rename host env src dst fs) = [Mutate (Rename src dst)].
Proof.
  unfold os_rename. destruct (fs !! src) as [f|]; [| reflexivity].
  destruct (refused env (Rename src dst)); [reflexivity |].
  destruct (is_windows host && _); reflexivity.
Qed.

(** [download] once the transfer has returned with a staged file of at
    least 500,000 bytes. *)
Lemma download_large_run (host : Host) (env : Env) (url destination : string)
    (fs : gmap string File) (f : File) :
  let temp_file := destination ++ ".tmp" in
  let fs1 := files (gdown_download env url temp_file fs) in
  res (gdown_download env url temp_file fs) = Ok tt ->
  fs1 !! temp_file = Some f -> 500000 <= size f ->
  download host env url destination fs =
  let start := [Label "Initializing Download..."; Bar 0;
                Mutate (Fetch url temp_file)] in
  let report e := [LogError ("Download failed: " ++ str e);
                   ShowError "Error" ("Failed to download mod: " ++ str e);
                   Label "Download Failed"] in
  let mv := os_rename host env temp_file destination fs1 in
  match res mv with
  | Raise e =>
      MkRun (Ok false) (files mv)
        (start ++ progress_events ++ events mv ++ report e)%list
  | Ok _ =>
      let pr := set_file_attributes host env destination (files mv) in
      match res pr with
      | Raise e =>
          MkRun (Ok false) (files pr)
            (start ++ progress_events ++ events mv ++ events pr ++ report e)%list
      | Ok _ =>
          MkRun (Ok true) (files pr)
            (start ++ progress_events ++ events mv ++ events pr
             ++ [Label "Mod Installed!"; Bar 100;
                 ShowInfo "Success"
                   (path_basename host destination ++ " installed successfully!");
                 Refresh])%list
      end
  end.
Proof.
  intros temp_file fs1 Hret Hf Hsize. cbv zeta.
  assert (Hlt : (size f <? 500000) = false) by (apply Z.ltb_ge; exact Hsize).
  assert (Hev : events (gdown_download env url temp_file fs)
                = [Mutate (Fetch url temp_file)]).
  { unfold gdown_download. destruct (transfer env); reflexivity. }
  unfold download. fold temp_file. rewrite progress_loop_run.
  subst fs1.
  cbv [try_except bind emit ret os_path_exists os_path_getsize load_mod_list negb].
  destruct (gdown_download env url temp_file fs) as [[[]|e] fs1 ev1];
    [| discriminate].
  cbn [res files events] in *. subst ev1.
  repeat (rewrite ?Hf, ?Hlt; cbv beta iota).
  destruct (os_rename host env temp_file destination fs1) as [[[]|e] fs2 ev2];
    cbn [res files events]; [| rewrite <- ?app_assoc; reflexivity].
  destruct (set_file_attributes host env destination fs2) as [[[]|e] fs3 ev3];
    cbn [res files events app]; rewrite <- ?app_assoc; reflexivity.
Qed.

Lemma os_rename_cases (host : Host) (env : Env) (src dst : string)
    (fs : gmap string File) :
  (res (os_rename host env src dst fs) = Ok tt
   /\ exists f, fs !! src = Some f
                /\ files (os_rename host env src dst fs)
                   = <[dst := f]> (delete src fs))
  \/ (exists e, res (os_rename host env src dst fs) = Raise e)
     /\ files (os_rename host env src dst fs) = fs.
Proof.
  unfold os_rename. destruct (fs !! src) as [f|]; [| right; eauto].
  destruct (refused env (Rename src dst)); [right; eauto |].
  destruct (is_windows host && _); [right; eauto |].
  left. eauto.
Qed.

Lemma gdown_download_cases (env : Env) (url output : string)
    (fs : gmap string File) :
  (exists e, res (gdown_download env url output fs) = Raise e)
  \/ res (gdown_download env url output fs) = Ok tt.
Proof.
  unfold gdown_download. destruct (transfer env); eauto.
Qed.

Ltac find_event := solve [simpl; repeat (first [left; reflexivity | right])].

(** X12: the download thread always ends with [True] or [False], and
    changes no file other than the final path and the staging path.  It
    ends with [True] only with a file of at least 500,000 bytes at the
    final path, no staged file left, after a rename of the one onto the
    other; it ends with [False] only after an error box and the label
    "Download Failed". *)
Theorem download_outcome (host : Host) (env : Env) (url destination : string)
    (fs : gmap string File) :
  let r := download host env url destination fs in
  (res r = Ok true \/ res r = Ok false)
  /\ (forall q, q <> destination -> q <> destination ++ ".tmp" ->
        files r !! q = fs !! q)
  /\ (res r = Ok true ->
        (exists f, files r !! destination = Some f /\ 500000 <= size f)
        /\ files r !! (destination ++ ".tmp") = None
        /\ In (Mutate (Rename (destination ++ ".tmp") destination)) (events r))
  /\ (res r = Ok false ->
        (exists msg, In (ShowError "Error" msg) (events r))
        /\ In (Label "Download Failed") (events r)).
Proof.
  cbv zeta. set (temp_file := destination ++ ".tmp").
  assert (Hne : temp_file <> destination) by apply staging_differs.
  destruct (gdown_download_cases env url temp_file fs) as [[e He] | Hret].
  { rewrite (download_broken_run host env url destination fs e He).
    cbn [res files events]. split; [right; reflexivity |].
    split; [reflexivity |]. split; [discriminate |]. intros _.
    split; [eexists |]; find_event. }
  set (fs1 := files (gdown_download env url temp_file fs)).
  assert (Hfs1 : forall q, q <> temp_file -> fs1 !! q = fs !! q).
  { intros q Hq. apply gdown_download_elsewhere, Hq. }
  destruct (fs1 !! temp_file) as [f|] eqn:Hf.
  2: { assert (Hsmall : forall f, fs1 !! temp_file = Some f -> size f < 500000)
         by (intros f Hf'; congruence).
       rewrite (download_small_run host env url destination fs Hret Hsmall).
       fold temp_file. fold fs1. rewrite Hf. cbn [res files events].
       split; [right; reflexivity |]. split.
       { intros q Hq1 Hq2. rewrite lookup_delete_ne by congruence.
         apply Hfs1, Hq2. }
       split; [discriminate |]. intros _.
       split; [eexists |]; apply in_or_app; right; apply in_or_app; right;
         find_event. }
  destruct (Z.lt_ge_cases (size f) 500000) as [Hlt | Hge].
  { assert (Hsmall : forall f, fs1 !! temp_file = Some f -> size f < 500000)
      by (intros f' Hf'; congruence).
    rewrite (download_small_run host env url destination fs Hret Hsmall).
    fold temp_file. fold fs1. rewrite Hf.
    destruct (res (os_remove host env temp_file fs1)) as [[]|e];
      cbn [res files events]; (split; [right; reflexivity |]); split;
      try (split; [discriminate |]; intros _;
           split; [eexists |]; apply in_or_app; right; apply in_or_app; right;
           find_event).
    - intros q Hq1 Hq2. rewrite lookup_delete_ne by congruence. apply Hfs1, Hq2.
    - intros q Hq1 Hq2. apply Hfs1, Hq2. }
  rewrite (download_large_run host env url destination fs f Hret Hf Hge).
  fold temp_file. fold fs1. cbv zeta.
  pose proof (os_rename_events host env temp_file destination fs1) as Hmv.
  destruct (os_rename_cases host env temp_file destination fs1)
    as [[Hok (f' & Hf' & Hfiles)] | [[e He] Hfiles]].
  2: { rewrite He, Hfiles, Hmv. cbn [res files events].
       split; [right; reflexivity |]. split; [intros q _ Hq2; apply Hfs1, Hq2 |].
       split; [discriminate |]. intros _.
       split; [eexists |]; apply in_or_app; right; apply in_or_app; right;
         find_event. }
  rewrite Hok, Hfiles, Hmv. rewrite Hf in Hf'. injection Hf' as <-.
  set (fs2 := <[destination := f]> (delete temp_file fs1)).
  destruct (attributes_alter host env destination fs2) as [(h & Hsize & Halter) _].
  assert (Hother : forall q, q <> destination -> q <> temp_file ->
            files (set_file_attributes host env destination fs2) !! q = fs !! q).
  { intros q Hq1 Hq2. rewrite Halter, lookup_alter_ne by congruence.
    subst fs2. rewrite lookup_insert_ne, lookup_delete_ne by congruence.
    apply Hfs1, Hq2. }
  destruct (res (set_file_attributes host env destination fs2)) as [[]|e];
    cbn [res files events].
  - split; [left; reflexivity |]. split; [exact Hother |].
    split; [| discriminate]. intros _. split; [| split].
    + exists (h f). rewrite Halter, lookup_alter_eq. subst fs2.
      rewrite lookup_insert_eq. split; [reflexivity | rewrite Hsize; exact Hge].
    + rewrite Halter, lookup_alter_ne by congruence. subst fs2.
      rewrite lookup_insert_ne, lookup_delete_eq by congruence. reflexivity.
    + do 2 (apply in_or_app; right). left. reflexivity.
  - split; [right; reflexivity |]. split; [exact Hother |].
    split; [discriminate |]. intros _.
    split; [eexists |]; do 4 (apply in_or_app; right); find_event.
Qed.

(** ** A whole install request *)

Lemma protect_quiet (host : Host) (env : Env) (p : string) (f : File)
    (fs : gmap string File) :
  (forall m, refused env m = false) -> fs !! p = Some f ->
  exists f',
    res (set_file_attributes host env p fs) = Ok tt
    /\ files (set_file_attributes host env p fs) = <[p := f']> fs
    /\ size f' = size f
    /\ (system host = Windows ->
        hidden f' = true /\ system_attr f' = true /\ readonly f' = true)
    /\ (system host = Darwin -> hidden f' = true /\ mode f' = 292).
Proof.
  intros Hq Hf. unfold set_file_attributes.
  destruct (system host); cbv [bind os_system os_chmod];
    rewrite ?Hq, ?lookup_alter_eq, ?Hf; cbn [fmap option_fmap option_map];
    rewrite ?Hq; cbn [res files].
  - exists (set_flags true true true f).
    split; [reflexivity |]. split.
    + symmetry. apply (insert_as_alter (set_flags true true true)), Hf.
    + repeat split; try reflexivity; discriminate.
  - eexists. split; [reflexivity |]. split.
    + rewrite insert_alter_same. reflexivity.
    + repeat split; try reflexivity; discriminate.
  - eexists. split; [reflexivity |]. split; [reflexivity |].
    repeat split; try reflexivity; discriminate.
Qed.

Lemma update_key_files (env : Env) (name : string) (fs : gmap string File) :
  files (update_key env name fs) = fs.
Proof.
  unfold update_key, bind. rewrite post_update_serial_key_run. cbv zeta.
  destruct (key_update env) as [msg | status text body]; [reflexivity |].
  destruct (status =? 200); [destruct (Py.truthy _) |]; reflexivity.
Qed.

Lemma run_download_task (host : Host) (env : Env)
    (url destination name : string) (fs : gmap string File) :
  files (run_task host env (Download url destination name) fs)
  = files (download host env url destination fs).
Proof.
  cbn [run_task]. unfold bind, ret.
  destruct (download host env url destination fs) as [[b|e] fs1 ev1]; reflexivity.
Qed.

Lemma clear_quiet (host : Host) (env : Env) (p : string) (f : File)
    (fs : gmap string File) :
  (forall m, refused env m = false) -> fs !! p = Some f ->
  (run remove_file_attributes host env p; os_remove host env p) fs
  = MkRun (Ok tt) (delete p fs)
      (events (remove_file_attributes host env p fs) ++ [Mutate (Remove p)])%list.
Proof.
  intros Hq Hf.
  destruct (unprotect_quiet host env p f fs Hq Hf) as (f' & Hres & Hl & Hd & Hro).
  unfold bind.
  destruct (remove_file_attributes host env p fs) as [[[]|e] fs1 ev1];
    cbn [res files events] in *; [| discriminate].
  unfold os_remove. rewrite Hl, Hq.
  assert (Hw : is_windows host && readonly f' = false).
  { destruct (is_windows host); [rewrite Hro |]; reflexivity. }
  rewrite Hw, Hd. reflexivity.
Qed.

(** The caller's part of an accepted request when nothing is refused: the
    old file, if any, is unprotected and deleted, then the two threads are
    started. *)
Lemma install_accepted_quiet (host : Host) (env : Env)
    (mod_name internal_name drive_link key file_id dir : string)
    (fs : gmap string File) :
  existsb (record_matches mod_name key) (fetched env) = true ->
  usable (extract_drive_file_id drive_link) = Some file_id ->
  MOD_INSTALL_PATH host = Some dir ->
  (forall m, refused env m = false) ->
  let mod_path := path_join host dir (internal_name ++ ".scs") in
  install_mod host env mod_name internal_name drive_link key fs =
  MkRun (Ok tt) (delete mod_path fs)
    (fetch_events env
     ++ [Label ("Preparing " ++ mod_name ++ "..."); Bar 0]
     ++ (if fs !! mod_path is Some _
         then events (remove_file_attributes host env mod_path fs)
              ++ [Mutate (Remove mod_path)]
         else [])
     ++ [ThreadStart (Download ("https://drive.google.com/uc?id=" ++ file_id)
                               mod_path internal_name);
         ThreadStart (UpdateKey internal_name)])%list.
Proof.
  intros Hkey Hid Hdir Hq mod_path.
  rewrite install_mod_run. cbv zeta.
  rewrite (install_scan_accept _ _ _ _ _ _ _ _ Hkey), install_matched_run, Hid.
  unfold join_install_path. rewrite Hdir. cbv [ret]. fold mod_path. cbv zeta.
  destruct (fs !! mod_path) as [f|] eqn:Hf.
  - rewrite (clear_quiet host env mod_path f fs Hq Hf). cbn [res files events].
    reflexivity.
  - cbn [res files events app]. rewrite delete_id by exact Hf. reflexivity.
Qed.

Lemma started_app (a b : list event) :
  started (a ++ b) = (started a ++ started b)%list.
Proof. unfold started. apply omap_app. Qed.

Lemma started_none (l : list event) :
  forallb (fun e => negb (is_thread_start e)) l = true -> started l = [].
Proof.
  induction l as [|e l IH]; [reflexivity |]. cbn [forallb]. intros H.
  apply andb_true_iff in H as [He Hl]. unfold started in *. cbn [omap].
  destruct e; try discriminate; cbn; apply IH, Hl.
Qed.

Lemma unprotect_events_no_thread (host : Host) (env : Env) (p : string)
    (fs : gmap string File) :
  forallb (fun e => negb (is_thread_start e))
          (events (remove_file_attributes host env p fs)) = true.
Proof.
  apply forallb_forall. intros e He.
  destruct (unprotect_events host env p fs) as [_ Hkind].
  destruct (Hkind e He) as [[c ->] | [m ->]]; reflexivity.
Qed.

(** A transfer of at least 500,000 bytes, nothing refused, and (on Windows)
    no file at the destination: the file is placed and protected. *)
Lemma download_quiet_run (host : Host) (env : Env) (url destination : string)
    (n : Z) (fs : gmap string File) :
  (forall m, refused env m = false) ->
  transfer env = Fetched n -> 500000 <= n ->
  (is_windows host = true -> fs !! destination = None) ->
  exists f',
    res (download host env url destination fs) = Ok true
    /\ files (download host env url destination fs)
       = <[destination := f']> (delete (destination ++ ".tmp") fs)
    /\ size f' = n
    /\ (system host = Windows ->
        hidden f' = true /\ system_attr f' = true /\ readonly f' = true)
    /\ (system host = Darwin -> hidden f' = true /\ mode f' = 292).
Proof.
  intros Hq Ht Hn Hwin. set (temp_file := destination ++ ".tmp").
  assert (Hne : temp_file <> destination) by apply staging_differs.
  assert (Hg : gdown_download env url temp_file fs
               = MkRun (Ok tt) (<[temp_file := new_file n]> fs)
                       [Mutate (Fetch url temp_file)]).
  { unfold gdown_download. rewrite Ht. reflexivity. }
  assert (Hlarge := download_large_run host env url destination fs (new_file n)).
  cbv zeta in Hlarge. fold temp_file in Hlarge.
  rewrite Hg in Hlarge. cbn [res files] in Hlarge.
  rewrite Hlarge; [| reflexivity | apply lookup_insert_eq | exact Hn].
  clear Hlarge. cbv zeta.
  assert (Hmv : os_rename host env temp_file destination
                  (<[temp_file := new_file n]> fs)
                = MkRun (Ok tt)
                    (<[destination := new_file n]> (delete temp_file fs))
                    [Mutate (Rename temp_file destination)]).
  { unfold os_rename. rewrite lookup_insert_eq, Hq.
    rewrite lookup_insert_ne by exact Hne.
    assert (Hw : is_windows host
                 && match fs !! destination with Some _ => true | None => false end
                 = false).
    { destruct (is_windows host); [rewrite Hwin |]; reflexivity. }
    rewrite Hw, delete_insert_eq. reflexivity. }
  rewrite Hmv. cbn [res files events].
  destruct (protect_quiet host env destination (new_file n)
              (<[destination := new_file n]> (delete temp_file fs)) Hq
              (lookup_insert_eq _ _ _))
    as (f' & Hres & Hfiles & Hsize & Hwinattr & Hmac).
  rewrite Hres, Hfiles. cbn [res files]. exists f'.
  rewrite insert_insert_eq. repeat split; try assumption;
    first [apply Hwinattr; assumption | apply Hmac; assumption].
Qed.

(** With nothing refused, the files after an accepted request and its
    threads are those the download thread leaves, started on the files
    without the old asset. *)
Lemma install_files_quiet (host : Host) (env : Env)
    (mod_name internal_name drive_link key file_id dir : string)
    (fs : gmap string File) :
  existsb (record_matches mod_name key) (fetched env) = true ->
  usable (extract_drive_file_id drive_link) = Some file_id ->
  MOD_INSTALL_PATH host = Some dir ->
  (forall m, refused env m = false) ->
  let mod_path := path_join host dir (internal_name ++ ".scs") in
  install_files host env fs mod_name internal_name drive_link key
  = files (download host env ("https://drive.google.com/uc?id=" ++ file_id)
                    mod_path (delete mod_path fs)).
Proof.
  intros Hkey Hid Hdir Hq mod_path. unfold install_files. cbv zeta.
  rewrite (install_accepted_quiet host env mod_name internal_name drive_link
             key file_id dir fs Hkey Hid Hdir Hq).
  fold mod_path. cbn [files events].
  rewrite !started_app.
  rewrite (started_none (fetch_events env)).
  2: { apply forallb_forall. intros e He.
       apply fetch_events_quiet in He as (_ & -> & _). reflexivity. }
  assert (Hclear : started (if fs !! mod_path is Some _
                            then events (remove_file_attributes host env mod_path fs)
                                 ++ [Mutate (Remove mod_path)]
                            else [])%list = []).
  { destruct (fs !! mod_path); [| reflexivity].
    apply started_none. rewrite forallb_app, unprotect_events_no_thread.
    reflexivity. }
  rewrite Hclear.
  change (started [Label ("Preparing " ++ mod_name ++ "..."); Bar 0])
    with (@nil task).
  change (started [ThreadStart
                     (Download ("https://drive.google.com/uc?id=" ++ file_id)
                               mod_path internal_name);
                   ThreadStart (UpdateKey internal_name)])
    with [Download ("https://drive.google.com/uc?id=" ++ file_id)
                   mod_path internal_name;
          UpdateKey internal_name].
  cbn [app fold_left].
  change (run_task host env (UpdateKey internal_name))
    with (update_key env internal_name).
  rewrite update_key_files. apply run_download_task.
Qed.

(** X13: an accepted request (some record matches the name and the trimmed
    key, the link yields an id, the system has an install folder) whose
    transfer brings at least 500,000 bytes, nothing being refused, ends,
    threads included, with the asset at its canonical path, of the size
    transferred and protected as the system allows; no staged file is
    left and no other file is touched. *)
Theorem install_places_protected_file (host : Host) (env : Env)
    (mod_name internal_name drive_link key file_id dir : string) (n : Z)
    (fs : gmap string File) :
  (exists md, In md (fetched env) /\ Mod_Name md = mod_name
              /\ Py.strip (Serial_Key md) = Py.strip key) ->
  usable (extract_drive_file_id drive_link) = Some file_id ->
  MOD_INSTALL_PATH host = Some dir ->
  (forall m, refused env m = false) ->
  transfer env = Fetched n -> 500000 <= n ->
  let mod_path := path_join host dir (internal_name ++ ".scs") in
  let after := install_files host env fs mod_name internal_name drive_link key in
  (exists f, after !! mod_path = Some f /\ size f = n
             /\ (system host = Windows ->
                 hidden f = true /\ system_attr f = true /\ readonly f = true)
             /\ (system host = Darwin -> hidden f = true /\ mode f = 292))
  /\ after !! (mod_path ++ ".tmp") = None
  /\ (forall q, q <> mod_path -> q <> mod_path ++ ".tmp" -> after !! q = fs !! q).
Proof.
  intros Hkey Hid Hdir Hq Ht Hn mod_path after. subst after.
  apply some_record_matches in Hkey.
  rewrite (install_files_quiet host env mod_name internal_name drive_link key
             file_id dir fs Hkey Hid Hdir Hq).
  fold mod_path.
  destruct (download_quiet_run host env
              ("https://drive.google.com/uc?id=" ++ file_id) mod_path n
              (delete mod_path fs) Hq Ht Hn (fun _ => lookup_delete_eq _ _))
    as (f' & _ & Hfiles & Hsize & Hwin & Hmac).
  rewrite Hfiles. split; [| split].
  - exists f'. rewrite lookup_insert_eq. auto.
  - rewrite lookup_insert_ne by (intros E; symmetry in E;
                                 exact (staging_differs _ E)).
    apply lookup_delete_eq.
  - intros q Hq1 Hq2.
    rewrite lookup_insert_ne, !lookup_delete_ne by congruence. reflexivity.
Qed.

Lemma install_places_protected_file_witness :
  install_files mac (calm [premium_truck] (Fetched 600000)) ∅
    "premium truck" "premium_truck" (Google_Drive_Link premium_truck)
    "ABCD1234XYZ999" !! (premium_truck_path ++ ".tmp") = None.
Proof.
  refine (proj1 (proj2 (install_places_protected_file mac
            (calm [premium_truck] (Fetched 600000))
            "premium truck" "premium_truck" (Google_Drive_Link premium_truck)
            "ABCD1234XYZ999" "1AbCdEf" (mod_dir mac) 600000 ∅
            _ eq_refl eq_refl (fun _ => eq_refl) eq_refl _))).
  - exists premium_truck. split; [left; reflexivity | split; reflexivity].
  - discriminate.
Defined.

(** X14: an accepted request whose transfer fails (it raises, leaves no
    file, or leaves fewer than 500,000 bytes), nothing being refused and no
    staged file lying around, ends with the files as they were except that
    the asset is absent: a failed re-install leaves the mod uninstalled. *)
Theorem failed_install_leaves_no_asset (host : Host) (env : Env)
    (mod_name internal_name drive_link key file_id dir : string)
    (fs : gmap string File) :
  (exists md, In md (fetched env) /\ Mod_Name md = mod_name
              /\ Py.strip (Serial_Key md) = Py.strip key) ->
  usable (extract_drive_file_id drive_link) = Some file_id ->
  MOD_INSTALL_PATH host = Some dir ->
  (forall m, refused env m = false) ->
  (forall n, transfer env = Fetched n -> n < 500000) ->
  let mod_path := path_join host dir (internal_name ++ ".scs") in
  fs !! (mod_path ++ ".tmp") = None ->
  install_files host env fs mod_name internal_name drive_link key
  = delete mod_path fs.
Proof.
  intros Hkey Hid Hdir Hq Hfail mod_path Hstale.
  apply some_record_matches in Hkey.
  rewrite (install_files_quiet host env mod_name internal_name drive_link key
             file_id dir fs Hkey Hid Hdir Hq).
  fold mod_path. set (url := "https://drive.google.com/uc?id=" ++ file_id).
  set (fs0 := delete mod_path fs). set (temp_file := mod_path ++ ".tmp").
  assert (Hstale0 : fs0 !! temp_file = None).
  { subst fs0. rewrite lookup_delete_ne by (intros E; symmetry in E;
                                            exact (staging_differs _ E)).
    exact Hstale. }
  destruct (gdown_download_cases env url temp_file fs0) as [[e He] | Hret].
  { rewrite (download_broken_run host env url mod_path fs0 e He). reflexivity. }
  assert (Hsmall : forall f, files (gdown_download env url temp_file fs0)
                             !! temp_file = Some f -> size f < 500000).
  { unfold gdown_download. destruct (transfer env) as [n| |msg] eqn:Ht;
      cbn [files]; intros f Hf.
    - rewrite lookup_insert_eq in Hf. injection Hf as <-. apply Hfail.
      reflexivity.
    - congruence.
    - congruence. }
  rewrite (download_small_run host env url mod_path fs0 Hret Hsmall).
  fold temp_file.
  assert (Hfiles : delete temp_file (files (gdown_download env url temp_file fs0))
                   = fs0).
  { unfold gdown_download. destruct (transfer env); cbn [files];
      rewrite ?delete_insert_eq; apply delete_id, Hstale0. }
  unfold gdown_download in *. unfold os_remove.
  destruct (transfer env) as [n| |msg]; cbn [res files] in *.
  - rewrite lookup_insert_eq, Hq. cbn [new_file readonly].
    rewrite andb_false_r. cbn [orb res files]. exact Hfiles.
  - rewrite Hstale0. cbn [res files]. exact Hfiles.
  - discriminate.
Qed.

Lemma failed_install_leaves_no_asset_witness :
  install_files mac (calm [premium_truck] (Fetched 400000)) truck_installed
    "premium truck" "premium_truck" (Google_Drive_Link premium_truck)
    "ABCD1234XYZ999"
  = delete premium_truck_path truck_installed.
Proof.
  refine (failed_install_leaves_no_asset mac
            (calm [premium_truck] (Fetched 400000))
            "premium truck" "premium_truck" (Google_Drive_Link premium_truck)
            "ABCD1234XYZ999" "1AbCdEf" (mod_dir mac) truck_installed
            _ eq_refl eq_refl (fun _ => eq_refl) _ eq_refl).
  - exists premium_truck. split; [left; reflexivity | split; reflexivity].
  - intros n Hn. injection Hn as <-. reflexivity.
Defined.

Lemma uninstall_quiet (host : Host) (env : Env) (internal_name dir : string)
    (f : File) (fs : gmap string File) :
  (forall m, refused env m = false) ->
  MOD_INSTALL_PATH host = Some dir ->
  fs !! path_join host dir (internal_name ++ ".scs") = Some f ->
  res (uninstall_mod host env internal_name fs) = Ok tt
  /\ files (uninstall_mod host env internal_name fs)
     = delete (path_join host dir (internal_name ++ ".scs")) fs.
Proof.
  intros Hq Hdir Hf.
  rewrite (uninstall_mod_run host env internal_name dir fs Hdir). cbv zeta.
  rewrite Hf.
  destruct (unprotect_quiet host env _ f fs Hq Hf) as (f' & Hres & Hl & Hd & Hro).
  rewrite Hres. unfold os_remove. rewrite Hl, Hq.
  assert (Hw : is_windows host && readonly f' = false).
  { destruct (is_windows host); [rewrite Hro |]; reflexivity. }
  rewrite Hw. cbn [orb res files]. split; [reflexivity | exact Hd].
Qed.

(** X15: after a successful install (as in X13), uninstalling the same
    internal name returns normally and removes the asset again: the files
    are the original ones without the asset and without a staged file, so
    on a folder that had neither, install followed by uninstall leaves the
    files exactly as they were. *)
Theorem install_then_uninstall (host : Host) (env : Env)
    (mod_name internal_name drive_link key file_id dir : string) (n : Z)
    (fs : gmap string File) :
  (exists md, In md (fetched env) /\ Mod_Name md = mod_name
              /\ Py.strip (Serial_Key md) = Py.strip key) ->
  usable (extract_drive_file_id drive_link) = Some file_id ->
  MOD_INSTALL_PATH host = Some dir ->
  (forall m, refused env m = false) ->
  transfer env = Fetched n -> 500000 <= n ->
  let mod_path := path_join host dir (internal_name ++ ".scs") in
  let installed :=
    install_files host env fs mod_name internal_name drive_link key in
  res (uninstall_mod host env internal_name installed) = Ok tt
  /\ files (uninstall_mod host env internal_name installed)
     = delete mod_path (delete (mod_path ++ ".tmp") fs)
  /\ (fs !! mod_path = None -> fs !! (mod_path ++ ".tmp") = None ->
      files (uninstall_mod host env internal_name installed) = fs).
Proof.
  intros Hkey Hid Hdir Hq Ht Hn mod_path installed.
  apply some_record_matches in Hkey.
  assert (Hinst : exists f', installed
            = <[mod_path := f']> (delete (mod_path ++ ".tmp") (delete mod_path fs))).
  { subst installed.
    rewrite (install_files_quiet host env mod_name internal_name drive_link key
               file_id dir fs Hkey Hid Hdir Hq).
    fold mod_path.
    destruct (download_quiet_run host env
                ("https://drive.google.com/uc?id=" ++ file_id) mod_path n
                (delete mod_path fs) Hq Ht Hn (fun _ => lookup_delete_eq _ _))
      as (f' & _ & Hfiles & _).
    exists f'. exact Hfiles. }
  destruct Hinst as [f' Hinst].
  assert (Hl : installed !! mod_path = Some f')
    by (rewrite Hinst; apply lookup_insert_eq).
  destruct (uninstall_quiet host env internal_name dir f' installed Hq Hdir Hl)
    as [Hres Hfiles].
  fold mod_path in Hfiles.
  assert (Hfinal : delete mod_path installed
                   = delete mod_path (delete (mod_path ++ ".tmp") fs)).
  { rewrite Hinst, delete_insert_eq.
    apply map_eq. intros q.
    destruct (decide (mod_path = q)) as [<- | Hne1];
      [rewrite !lookup_delete_eq; reflexivity |].
    rewrite !(lookup_delete_ne _ mod_path q) by exact Hne1.
    destruct (decide (mod_path ++ ".tmp" = q)) as [<- | Hne2];
      [rewrite !lookup_delete_eq; reflexivity |].
    rewrite !(lookup_delete_ne _ (mod_path ++ ".tmp") q) by exact Hne2.
    apply lookup_delete_ne, Hne1. }
  split; [exact Hres |]. rewrite Hfiles, Hfinal. split; [reflexivity |].
  intros H1 H2. rewrite (delete_id _ _ H2). apply delete_id, H1.
Qed.

Lemma install_then_uninstall_witness :
  files (uninstall_mod mac (calm [premium_truck] (Fetched 600000))
           "premium_truck"
           (install_files mac (calm [premium_truck] (Fetched 600000)) ∅
              "premium truck" "premium_truck"
              (Google_Drive_Link premium_truck) "ABCD1234XYZ999"))
  = delete premium_truck_path (delete (premium_truck_path ++ ".tmp") ∅).
Proof.
  refine (proj1 (proj2 (install_then_uninstall mac
            (calm [premium_truck] (Fetched 600000))
            "premium truck" "premium_truck" (Google_Drive_Link premium_truck)
            "ABCD1234XYZ999" "1AbCdEf" (mod_dir mac) 600000 ∅
            _ eq_refl eq_refl (fun _ => eq_refl) eq_refl _))).
  - exists premium_truck. split; [left; reflexivity | split; reflexivity].
  - discriminate.
Defined.

(** X16: re-installing over an asset that is there (request accepted,
    nothing refused): the caller deletes the old file before it starts any
    thread, so in every trace, whatever the schedule, the deletion comes
    before every thread start, and the caller leaves no file at the
    canonical path. *)
Theorem reinstall_clears_first (host : Host) (env : Env)
    (mod_name internal_name drive_link key file_id dir : string) (f : File)
    (fs : gmap string File) :
  (exists md, In md (fetched env) /\ Mod_Name md = mod_name
              /\ Py.strip (Serial_Key md) = Py.strip key) ->
  usable (extract_drive_file_id drive_link) = Some file_id ->
  MOD_INSTALL_PATH host = Some dir ->
  (forall m, refused env m = false) ->
  let mod_path := path_join host dir (internal_name ++ ".scs") in
  fs !! mod_path = Some f ->
  files (install_mod host env mod_name internal_name drive_link key fs)
    !! mod_path = None
  /\ forall t,
       install_trace host env fs mod_name internal_name drive_link key t ->
       precedes_all (Mutate (Remove mod_path)) is_thread_start t.
Proof.
  intros Hkey Hid Hdir Hq mod_path Hf.
  apply some_record_matches in Hkey.
  pose proof (install_accepted_quiet host env mod_name internal_name drive_link
                key file_id dir fs Hkey Hid Hdir Hq) as Hrun.
  cbv zeta in Hrun. fold mod_path in Hrun. rewrite Hf in Hrun.
  split.
  - rewrite Hrun. apply lookup_delete_eq.
  - intros t Ht. unfold install_trace in Ht. cbv zeta in Ht.
    rewrite Hrun in Ht. cbn [files events] in Ht.
    set (before := (fetch_events env
                    ++ [Label ("Preparing " ++ mod_name ++ "..."); Bar 0]
                    ++ events (remove_file_attributes host env mod_path fs))%list).
    assert (Hbefore : forallb (fun e => negb (is_thread_start e)) before = true).
    { subst before. rewrite !forallb_app, unprotect_events_no_thread.
      cbn [forallb is_thread_start negb andb]. rewrite andb_true_r.
      apply forallb_forall. intros e He.
      apply fetch_events_quiet in He as (_ & -> & _). reflexivity. }
    replace (fetch_events env
             ++ [Label ("Preparing " ++ mod_name ++ "..."); Bar 0]
             ++ (events (remove_file_attributes host env mod_path fs)
                 ++ [Mutate (Remove mod_path)])
             ++ [ThreadStart (Download ("https://drive.google.com/uc?id=" ++ file_id)
                                       mod_path internal_name);
                 ThreadStart (UpdateKey internal_name)])%list
      with (before ++ Mutate (Remove mod_path)
                   :: [ThreadStart (Download ("https://drive.google.com/uc?id=" ++ file_id)
                                             mod_path internal_name);
                       ThreadStart (UpdateKey internal_name)])%list in Ht.
    2: { subst before. rewrite <- !app_assoc. reflexivity. }
    destruct (interleavings_prefix _ _ _ _ _ _ Hbefore Ht) as (t' & -> & Ht').
    cbn [interleavings] in Ht'. destruct Ht' as (t'' & _ & ->).
    exists before, t''. split; [reflexivity |].
    exact Hbefore.
Qed.

Lemma reinstall_clears_first_witness :
  files (install_mod mac (calm [premium_truck] (Fetched 600000))
           "premium truck" "premium_truck" (Google_Drive_Link premium_truck)
           "ABCD1234XYZ999" truck_installed)
    !! premium_truck_path = None.
Proof.
  refine (proj1 (reinstall_clears_first mac
            (calm [premium_truck] (Fetched 600000))
            "premium truck" "premium_truck" (Google_Drive_Link premium_truck)
            "ABCD1234XYZ999" "1AbCdEf" (mod_dir mac) _ truck_installed
            _ eq_refl eq_refl (fun _ => eq_refl) eq_refl)).
  exists premium_truck. split; [left; reflexivity | split; reflexivity].
Defined.

(** X17: when the catalog cannot be had (no answer, a status other than
    200, a body that is not JSON), [fetch_mod_list] shows one error box and
    every install request, whatever its key, then ends with the invalid-key
    report and nothing else; the same holds, without the first box, for an
    empty catalog. *)
Theorem install_without_catalog (host : Host) (env : Env)
    (mod_name internal_name drive_link key : string) (fs : gmap string File) :
  (forall text md mods, catalog env <> Reply 200 text (Some (md :: mods))) ->
  install_mod host env mod_name internal_name drive_link key fs
  = MkRun (Ok tt) fs (fetch_events env ++ invalid_key_report)%list
  /\ ((forall text, catalog env <> Reply 200 text (Some [])) ->
      exists msg,
        fetch_events env
        = [HttpGet (API_URL ++ "get_available_mods"); ShowError "Error" msg])
  /\ ((exists text, catalog env = Reply 200 text (Some [])) ->
      fetch_events env = [HttpGet (API_URL ++ "get_available_mods")]).
Proof.
  intros Hcat.
  assert (Hfetched : fetched env = []).
  { unfold fetched, fetch_mod_list.
    cbv [try_except bind requests_get emit ret raise r_json].
    destruct (catalog env) as [msg | status text [[|md mods]|]];
      try reflexivity; destruct (Z.eqb_spec status 200) as [-> | Hne];
      try reflexivity.
    exfalso. eapply Hcat. reflexivity. }
  split; [| split].
  - rewrite install_mod_run. cbv zeta. rewrite Hfetched. reflexivity.
  - intros Hnonempty. unfold fetch_events, fetch_mod_list.
    cbv [try_except bind requests_get emit ret raise r_json].
    destruct (catalog env) as [msg | status text [[|md mods]|]];
      try (eexists; reflexivity);
      destruct (Z.eqb_spec status 200) as [-> | Hne];
      try (eexists; reflexivity).
    + exfalso. eapply Hnonempty. reflexivity.
    + exfalso. eapply Hcat. reflexivity.
  - intros [text H]. unfold fetch_events, fetch_mod_list. rewrite H. reflexivity.
Qed.

Lemma install_without_catalog_witness :
  install_mod mac
    (with_catalog (Unreachable "connection refused") (calm [] NoOutput))
    "premium truck" "premium_truck" (Google_Drive_Link premium_truck)
    "ABCD1234XYZ999" truck_installed
  = MkRun (Ok tt) truck_installed
      [HttpGet "http://lynx96.pythonanywhere.com/get_available_mods";
       ShowError "Error" "Error fetching mod list: connection refused";
       ShowError "Error" "Invalid serial key!"; Label "Invalid Key"].
Proof.
  refine (proj1 (install_without_catalog mac
            (with_catalog (Unreachable "connection refused") (calm [] NoOutput))
            "premium truck" "premium_truck" (Google_Drive_Link premium_truck)
            "ABCD1234XYZ999" truck_installed _)).
  intros text md mods H. discriminate.
Defined.

(** X18: the download thread started on a destination that already holds a
    file (the transfer bringing at least 500,000 bytes, nothing refused).
    On Windows the rename raises: the thread ends with [False], the old
    file stays and the staged file is left beside it.  Elsewhere the rename
    replaces the old file: the thread ends with [True] and the destination
    holds the transferred bytes. *)
Theorem download_onto_existing (host : Host) (env : Env)
    (url destination : string) (n : Z) (old : File) (fs : gmap string File) :
  (forall m, refused env m = false) ->
  transfer env = Fetched n -> 500000 <= n ->
  fs !! destination = Some old ->
  let r := download host env url destination fs in
  (is_windows host = true ->
     res r = Ok false
     /\ files r !! destination = Some old
     /\ files r !! (destination ++ ".tmp") = Some (new_file n)
     /\ In (Label "Download Failed") (events r))
  /\ (is_windows host = false ->
      res r = Ok true
      /\ (exists f, files r !! destination = Some f /\ size f = n)
      /\ files r !! (destination ++ ".tmp") = None).
Proof.
  intros Hq Ht Hn Hold. cbv zeta. set (temp_file := destination ++ ".tmp").
  assert (Hne : temp_file <> destination) by apply staging_differs.
  split.
  - intros Hwin.
    assert (Hg : gdown_download env url temp_file fs
                 = MkRun (Ok tt) (<[temp_file := new_file n]> fs)
                         [Mutate (Fetch url temp_file)]).
    { unfold gdown_download. rewrite Ht. reflexivity. }
    pose proof (download_large_run host env url destination fs (new_file n))
      as Hlarge.
    cbv zeta in Hlarge. fold temp_file in Hlarge.
    rewrite Hg in Hlarge. cbn [res files] in Hlarge.
    rewrite Hlarge; [| reflexivity | apply lookup_insert_eq | exact Hn].
    clear Hlarge.
    assert (Hmv : os_rename host env temp_file destination
                    (<[temp_file := new_file n]> fs)
                  = MkRun (Raise (FileExistsError destination))
                      (<[temp_file := new_file n]> fs)
                      [Mutate (Rename temp_file destination)]).
    { unfold os_rename. rewrite lookup_insert_eq, Hq.
      rewrite lookup_insert_ne by exact Hne. rewrite Hold, Hwin. reflexivity. }
    rewrite Hmv. cbn [res files events].
    split; [reflexivity |]. split; [| split].
    + rewrite lookup_insert_ne by exact Hne. exact Hold.
    + apply lookup_insert_eq.
    + do 2 (apply in_or_app; right). find_event.
  - intros Hwin.
    destruct (download_quiet_run host env url destination n fs Hq Ht Hn)
      as (f' & Hres & Hfiles & Hsize & _).
    { intros H. congruence. }
    fold temp_file in Hfiles. rewrite Hres, Hfiles.
    split; [reflexivity |]. split.
    + exists f'. rewrite lookup_insert_eq. auto.
    + rewrite lookup_insert_ne by congruence. apply lookup_delete_eq.
Qed.

Lemma download_onto_existing_witness :
  res (download mac (calm [premium_truck] (Fetched 600000)) truck_url
         premium_truck_path truck_installed) = Ok true.
Proof.
  refine (proj1 (proj2 (download_onto_existing mac
            (calm [premium_truck] (Fetched 600000)) truck_url
            premium_truck_path 600000 _ truck_installed
            (fun _ => eq_refl) eq_refl _ eq_refl) eq_refl)).
  discriminate.
Defined.

(** X19: the size check cannot tell a fresh transfer from an old staged
    file.  When the transfer returns without writing anything and a staged
    file of at least 500,000 bytes is lying at the staging path, the thread
    renames that file onto the destination and reports success. *)
Theorem stale_staging_is_installed (host : Host) (env : Env)
    (url destination : string) (stale : File) (fs : gmap string File) :
  (forall m, refused env m = false) ->
  transfer env = NoOutput ->
  fs !! (destination ++ ".tmp") = Some stale -> 500000 <= size stale ->
  fs !! destination = None ->
  let r := download host env url destination fs in
  res r = Ok true
  /\ (exists f, files r !! destination = Some f /\ size f = size stale)
  /\ files r !! (destination ++ ".tmp") = None
  /\ In (Label "Mod Installed!") (events r).
Proof.
  intros Hq Ht Hstale Hsize Hdest. cbv zeta.
  set (temp_file := destination ++ ".tmp") in *.
  assert (Hne : temp_file <> destination) by apply staging_differs.
  assert (Hg : gdown_download env url temp_file fs
               = MkRun (Ok tt) fs [Mutate (Fetch url temp_file)]).
  { unfold gdown_download. rewrite Ht. reflexivity. }
  pose proof (download_large_run host env url destination fs stale) as Hlarge.
  cbv zeta in Hlarge. fold temp_file in Hlarge.
  rewrite Hg in Hlarge. cbn [res files] in Hlarge.
  rewrite Hlarge; [| reflexivity | exact Hstale | exact Hsize]. clear Hlarge.
  assert (Hmv : os_rename host env temp_file destination fs
                = MkRun (Ok tt) (<[destination := stale]> (delete temp_file fs))
                        [Mutate (Rename temp_file destination)]).
  { unfold os_rename. rewrite Hstale, Hq, Hdest, andb_false_r. reflexivity. }
  rewrite Hmv. cbn [res files events].
  destruct (protect_quiet host env destination stale
              (<[destination := stale]> (delete temp_file fs)) Hq
              (lookup_insert_eq _ _ _))
    as (f' & Hres & Hfiles & Hsz & _).
  rewrite Hres, Hfiles. cbn [res files events]. rewrite insert_insert_eq.
  split; [reflexivity |]. split; [| split].
  - exists f'. rewrite lookup_insert_eq. auto.
  - rewrite lookup_insert_ne by congruence. apply lookup_delete_eq.
  - do 4 (apply in_or_app; right). find_event.
Qed.

Lemma stale_staging_is_installed_witness :
  res (download mac (calm [premium_truck] NoOutput) truck_url
         premium_truck_path
         {[ premium_truck_path ++ ".tmp" := new_file 700000 ]}) = Ok true.
Proof.
  refine (proj1 (stale_staging_is_installed mac (calm [premium_truck] NoOutput)
            truck_url premium_truck_path (new_file 700000)
            {[ premium_truck_path ++ ".tmp" := new_file 700000 ]}
            (fun _ => eq_refl) eq_refl eq_refl _ eq_refl)).
  discriminate.
Defined.

Lemma reinstall_trace_possible :
  install_trace mac no_route truck_installed "premium truck" "premium_truck"
    (Google_Drive_Link premium_truck) "ABCD1234XYZ999" reinstall_trace.
Proof.
  unfold install_trace. cbv zeta.
  change (files (install_mod mac no_route "premium truck" "premium_truck"
                   (Google_Drive_Link premium_truck) "ABCD1234XYZ999"
                   truck_installed))
    with (∅ : gmap string File).
  change (events (install_mod mac no_route "premium truck" "premium_truck"
                    (Google_Drive_Link premium_truck) "ABCD1234XYZ999"
                    truck_installed))
    with [HttpGet "http://lynx96.pythonanywhere.com/get_available_mods";
          Label "Preparing premium truck..."; Bar 0;
          Mutate (Shell ("chflags nohidden " ++ quoted premium_truck_path));
          Mutate (Chmod premium_truck_path 438);
          Mutate (Remove premium_truck_path);
          ThreadStart (Download truck_url premium_truck_path "premium_truck");
          ThreadStart (UpdateKey "premium_truck")].
  cbn [interleavings].
  do 6 (eexists; split; [| reflexivity]).
  eexists. eexists. split; [| split; [| reflexivity]].
  - eexists. eexists. split; [reflexivity |].
    split; [apply merge_nil_right | reflexivity].
  - exact (merge_right_first
             (events (run_task mac no_route
                        (Download truck_url premium_truck_path "premium_truck") ∅))
             (ThreadStart (UpdateKey "premium_truck")
              :: events (run_task mac no_route (UpdateKey "premium_truck") ∅))).
Qed.

Lemma mutations_follow_validation_witness :
  In (Label ("Preparing " ++ "premium truck" ++ "..."))
     (firstn 3 reinstall_trace).
Proof.
  exact (mutations_follow_validation mac no_route "premium truck"
           "premium_truck" (Google_Drive_Link premium_truck) "ABCD1234XYZ999"
           truck_installed reinstall_trace (firstn 3 reinstall_trace)
           (skipn 4 reinstall_trace)
           (Mutate (Shell ("chflags nohidden " ++ quoted premium_truck_path)))
           reinstall_trace_possible eq_refl eq_refl).
Defined.

(** ** A system without an install folder *)

(** X20: where [platform.system()] is neither Windows nor macOS there is no
    install folder, and the first use of it raises a [TypeError]:
    [uninstall_mod] raises at once; an install request with a wrong key is
    still answered with the invalid-key report, but an accepted one with a
    usable link raises right after announcing itself; in both cases nothing
    is changed and no thread is started. *)
Theorem unsupported_system (host : Host) (env : Env)
    (mod_name internal_name drive_link key : string) (fs : gmap string File) :
  MOD_INSTALL_PATH host = None ->
  (exists what, uninstall_mod host env internal_name fs
                = MkRun (Raise (TypeError what)) fs [])
  /\ (~ passed_validation mod_name
          (events (install_mod host env mod_name internal_name drive_link key fs)) ->
      install_mod host env mod_name internal_name drive_link key fs
      = MkRun (Ok tt) fs (fetch_events env ++ invalid_key_report)%list)
  /\ (passed_validation mod_name
        (events (install_mod host env mod_name internal_name drive_link key fs)) ->
      is_Some (usable (extract_drive_file_id drive_link)) ->
      exists what,
        install_mod host env mod_name internal_name drive_link key fs
        = MkRun (Raise (TypeError what)) fs
            (fetch_events env
             ++ [Label ("Preparing " ++ mod_name ++ "..."); Bar 0])%list).
Proof.
  intros Hnone. split; [| split].
  - unfold uninstall_mod, join_install_path, bind, raise. rewrite Hnone. eauto.
  - intros Hno. rewrite passed_iff_some_record in Hno.
    apply not_true_is_false in Hno.
    rewrite install_mod_run. cbv zeta.
    rewrite (install_scan_reject _ _ _ _ _ _ _ _ Hno). reflexivity.
  - intros Hyes [file_id Hid]. rewrite passed_iff_some_record in Hyes.
    rewrite install_mod_run. cbv zeta.
    rewrite (install_scan_accept _ _ _ _ _ _ _ _ Hyes), install_matched_run, Hid.
    unfold join_install_path, raise. rewrite Hnone. eauto.
Qed.

Lemma unsupported_system_witness :
  exists what, uninstall_mod linux (calm [] NoOutput) "premium_truck" ∅
               = MkRun (Raise (TypeError what)) ∅ [].
Proof.
  exact (proj1 (unsupported_system linux (calm [] NoOutput) "premium truck"
                  "premium_truck" "" "" ∅ eq_refl)).
Defined.
